(** * notion-sync: the nag scheduler and the calendar sync, embedded in Rocq

    The repository holds four Node scripts that poll a Notion database:
    - the event nagger (first script of [src/unnamed/part_000]),
    - the calendar sync with the all-day branch ([src/src/sync-calendar.js]),
    - two older calendar syncs without that branch (second script of
      [src/unnamed/part_000], and [src/unnamed/part_001]).

    The scripts are embedded function by function.  JavaScript values that
    may be [undefined] or [null] are [option]s, optional chaining [a?.b] is a
    bind on [option], numbers that the scripts use as counters or as
    millisecond time stamps are [Z], strings are [string] (bytes of the UTF-8
    encoding), awaited calls to Slack, Notion and Google Calendar are answered
    by an explicit [World] oracle and leave an explicit trace. *)

From Stdlib Require Import ZArith Lia String Ascii List.
From stdpp Require Import base option strings gmap list pretty.

Local Open Scope string_scope.
Local Open Scope Z_scope.

(** ** JavaScript strings *)

Module JS.

(** [ToBoolean] on a string: only the empty string is falsy. *)
Definition truthy (s : string) : bool := negb (String.eqb s "").

(** [ToBoolean] on a value that may also be [undefined] or [null]. *)
Definition truthy_opt (o : option string) : bool :=
  match o with
  | Some s => truthy s
  | None => false
  end.

(** [a || b] where [a] is an optional string and [b] a string. *)
Definition or_else (a : option string) (b : string) : string :=
  match a with
  | Some s => if truthy s then s else b
  | None => b
  end.

(** [a || b] where both sides may be [undefined]. *)
Definition or_opt (a b : option string) : option string :=
  if truthy_opt a then a else b.

(** [s.startsWith(p)]. *)
Fixpoint startsWith (p s : string) : bool :=
  match p, s with
  | EmptyString, _ => true
  | String _ _, EmptyString => false
  | String a p', String b s' => Ascii.eqb a b && startsWith p' s'
  end.

(** [String.prototype.includes]. *)
Fixpoint includes (needle s : string) : bool :=
  startsWith needle s ||
  match s with
  | EmptyString => false
  | String _ s' => includes needle s'
  end.

(** [s.split(sep)[0]] for a one-character separator: the part of [s] before
    the first occurrence of [sep], all of [s] when there is none. *)
Fixpoint split_head (sep : ascii) (s : string) : string :=
  match s with
  | EmptyString => EmptyString
  | String c s' => if Ascii.eqb c sep then EmptyString else String c (split_head sep s')
  end.

(** [Array.prototype.join]. *)
Definition join (sep : string) (l : list string) : string := String.concat sep l.

(** [arr[i]] for an array and an integral index: [undefined] out of range. *)
Definition index {A} (l : list A) (i : Z) : option A :=
  if i <? 0 then None else nth_error l (Z.to_nat i).

(** The decimal rendering of an integral number in a template literal. *)
Definition number_to_string (n : Z) : string := pretty n.

(** The [%] operator on integral numbers: the sign follows the dividend. *)
Definition remainder (a b : Z) : Z := Z.rem a b.

End JS.

(** ** The ECMAScript Date arithmetic used by the scripts

    Time values are milliseconds since the epoch; the [NaN] time value of an
    invalid Date is [None].  The functions below are the abstract operations
    of the ECMAScript specification (section "Date Objects"), under their
    names there. *)

Module ES.

Definition msPerDay : Z := 86400000.
Definition msPerHour : Z := 3600000.
Definition msPerMinute : Z := 60000.
Definition msPerSecond : Z := 1000.

Definition Day (t : Z) : Z := t / msPerDay.
Definition TimeWithinDay (t : Z) : Z := t mod msPerDay.

Definition isLeap (y : Z) : bool :=
  ((y mod 4 =? 0) && negb (y mod 100 =? 0)) || (y mod 400 =? 0).

Definition DaysInYear (y : Z) : Z := if isLeap y then 366 else 365.

Definition DayFromYear (y : Z) : Z :=
  365 * (y - 1970) + (y - 1969) / 4 - (y - 1901) / 100 + (y - 1601) / 400.

(** The largest year [y] with [DayFromYear y <= d]: four steps down from an
    estimate that is never too small are enough. *)
Fixpoint year_down (fuel : nat) (y d : Z) : Z :=
  match fuel with
  | O => y
  | S f => if DayFromYear y <=? d then y else year_down f (y - 1) d
  end.

Definition YearFromDay (d : Z) : Z := year_down 4 (1972 + 400 * d / 146097) d.

Definition YearFromTime (t : Z) : Z := YearFromDay (Day t).

Definition InLeapYear (t : Z) : Z := if isLeap (YearFromTime t) then 1 else 0.

Definition DayWithinYear (t : Z) : Z := Day t - DayFromYear (YearFromTime t).

(** Day number within the year of the first day of month [m] (0 = January). *)
Definition monthStart (leap m : Z) : Z :=
  match m with
  | 0 => 0
  | 1 => 31
  | 2 => 59 + leap
  | 3 => 90 + leap
  | 4 => 120 + leap
  | 5 => 151 + leap
  | 6 => 181 + leap
  | 7 => 212 + leap
  | 8 => 243 + leap
  | 9 => 273 + leap
  | 10 => 304 + leap
  | 11 => 334 + leap
  | _ => 365 + leap
  end.

Definition monthOfDayInYear (leap dwy : Z) : Z :=
  if dwy <? 31 then 0
  else if dwy <? 59 + leap then 1
  else if dwy <? 90 + leap then 2
  else if dwy <? 120 + leap then 3
  else if dwy <? 151 + leap then 4
  else if dwy <? 181 + leap then 5
  else if dwy <? 212 + leap then 6
  else if dwy <? 243 + leap then 7
  else if dwy <? 273 + leap then 8
  else if dwy <? 304 + leap then 9
  else if dwy <? 334 + leap then 10
  else 11.

Definition MonthFromTime (t : Z) : Z := monthOfDayInYear (InLeapYear t) (DayWithinYear t).

Definition DateFromTime (t : Z) : Z :=
  DayWithinYear t - monthStart (InLeapYear t) (MonthFromTime t) + 1.

Definition HourFromTime (t : Z) : Z := (t / msPerHour) mod 24.
Definition MinFromTime (t : Z) : Z := (t / msPerMinute) mod 60.
Definition SecFromTime (t : Z) : Z := (t / msPerSecond) mod 60.
Definition msFromTime (t : Z) : Z := t mod msPerSecond.

Definition MakeTime (h m s ms : Z) : Z :=
  h * msPerHour + m * msPerMinute + s * msPerSecond + ms.

(** [MakeDay]: the month may lie outside 0..11 and the date outside the
    month; both overflow into the neighbouring months and years. *)
Definition MakeDay (year month date : Z) : Z :=
  let ym := year + month / 12 in
  let mn := month mod 12 in
  DayFromYear ym + monthStart (if isLeap ym then 1 else 0) mn + date - 1.

Definition MakeDate (day time : Z) : Z := day * msPerDay + time.

(** [TimeClip]: time values beyond 8.64e15 ms are not representable. *)
Definition TimeClip (t : Z) : option Z :=
  if Z.abs t <=? 8640000000000000 then Some t else None.

(** *** Decimal fields *)

Definition digit (n : Z) : ascii := ascii_of_nat (48 + Z.to_nat (n mod 10)).

Definition pad2 (n : Z) : string := String (digit (n / 10)) (String (digit n) EmptyString).
Definition pad3 (n : Z) : string := String (digit (n / 100)) (pad2 n).
Definition pad4 (n : Z) : string := String (digit (n / 1000)) (pad3 n).
Definition pad6 (n : Z) : string :=
  String (digit (n / 100000)) (String (digit (n / 10000)) (pad4 n)).

Definition digit_val (c : ascii) : option Z :=
  let n := Z.of_nat (nat_of_ascii c) in
  if (48 <=? n) && (n <=? 57) then Some (n - 48) else None.

Definition expect (c : ascii) (s : string) : option string :=
  match s with
  | String a r => if Ascii.eqb a c then Some r else None
  | EmptyString => None
  end.

Definition digits2 (s : string) : option (Z * string) :=
  match s with
  | String a (String b r) =>
      x ← digit_val a; y ← digit_val b; Some (10 * x + y, r)
  | _ => None
  end.

Definition digits3 (s : string) : option (Z * string) :=
  match s with
  | String a r => x ← digit_val a; '(y, r') ← digits2 r; Some (100 * x + y, r')
  | _ => None
  end.

Definition digits4 (s : string) : option (Z * string) :=
  '(x, r) ← digits2 s; '(y, r') ← digits2 r; Some (100 * x + y, r').

(** *** The host: local time zone and the non-ISO date parser

    [LocalTZA t isUTC] is the offset of local time from UTC in milliseconds,
    at the UTC time [t] when [isUTC] holds and at the local time [t]
    otherwise.  [legacyParse] stands for the implementation-defined fallback
    of [Date.parse] on strings that are not in the Date Time String Format. *)
Class Host := {
  LocalTZA : Z -> bool -> Z;
  legacyParse : string -> option Z
}.

(** A thrown exception carries its [message]; the scripts read nothing else
    of it. *)
Inductive Completion (A : Type) : Type :=
  | Normal (a : A)
  | Throw (message : string).
Arguments Normal {A} a.
Arguments Throw {A} message.

Definition bindC {A B} (c : Completion A) (k : A -> Completion B) : Completion B :=
  match c with
  | Normal a => k a
  | Throw m => Throw m
  end.

(** *** The Date Time String Format

    [YYYY-MM-DD], optionally followed by [THH:mm], [THH:mm:ss] or
    [THH:mm:ss.sss] and then by [Z] or [+HH:mm] / [-HH:mm].  Node accepts days
    up to 31 in every month and lets [MakeDay] carry the overflow. *)

Definition parse_date_part (s : string) : option (Z * Z * Z * string) :=
  '(y, r) ← digits4 s;
  r ← expect "-" r;
  '(m, r) ← digits2 r;
  r ← expect "-" r;
  '(d, r) ← digits2 r;
  if (1 <=? m) && (m <=? 12) && (1 <=? d) && (d <=? 31)
  then Some (y, m, d, r) else None.

Definition parse_time_part (s : string) : option (Z * string) :=
  '(h, r) ← digits2 s;
  r ← expect ":" r;
  '(mi, r) ← digits2 r;
  if (h <=? 23) && (mi <=? 59) then
    match expect ":" r with
    | None => Some (MakeTime h mi 0 0, r)
    | Some r1 =>
        '(sec, r2) ← digits2 r1;
        if sec <=? 59 then
          match expect "." r2 with
          | None => Some (MakeTime h mi sec 0, r2)
          | Some r3 => '(ms, r4) ← digits3 r3; Some (MakeTime h mi sec ms, r4)
          end
        else None
    end
  else None.

(** The UTC offset that ends a date-time: [Some None] when there is none
    (local time), [Some (Some off)] for [Z] and for a numeric offset. *)
Definition parse_zone (s : string) : option (option Z) :=
  match s with
  | EmptyString => Some None
  | String c r =>
      if Ascii.eqb c "Z" then (if String.eqb r "" then Some (Some 0) else None)
      else if Ascii.eqb c "+" || Ascii.eqb c "-" then
        '(h, r) ← digits2 r;
        r ← expect ":" r;
        '(mi, r) ← digits2 r;
        if String.eqb r "" && (h <=? 23) && (mi <=? 59) then
          let off := h * msPerHour + mi * msPerMinute in
          Some (Some (if Ascii.eqb c "-" then - off else off))
        else None
      else None
  end.

Section WithHost.
Context `{Host}.

Definition LocalTime (t : Z) : Z := t + LocalTZA t true.
Definition UTC (t : Z) : Z := t - LocalTZA t false.

(** A date-only string is UTC midnight; a date-time without offset is local
    time. *)
Definition isoParse (s : string) : option Z :=
  '(y, m, d, r) ← parse_date_part s;
  let day := MakeDay y (m - 1) d in
  match r with
  | EmptyString => TimeClip (MakeDate day 0)
  | String c r =>
      if Ascii.eqb c "T" then
        '(time, r) ← parse_time_part r;
        z ← parse_zone r;
        let t := MakeDate day time in
        match z with
        | Some off => TimeClip (t - off)
        | None => TimeClip (UTC t)
        end
      else None
  end.

(** [Date.parse]: the time value, [None] for [NaN]. *)
Definition Date_parse (s : string) : option Z :=
  match isoParse s with
  | Some t => Some t
  | None => legacyParse s
  end.

(** [d.getDate()]: the day of the month in local time. *)
Definition getDate (t : option Z) : option Z :=
  (fun t => DateFromTime (LocalTime t)) <$> t.

(** [d.setDate(dt)]: replaces the day of the month in local time; returns
    the new time value of [d]. *)
Definition setDate (t : option Z) (dt : option Z) : option Z :=
  t ← t;
  dt ← dt;
  let lt := LocalTime t in
  let newDate := MakeDate (MakeDay (YearFromTime lt) (MonthFromTime lt) dt) (TimeWithinDay lt) in
  TimeClip (UTC newDate).

End WithHost.

(** [a < b] on two Dates: false as soon as one of them is invalid. *)
Definition date_lt (a b : option Z) : bool :=
  match a, b with
  | Some x, Some y => x <? y
  | _, _ => false
  end.

Definition year_string (y : Z) : string :=
  if (0 <=? y) && (y <=? 9999) then pad4 y
  else String (if y <? 0 then "-"%char else "+"%char) (pad6 (Z.abs y)).

(** The [YYYY-MM-DD] part of [toISOString]. *)
Definition iso_date (t : Z) : string :=
  year_string (YearFromTime t) ++ "-" ++ pad2 (MonthFromTime t + 1) ++ "-" ++ pad2 (DateFromTime t).

(** The [HH:mm:ss.sssZ] part of [toISOString]. *)
Definition iso_time (t : Z) : string :=
  pad2 (HourFromTime t) ++ ":" ++ pad2 (MinFromTime t) ++ ":" ++ pad2 (SecFromTime t)
  ++ "." ++ pad3 (msFromTime t) ++ "Z".

Definition iso (t : Z) : string := iso_date t ++ "T" ++ iso_time t.

(** [d.toISOString()]: always UTC; throws a RangeError on an invalid Date. *)
Definition toISOString (t : option Z) : Completion string :=
  match t with
  | Some t => Normal (iso t)
  | None => Throw "Invalid time value"
  end.

End ES.

(** ** The Notion page objects the scripts read

    [event.properties] maps a property name to a property value object whose
    content sits under the name of its type ([title], [rich_text], [date],
    [number], [select]).  A property that the database does not have is
    [None]. *)

Module Notion.

Record RichTextItem := { plain_text : string }.
Record TitleProp := { title : list RichTextItem }.
Record RichTextProp := { rich_text : list RichTextItem }.
Record DateValue := { start : option string; end_ : option string }.
Record DateProp := { date : option DateValue }.
Record NumberProp := { number : option Z }.
Record SelectOption := { name : string }.
Record SelectProp := { select : option SelectOption }.

(** The value under ['Last edited time'], which the nagger hands to
    [new Date] as it is: nothing, a string, or an object.  The Notion API
    gives the property value object [{ id, type, last_edited_time }], which
    holds the time of the last edit as an ISO string one level down. *)
Inductive Value :=
  | VUndefined
  | VString (s : string)
  | VObject (last_edited_time : string).

Record Properties := {
  Event_Name : option TitleProp;
  Date_Time : option DateProp;
  Location : option RichTextProp;
  Description : option RichTextProp;
  Status : option SelectProp;
  Nag_Status : option SelectProp;
  Nag_Count : option NumberProp;
  Last_Nagged : option DateProp;
  Asked_Who : option RichTextProp;
  Calendar_ID : option RichTextProp;
  Notes : option RichTextProp;
  Last_edited_time : Value
}.

Record Page := { id : string; properties : Properties }.

(** [arr?.[0]?.plain_text] on a rich text array. *)
Definition first_plain_text (l : list RichTextItem) : option string :=
  plain_text <$> head l.

(** [prop?.date?.start] and [prop?.date?.end]. *)
Definition date_start (o : option DateProp) : option string :=
  p ← o; v ← date p; start v.

Definition date_end (o : option DateProp) : option string :=
  p ← o; v ← date p; end_ v.

(** [prop?.number]. *)
Definition number_of (o : option NumberProp) : option Z :=
  p ← o; number p.

(** *** [notion.pages.update]

    The [properties] argument of an update, key by key, with the shape of
    each value as the scripts write it. *)
Inductive PatchValue :=
  | PNumber (n : Z)
  | PSelect (option_name : string)
  | PRichText (content : option string)
  | PRawString (s : string)
  | PRawNumber (n : Z).

Definition Patch := list (string * PatchValue).

Definition set_text (content : option string) : option RichTextProp :=
  Some {| rich_text := match content with
                       | Some c => [ {| plain_text := c |} ]
                       | None => []
                       end |}.

Definition with_Status (v : option SelectProp) (p : Properties) : Properties :=
  {| Event_Name := Event_Name p; Date_Time := Date_Time p; Location := Location p;
     Description := Description p; Status := v; Nag_Status := Nag_Status p;
     Nag_Count := Nag_Count p; Last_Nagged := Last_Nagged p; Asked_Who := Asked_Who p;
     Calendar_ID := Calendar_ID p; Notes := Notes p; Last_edited_time := Last_edited_time p |}.

Definition with_Nag_Status (v : option SelectProp) (p : Properties) : Properties :=
  {| Event_Name := Event_Name p; Date_Time := Date_Time p; Location := Location p;
     Description := Description p; Status := Status p; Nag_Status := v;
     Nag_Count := Nag_Count p; Last_Nagged := Last_Nagged p; Asked_Who := Asked_Who p;
     Calendar_ID := Calendar_ID p; Notes := Notes p; Last_edited_time := Last_edited_time p |}.

Definition with_Nag_Count (v : option NumberProp) (p : Properties) : Properties :=
  {| Event_Name := Event_Name p; Date_Time := Date_Time p; Location := Location p;
     Description := Description p; Status := Status p; Nag_Status := Nag_Status p;
     Nag_Count := v; Last_Nagged := Last_Nagged p; Asked_Who := Asked_Who p;
     Calendar_ID := Calendar_ID p; Notes := Notes p; Last_edited_time := Last_edited_time p |}.

Definition with_Asked_Who (v : option RichTextProp) (p : Properties) : Properties :=
  {| Event_Name := Event_Name p; Date_Time := Date_Time p; Location := Location p;
     Description := Description p; Status := Status p; Nag_Status := Nag_Status p;
     Nag_Count := Nag_Count p; Last_Nagged := Last_Nagged p; Asked_Who := v;
     Calendar_ID := Calendar_ID p; Notes := Notes p; Last_edited_time := Last_edited_time p |}.

Definition with_Calendar_ID (v : option RichTextProp) (p : Properties) : Properties :=
  {| Event_Name := Event_Name p; Date_Time := Date_Time p; Location := Location p;
     Description := Description p; Status := Status p; Nag_Status := Nag_Status p;
     Nag_Count := Nag_Count p; Last_Nagged := Last_Nagged p; Asked_Who := Asked_Who p;
     Calendar_ID := v; Notes := Notes p; Last_edited_time := Last_edited_time p |}.

Definition with_Notes (v : option RichTextProp) (p : Properties) : Properties :=
  {| Event_Name := Event_Name p; Date_Time := Date_Time p; Location := Location p;
     Description := Description p; Status := Status p; Nag_Status := Nag_Status p;
     Nag_Count := Nag_Count p; Last_Nagged := Last_Nagged p; Asked_Who := Asked_Who p;
     Calendar_ID := Calendar_ID p; Notes := v; Last_edited_time := Last_edited_time p |}.

(** How the store applies one entry of an update: properties are kept by
    name, and an entry changes the property that its key names.  The nagger
    writes the time of its last nag under the keys ['date:Last Nagged:start']
    and ['date:Last Nagged:is_datetime'] (l.198-199), which are not the name
    ['Last Nagged'] that [shouldNagNow] reads (l.134); no script reads those
    two keys, the record has no field for them, and an entry under them
    leaves every field as it is.  Keys the scripts never write change
    nothing either. *)
Definition apply_entry (p : Properties) (kv : string * PatchValue) : Properties :=
  let '(k, v) := kv in
  match v with
  | PNumber n =>
      if String.eqb k "Nag Count" then with_Nag_Count (Some {| number := Some n |}) p
      else p
  | PSelect o =>
      let v := Some {| select := Some {| name := o |} |} in
      if String.eqb k "Nag Status" then with_Nag_Status v p
      else if String.eqb k "Status" then with_Status v p
      else p
  | PRichText c =>
      if String.eqb k "Asked Who" then with_Asked_Who (set_text c) p
      else if String.eqb k "Calendar ID" then with_Calendar_ID (set_text c) p
      else if String.eqb k "Notes" then with_Notes (set_text c) p
      else p
  | PRawString _ => p
  | PRawNumber _ => p
  end.

Definition apply_patch (patch : Patch) (p : Properties) : Properties :=
  fold_left apply_entry patch p.

(** The select filters of [notion.databases.query]. *)
Definition select_name (o : option SelectProp) : option string :=
  name <$> (o ≫= select).

Definition select_equals (o : option SelectProp) (v : string) : bool :=
  match select_name o with
  | Some n => String.eqb n v
  | None => false
  end.

Definition select_is_empty (o : option SelectProp) : bool :=
  match select_name o with
  | Some _ => false
  | None => true
  end.

End Notion.

(** ** The Google Calendar event resource the syncs send *)

Module GCal.

Record EventTime := {
  dateTime : option string;
  date : option string;
  timeZone : option string
}.

Record Event := {
  summary : string;
  description : string;
  location : string;
  start : EventTime;
  end_ : EventTime
}.

End GCal.

(** ** Awaited calls: the world, the trace and the monad of the scripts *)

Module IO.

Import ES.

(** A request a script sends out. *)
Inductive Effect :=
  | SlackPostMessage (channel : option string) (text : string)
  | NotionPagesUpdate (page_id : string) (patch : Notion.Patch)
  | CalendarEventsInsert (calendarId : string) (body : GCal.Event)
  | CalendarAclInsert (calendarId : string).

(** How the outside answers: every call resolves or rejects, the clock gives
    its [n]-th reading.  A query that resolves does so with one page of
    results, which holds at most as many records as the service puts in a
    page; the scripts never follow [has_more] and [next_cursor]. *)
Record World := {
  Date_now : nat -> Z;
  slack_postMessage : option string -> string -> Completion unit;
  notion_databases_query : Completion nat;
  notion_pages_update : string -> Notion.Patch -> Completion unit;
  calendar_events_insert : string -> GCal.Event -> Completion string;
  calendar_acl_insert : string -> Completion unit
}.

Record State := {
  store : gmap string Notion.Properties;
  trace : list Effect;
  ticks : nat
}.

Definition M (A : Type) : Type := State -> Completion A * State.

Definition ret {A} (a : A) : M A := fun st => (Normal a, st).

Definition bind {A B} (m : M A) (k : A -> M B) : M B :=
  fun st =>
    match m st with
    | (Normal a, st') => k a st'
    | (Throw msg, st') => (Throw msg, st')
    end.

Definition throw {A} (msg : string) : M A := fun st => (Throw msg, st).

(** [try { m } catch (error) { handler(error.message) }]. *)
Definition try_catch {A} (m : M A) (handler : string -> M A) : M A :=
  fun st =>
    match m st with
    | (Normal a, st') => (Normal a, st')
    | (Throw msg, st') => handler msg st'
    end.

Definition lift {A} (c : Completion A) : M A := fun st => (c, st).

Definition emit (e : Effect) : M unit :=
  fun st => (Normal tt, {| store := store st; trace := (trace st ++ [e])%list; ticks := ticks st |}).

(** [Date.now()] and [new Date()]. *)
Definition now (w : World) : M Z :=
  fun st => (Normal (Date_now w (ticks st)),
             {| store := store st; trace := trace st; ticks := S (ticks st) |}).

Fixpoint for_of {A} (l : list A) (body : A -> M unit) : M unit :=
  match l with
  | [] => ret tt
  | x :: l' => bind (body x) (fun _ => for_of l' body)
  end.

(** [await notion.pages.update({ page_id, properties })]: the request is
    sent; when the store accepts it the page changes, when it rejects it the
    page stays as it was and the call throws. *)
Definition pages_update (w : World) (page_id : string) (patch : Notion.Patch) : M unit :=
  bind (emit (NotionPagesUpdate page_id patch)) (fun _ st =>
    match notion_pages_update w page_id patch with
    | Normal _ =>
        (Normal tt, {| store := alter (Notion.apply_patch patch) page_id (store st);
                       trace := trace st; ticks := ticks st |})
    | Throw msg => (Throw msg, st)
    end).

(** [await notion.databases.query({ filter })], the [results] of the
    response: the first page of the stored records that pass the filter. *)
Definition databases_query (w : World) (filter : Notion.Properties -> bool) : M (list Notion.Page) :=
  fun st =>
    match notion_databases_query w with
    | Normal page_size =>
        (Normal ((fun kv => {| Notion.id := kv.1; Notion.properties := kv.2 |})
                   <$> take page_size
                         (List.filter (fun kv => filter kv.2) (map_to_list (store st)))), st)
    | Throw msg => (Throw msg, st)
    end.

(** The top level of every script: [main()] with its outer [try]; an
    exception that gets there ends the process with exit code 1. *)
Definition run_main (body : M unit) (st : State) : Z * State :=
  match body st with
  | (Normal _, st') => (0, st')
  | (Throw _, st') => (1, st')
  end.

Definition initial (s : gmap string Notion.Properties) : State :=
  {| store := s; trace := []; ticks := O |}.

(** The requests sent between two states of one run. *)
Definition sent (before after : State) : list Effect :=
  drop (length (trace before)) (trace after).

Definition is_slack (e : Effect) : bool :=
  match e with
  | SlackPostMessage _ _ => true
  | _ => false
  end.

Definition is_insert (e : Effect) : bool :=
  match e with
  | CalendarEventsInsert _ _ => true
  | _ => false
  end.

End IO.

Declare Scope io_scope.
Delimit Scope io_scope with io.
Notation "'let!' x := m 'in' k" := (IO.bind m (fun x => k))
  (at level 10, x name, m at level 100, k at level 200) : io_scope.
Notation "'do!' m 'in' k" := (IO.bind m (fun _ => k))
  (at level 10, m at level 100, k at level 200) : io_scope.

(** ** The event nagger (first script of [src/unnamed/part_000]) *)

Module Nag.

Import ES Notion IO.
Local Open Scope io_scope.

(** The Slack user ids of the three people, from the environment. *)
Record Config := {
  SLACK_USER_WINTER : option string;
  SLACK_USER_SUMMER : option string;
  SLACK_USER_RAV : option string
}.

(** [USERS[person]]. *)
Definition USERS (cfg : Config) (person : option string) : option string :=
  match person with
  | Some p =>
      if String.eqb p "winter" then SLACK_USER_WINTER cfg
      else if String.eqb p "summer" then SLACK_USER_SUMMER cfg
      else if String.eqb p "rav" then SLACK_USER_RAV cfg
      else None
  | None => None
  end.

(** [sendSlackDM]: resolves when Slack answers [ok], rejects otherwise. *)
Definition sendSlackDM (w : World) (userId : option string) (message : string) : M unit :=
  do! emit (SlackPostMessage userId message) in
  lift (slack_postMessage w userId message).

(** [props['Date & Time']?.date?.start?.includes('T')]: [None] is
    [undefined]. *)
Definition hasTime (props : Properties) : option bool :=
  JS.includes "T" <$> date_start (Date_Time props).

Definition hasLocation (props : Properties) : option string :=
  Location props ≫= (fun p => first_plain_text (rich_text p)).

Definition hasDescription (props : Properties) : option string :=
  Description props ≫= (fun p => first_plain_text (rich_text p)).

(** [!x] on the three values above. *)
Definition not_bool (o : option bool) : bool := negb (default false o).
Definition not_str (o : option string) : bool := negb (JS.truthy_opt o).

Definition isMissingInfo (event : Page) : bool :=
  let props := properties event in
  not_bool (hasTime props) || not_str (hasLocation props) || not_str (hasDescription props).

Definition getMissingFields (event : Page) : list string :=
  let props := properties event in
  let missing : list string := [] in
  let missing := if not_bool (hasTime props) then (missing ++ ["time"])%list else missing in
  let missing := if not_str (hasLocation props) then (missing ++ ["location"])%list else missing in
  let missing := if not_str (hasDescription props) then (missing ++ ["description"])%list else missing in
  missing.

Definition rotation : list string := ["winter"; "summer"; "rav"].

Definition getNextPerson (nagCount : Z) : option string :=
  JS.index rotation (JS.remainder nagCount 3).

(** The filter of [queryEventsNeedingNag]: Status is Scheduled and Nag
    Status is empty or Pending. *)
Definition nag_filter (props : Properties) : bool :=
  select_equals (Status props) "Scheduled" &&
  (select_is_empty (Nag_Status props) || select_equals (Nag_Status props) "Pending").

Definition queryEventsNeedingNag (w : World) : M (list Page) :=
  let! results := databases_query w nag_filter in
  ret (List.filter isMissingInfo results).

(** [props['Nag Count']?.number || 0]. *)
Definition nagCountOf (props : Properties) : Z :=
  default 0 (number_of (Nag_Count props)).

(** [new Date(v)] on the value under ['Last edited time']: a string is
    parsed; [undefined] gives an invalid Date; an object is first turned into
    the string ["[object Object]"], which is then parsed. *)
Definition new_Date `{Host} (v : Value) : option Z :=
  match v with
  | VUndefined => None
  | VString s => Date_parse s
  | VObject _ => Date_parse "[object Object]"
  end.

Record Verdict := { should : bool; reason : string }.

(** The verdict of [shouldNagNow] as a function of the value [now] of
    [Date.now()], which a call evaluates at most once. *)
Definition shouldNagNow `{Host} (now : Z) (event : Page) : Verdict :=
  let props := properties event in
  let nagCount := nagCountOf props in
  let lastNagged := date_start (Last_Nagged props) in
  if 5 <=? nagCount then {| should := false; reason := "max_attempts" |}
  else if nagCount =? 0 then
    let lastEdited := new_Date (Last_edited_time props) in
    let hourAgo := TimeClip (now - 60 * 60 * 1000) in
    if date_lt lastEdited hourAgo
    then {| should := true; reason := "first_nag" |}
    else {| should := false; reason := "too_soon" |}
  else
    match lastNagged with
    | Some s =>
        if JS.truthy s then
          let lastNagTime := Date_parse s in
          let twoHoursAgo := TimeClip (now - 2 * 60 * 60 * 1000) in
          if date_lt lastNagTime twoHoursAgo
          then {| should := true; reason := "follow_up" |}
          else {| should := false; reason := "too_soon" |}
        else {| should := true; reason := "unknown_state" |}
    | None => {| should := true; reason := "unknown_state" |}
    end.

(** The call [shouldNagNow(event)] with its reading of the clock:
    [Date.now()] is evaluated on the two paths that compare a time (l.144,
    l.155) and on no other. *)
Definition callShouldNagNow `{Host} (w : World) (event : Page) : M Verdict :=
  let props := properties event in
  let nagCount := nagCountOf props in
  let lastNagged := date_start (Last_Nagged props) in
  if 5 <=? nagCount then ret {| should := false; reason := "max_attempts" |}
  else if nagCount =? 0 then
    let lastEdited := new_Date (Last_edited_time props) in
    let! t := now w in
    let hourAgo := TimeClip (t - 60 * 60 * 1000) in
    if date_lt lastEdited hourAgo
    then ret {| should := true; reason := "first_nag" |}
    else ret {| should := false; reason := "too_soon" |}
  else
    match lastNagged with
    | Some s =>
        if JS.truthy s then
          let lastNagTime := Date_parse s in
          let! t := now w in
          let twoHoursAgo := TimeClip (t - 2 * 60 * 60 * 1000) in
          if date_lt lastNagTime twoHoursAgo
          then ret {| should := true; reason := "follow_up" |}
          else ret {| should := false; reason := "too_soon" |}
        else ret {| should := true; reason := "unknown_state" |}
    | None => ret {| should := true; reason := "unknown_state" |}
    end.

(** The decision as the orchestrator reads it off the verdict. *)
Inductive NagDecision :=
  | Due (person : option string)
  | NotDue (why : string)
  | GiveUp.

Definition decision `{Host} (now : Z) (event : Page) : NagDecision :=
  let v := shouldNagNow now event in
  if should v then Due (getNextPerson (nagCountOf (properties event)))
  else if String.eqb (reason v) "max_attempts" then GiveUp
  else NotDue (reason v).

Definition dquote : string := String (ascii_of_nat 34) EmptyString.

Definition newline : string := String (ascii_of_nat 10) EmptyString.

Definition greeting (person : option string) : string :=
  match person with
  | Some p =>
      if String.eqb p "winter" then "🌿 Hey Winter!"
      else if String.eqb p "summer" then "🌸 Hey Summer!"
      else "🍀 Hey Rav!"
  | None => "🍀 Hey Rav!"
  end.

Definition eventNameOf (props : Properties) : string :=
  JS.or_else (Event_Name props ≫= (fun p => first_plain_text (title p))) "Untitled Event".

Definition dateStrOf (props : Properties) : string :=
  JS.or_else (date_start (Date_Time props)) "Unknown date".

Definition buildNagMessage (event : Page) (person : option string) : string :=
  let props := properties event in
  let eventName := eventNameOf props in
  let dateStr := dateStrOf props in
  let missing := getMissingFields event in
  let nagCount := nagCountOf props + 1 in
  (greeting person ++ newline ++ newline ++
   "I need some info about this event:" ++ newline ++
   "📅 **" ++ eventName ++ "** (" ++ dateStr ++ ")" ++ newline ++ newline ++
   "Missing: " ++ JS.join ", " missing ++ newline ++ newline ++
   "Can you fill in the missing details in Notion? Or reply " ++ dquote ++ "don't know" ++ dquote ++
   " if you don't have this info." ++ newline ++ newline ++
   "(Attempt " ++ JS.number_to_string nagCount ++ "/5)")%string.

(** The [properties] that [updateNagStatus] writes. *)
Definition nagPatch (person : option string) (nagCount : Z) (stamp : string) : Patch :=
  [ ("Nag Count", PNumber nagCount);
    ("date:Last Nagged:start", PRawString stamp);
    ("date:Last Nagged:is_datetime", PRawNumber 1);
    ("Nag Status", PSelect "Pending");
    ("Asked Who", PRichText person) ].

Definition updateNagStatus (w : World) (eventId : string) (person : option string) (nagCount : Z) : M unit :=
  let! t := now w in
  let! stamp := lift (toISOString (Some t)) in
  pages_update w eventId (nagPatch person nagCount stamp).

Definition gaveUpPatch : Patch := [ ("Nag Status", PSelect "Gave Up") ].

(** The body of the [for] loop of [main]. *)
Definition nagEvent `{Host} (cfg : Config) (w : World) (event : Page) : M unit :=
  let! shouldNag := callShouldNagNow w event in
  if negb (should shouldNag) then
    if String.eqb (reason shouldNag) "max_attempts"
    then pages_update w (id event) gaveUpPatch
    else ret tt
  else
    let nagCount := nagCountOf (properties event) in
    let person := getNextPerson nagCount in
    let userId := USERS cfg person in
    try_catch
      (let message := buildNagMessage event person in
       do! sendSlackDM w userId message in
       updateNagStatus w (id event) person (nagCount + 1))
      (fun _ => ret tt).

Definition main_body `{Host} (cfg : Config) (w : World) : M unit :=
  let! events := queryEventsNeedingNag w in
  for_of events (nagEvent cfg w).

Definition main `{Host} (cfg : Config) (w : World) (st : State) : Z * State :=
  run_main (main_body cfg w) st.

End Nag.

(** ** The calendar sync with the all-day branch ([src/src/sync-calendar.js]) *)

Module SyncCalendar.

Import ES Notion IO.
Local Open Scope io_scope.

Definition CALENDAR_ID : string := "rav@threeleafclover.us".

Definition TIME_ZONE : string := "America/Los_Angeles".

Definition approved_filter (props : Properties) : bool :=
  select_equals (Status props) "Approved".

Definition queryApprovedEvents (w : World) : M (list Page) :=
  databases_query w approved_filter.

Definition titleOf (props : Properties) : string :=
  JS.or_else (Event_Name props ≫= (fun p => first_plain_text (title p))) "Untitled Event".

Definition descriptionOf (props : Properties) : string :=
  JS.or_else (Description props ≫= (fun p => first_plain_text (rich_text p))) "".

Definition locationOf (props : Properties) : string :=
  JS.or_else (Location props ≫= (fun p => first_plain_text (rich_text p))) "".

Definition timed (stamp : option string) : GCal.EventTime :=
  {| GCal.dateTime := stamp; GCal.date := None; GCal.timeZone := Some TIME_ZONE |}.

Definition allDay (day : string) : GCal.EventTime :=
  {| GCal.dateTime := None; GCal.date := Some day; GCal.timeZone := None |}.

(** [const nextDay = new Date(start); nextDay.setDate(nextDay.getDate() + 1);
    nextDay.toISOString().split('T')[0]]. *)
Definition nextDayOf `{Host} (start : string) : Completion string :=
  let nextDay := Date_parse start in
  let nextDay := setDate nextDay (Z.add 1 <$> getDate nextDay) in
  bindC (toISOString nextDay) (fun iso => Normal (JS.split_head "T" iso)).

(** The request body that [createCalendarEvent] builds before it calls the
    calendar, or the exception it throws on the way. *)
Definition eventBody `{Host} (notionPage : Page) : Completion GCal.Event :=
  let props := properties notionPage in
  let title := titleOf props in
  let description := descriptionOf props in
  let location := locationOf props in
  let dateInfo := Date_Time props ≫= date in
  match dateInfo with
  | None => Throw "Date & Time is required"
  | Some dateInfo =>
      match start dateInfo with
      | None => Throw "Date & Time is required"
      | Some s =>
          if negb (JS.truthy s) then Throw "Date & Time is required"
          else
            let hasTime := JS.includes "T" s in
            if hasTime then
              Normal {| GCal.summary := title; GCal.description := description;
                        GCal.location := location;
                        GCal.start := timed (Some s);
                        GCal.end_ := timed (JS.or_opt (end_ dateInfo) (Some s)) |}
            else
              match end_ dateInfo with
              | Some e =>
                  if JS.truthy e then
                    Normal {| GCal.summary := title; GCal.description := description;
                              GCal.location := location;
                              GCal.start := allDay (JS.split_head "T" s);
                              GCal.end_ := allDay (JS.split_head "T" e) |}
                  else
                    bindC (nextDayOf s) (fun d =>
                    Normal {| GCal.summary := title; GCal.description := description;
                              GCal.location := location;
                              GCal.start := allDay (JS.split_head "T" s);
                              GCal.end_ := allDay d |})
              | None =>
                  bindC (nextDayOf s) (fun d =>
                  Normal {| GCal.summary := title; GCal.description := description;
                            GCal.location := location;
                            GCal.start := allDay (JS.split_head "T" s);
                            GCal.end_ := allDay d |})
              end
      end
  end.

Definition events_insert (w : World) (calendarId : string) (body : GCal.Event) : M string :=
  do! emit (CalendarEventsInsert calendarId body) in
  lift (calendar_events_insert w calendarId body).

Definition createCalendarEvent `{Host} (w : World) (notionPage : Page) : M string :=
  let! event := lift (eventBody notionPage) in
  events_insert w CALENDAR_ID event.

Definition syncedPatch (note : string) (calendarEventId : string) (stamp : string) : Patch :=
  [ ("Calendar ID", PRichText (Some calendarEventId));
    ("Status", PSelect "Scheduled");
    ("Notes", PRichText (Some (note ++ stamp)%string)) ].

Definition updateNotionEvent (w : World) (pageId calendarEventId : string) : M unit :=
  let! t := now w in
  let! stamp := lift (toISOString (Some t)) in
  pages_update w pageId (syncedPatch "Synced to calendar on " calendarEventId stamp).

Definition errorPatch (message : string) : Patch :=
  [ ("Notes", PRichText (Some ("Error syncing: " ++ message)%string)) ].

(** The [try] block in the [for] loop of [main]. *)
Definition trySync `{Host} (w : World) (event : Page) : M unit :=
  let! calendarEventId := createCalendarEvent w event in
  updateNotionEvent w (id event) calendarEventId.

(** The body of the [for] loop of [main]: the [try] block and its [catch]. *)
Definition syncEvent `{Host} (w : World) (event : Page) : M unit :=
  try_catch (trySync w event)
    (fun message => pages_update w (id event) (errorPatch message)).

Definition main_body `{Host} (w : World) : M unit :=
  let! approvedEvents := queryApprovedEvents w in
  match approvedEvents with
  | [] => ret tt
  | _ => for_of approvedEvents (syncEvent w)
  end.

Definition main `{Host} (w : World) (st : State) : Z * State :=
  run_main (main_body w) st.

End SyncCalendar.

(** ** The two calendar syncs without the all-day branch

    The second script of [src/unnamed/part_000] and [src/unnamed/part_001]
    differ in the calendar they write to, in the wording of the note, and in
    [part_001] sharing the calendar before it starts. *)

Module SyncTimed.

Import ES Notion IO.
Local Open Scope io_scope.

Record Variant := {
  calendarId : string;
  syncedNote : string;
  sharesCalendar : bool
}.

Definition delegated : Variant :=
  {| calendarId := "c_9db0968d06112a987a320dea71da8f2182441f43fc605b714974eb47f6591cbf@group.calendar.google.com";
     syncedNote := "Synced to Main Cal on ";
     sharesCalendar := false |}.

Definition primary : Variant :=
  {| calendarId := "primary";
     syncedNote := "Synced to Google Calendar on ";
     sharesCalendar := true |}.

(** [shareCalendar] of [part_001]: whatever the outcome, the script goes on. *)
Definition shareCalendar (w : World) : M unit :=
  try_catch
    (do! emit (CalendarAclInsert "primary") in lift (calendar_acl_insert w "primary"))
    (fun _ => ret tt).

(** The request body that [createCalendarEvent] builds. *)
Definition eventBody (notionPage : Page) : GCal.Event :=
  let props := properties notionPage in
  let title := SyncCalendar.titleOf props in
  let description := SyncCalendar.descriptionOf props in
  let location := SyncCalendar.locationOf props in
  let startTime := date_start (Date_Time props) in
  let endTime := date_end (Date_Time props) in
  {| GCal.summary := title; GCal.description := description; GCal.location := location;
     GCal.start := SyncCalendar.timed startTime;
     GCal.end_ := SyncCalendar.timed (JS.or_opt endTime startTime) |}.

Definition createCalendarEvent (v : Variant) (w : World) (notionPage : Page) : M string :=
  SyncCalendar.events_insert w (calendarId v) (eventBody notionPage).

Definition updateNotionEvent (v : Variant) (w : World) (pageId calendarEventId : string) : M unit :=
  let! t := now w in
  let! stamp := lift (toISOString (Some t)) in
  pages_update w pageId (SyncCalendar.syncedPatch (syncedNote v) calendarEventId stamp).

Definition syncEvent (v : Variant) (w : World) (event : Page) : M unit :=
  try_catch
    (let! calendarEventId := createCalendarEvent v w event in
     updateNotionEvent v w (id event) calendarEventId)
    (fun message => pages_update w (id event) (SyncCalendar.errorPatch message)).

Definition main_body (v : Variant) (w : World) : M unit :=
  do! (if sharesCalendar v then shareCalendar w else ret tt) in
  let! approvedEvents := SyncCalendar.queryApprovedEvents w in
  match approvedEvents with
  | [] => ret tt
  | _ => for_of approvedEvents (syncEvent v w)
  end.

Definition main (v : Variant) (w : World) (st : State) : Z * State :=
  run_main (main_body v w) st.

End SyncTimed.

(** ** Hosts and records used as concrete inputs *)

Module Examples.

Import ES Notion IO.

(** A process whose local time is UTC, with no fallback date parser. *)
Definition utc : Host :=
  {| LocalTZA := fun _ _ => 0; legacyParse := fun _ => None |}.

(** A process in America/Los_Angeles, with the rules of the year 2024 only:
    daylight time (UTC-7) from 2024-03-10 02:00 local to 2024-11-03 02:00
    local, standard time (UTC-8) otherwise.  A local time that the change
    skips or repeats takes the offset in force before the change. *)
Definition LosAngeles2024 : Host :=
  {| LocalTZA := fun t isUTC =>
       let from := MakeDate (MakeDay 2024 2 10) (if isUTC then 10 * msPerHour else 3 * msPerHour) in
       let to := MakeDate (MakeDay 2024 10 3) (if isUTC then 9 * msPerHour else 2 * msPerHour) in
       if (from <=? t) && (t <? to) then -7 * msPerHour else -8 * msPerHour;
     legacyParse := fun _ => None |}.

Definition text (s : string) : option RichTextProp :=
  Some {| rich_text := [ {| plain_text := s |} ] |}.

Definition selected (s : string) : option SelectProp :=
  Some {| select := Some {| name := s |} |}.

Definition dated (s : option string) (e : option string) : option DateProp :=
  Some {| date := Some {| start := s; end_ := e |} |}.

(** A scheduled event "Picnic" with a description and no location. *)
Definition picnic (start : option string) (nagCount : Z) (lastNagged : option DateProp)
    (lastEdited : Value) : Properties :=
  {| Event_Name := Some {| title := [ {| plain_text := "Picnic" |} ] |};
     Date_Time := dated start None;
     Location := None;
     Description := text "Bring snacks";
     Status := selected "Scheduled";
     Nag_Status := None;
     Nag_Count := Some {| number := Some nagCount |};
     Last_Nagged := lastNagged;
     Asked_Who := None;
     Calendar_ID := None;
     Notes := None;
     Last_edited_time := lastEdited |}.

Definition page (i : string) (p : Properties) : Page := {| id := i; properties := p |}.

(** An approved event with the given date. *)
Definition approved (d : option DateProp) : Properties :=
  {| Event_Name := Some {| title := [ {| plain_text := "Picnic" |} ] |};
     Date_Time := d;
     Location := text "Park";
     Description := text "Bring snacks";
     Status := selected "Approved";
     Nag_Status := None;
     Nag_Count := None;
     Last_Nagged := None;
     Asked_Who := None;
     Calendar_ID := None;
     Notes := None;
     Last_edited_time := VUndefined |}.

Definition runs (l : list string) : option RichTextProp :=
  Some {| rich_text := (fun s => {| plain_text := s |}) <$> l |}.

(** A scheduled event on the morning of 2024-06-01 with the given runs in
    its title and the given location. *)
Definition event_with (name : list string) (loc : option RichTextProp) : Properties :=
  {| Event_Name := Some {| title := (fun s => {| plain_text := s |}) <$> name |};
     Date_Time := dated (Some "2024-06-01T10:00:00") None;
     Location := loc;
     Description := text "Bring snacks";
     Status := selected "Scheduled";
     Nag_Status := None;
     Nag_Count := None;
     Last_Nagged := None;
     Asked_Who := None;
     Calendar_ID := None;
     Notes := None;
     Last_edited_time := VUndefined |}.

Definition cfg : Nag.Config :=
  {| Nag.SLACK_USER_WINTER := Some "U01"; Nag.SLACK_USER_SUMMER := Some "U02";
     Nag.SLACK_USER_RAV := Some "U03" |}.

(** A world in which every call succeeds; the clock starts at [t0] and
    advances by one millisecond per reading. *)
Definition calm (t0 : Z) : World :=
  {| Date_now := fun n => t0 + Z.of_nat n;
     slack_postMessage := fun _ _ => Normal tt;
     notion_databases_query := Normal 100%nat;
     notion_pages_update := fun _ _ => Normal tt;
     calendar_events_insert := fun _ _ => Normal "evt1";
     calendar_acl_insert := fun _ => Normal tt |}.

(** The same, except that Slack rejects every message. *)
Definition slack_down (t0 : Z) : World :=
  {| Date_now := fun n => t0 + Z.of_nat n;
     slack_postMessage := fun _ _ => Throw "channel_not_found";
     notion_databases_query := Normal 100%nat;
     notion_pages_update := fun _ _ => Normal tt;
     calendar_events_insert := fun _ _ => Normal "evt1";
     calendar_acl_insert := fun _ => Normal tt |}.

(** The same, except that Notion answers queries and rejects every update. *)
Definition notion_read_only (t0 : Z) : World :=
  {| Date_now := fun n => t0 + Z.of_nat n;
     slack_postMessage := fun _ _ => Normal tt;
     notion_databases_query := Normal 100%nat;
     notion_pages_update := fun _ _ => Throw "rate_limited";
     calendar_events_insert := fun _ _ => Normal "evt1";
     calendar_acl_insert := fun _ => Normal tt |}.

(** 2024-06-01T00:00:00.000Z. *)
Definition june1 : Z := 1717200000000.

End Examples.

(** ** The words of the specification, as predicates *)

Module Spec.

Import ES Notion IO.

(** What a record holds, read off the record itself: the start and the end
    of its date, the runs of a rich text and of the title, and the nag
    count, which is 0 when the record has none. *)
Definition start_of (p : Properties) : option string :=
  match Date_Time p with
  | Some {| date := Some {| start := s; end_ := _ |} |} => s
  | _ => None
  end.

Definition end_of (p : Properties) : option string :=
  match Date_Time p with
  | Some {| date := Some {| start := _; end_ := e |} |} => e
  | _ => None
  end.

Definition last_nagged_of (p : Properties) : option string :=
  match Last_Nagged p with
  | Some {| date := Some {| start := s; end_ := _ |} |} => s
  | _ => None
  end.

Definition runs_of (o : option RichTextProp) : list string :=
  match o with
  | Some {| rich_text := l |} => map plain_text l
  | None => []
  end.

Definition title_runs (p : Properties) : list string :=
  match Event_Name p with
  | Some {| title := l |} => map plain_text l
  | None => []
  end.

Definition count_of (p : Properties) : Z :=
  match Nag_Count p with
  | Some {| number := Some n |} => n
  | _ => 0
  end.

(** The start value holds a time next to the date: it contains a ['T']. *)
Definition contains_T (s : string) : Prop :=
  exists a b, s = (a ++ "T" ++ b)%string.

Definition time_present (p : Properties) : Prop :=
  exists s, start_of p = Some s /\ contains_T s.

(** The text value of a rich text is the text of its runs, one after the
    other; a non-empty text value exists when it is not the empty string. *)
Definition text_value (o : option RichTextProp) : string :=
  String.concat "" (runs_of o).

Definition text_present (o : option RichTextProp) : Prop :=
  text_value o <> "".

(** [field] is one of time, location and description, and its value is
    absent or empty. *)
Definition missing (p : Properties) (field : string) : Prop :=
  (field = "time" /\ ~ time_present p) \/
  (field = "location" /\ ~ text_present (Location p)) \/
  (field = "description" /\ ~ text_present (Description p)).

(** The same with the first run in the place of the text value: the rich
    text has a first run, and that run is not empty. *)
Definition first_run_present (o : option RichTextProp) : Prop :=
  exists s rest, runs_of o = s :: rest /\ s <> "".

Definition missing_by_first_run (p : Properties) (field : string) : Prop :=
  (field = "time" /\ ~ time_present p) \/
  (field = "location" /\ ~ first_run_present (Location p)) \/
  (field = "description" /\ ~ first_run_present (Description p)).

(** A rich text none of whose runs is empty. *)
Definition no_empty_run (o : option RichTextProp) : Prop :=
  Forall (fun s => s <> "") (runs_of o).

(** What a message shows for the title and for the start: the first run of
    the title, or a fixed text when there is none or it is empty; the start
    value, or a fixed text likewise. *)
Definition title_shown (p : Properties) : string :=
  match title_runs p with
  | s :: _ => if String.eqb s "" then "Untitled Event" else s
  | [] => "Untitled Event"
  end.

Definition start_shown (p : Properties) : string :=
  match start_of p with
  | Some s => if String.eqb s "" then "Unknown date" else s
  | None => "Unknown date"
  end.

(** Whether the scheduler compares a time for the record: always before
    the first nag, and afterwards when the record holds the time of the last
    nag. *)
Definition compares_time (p : Properties) : bool :=
  (count_of p =? 0) ||
  match last_nagged_of p with
  | Some s => negb (String.eqb s "")
  | None => false
  end.

(** The rotation winter, summer, rav, by the count of nags sent so far. *)
Definition person_for (n : Z) : string :=
  if n mod 3 =? 0 then "winter" else if n mod 3 =? 1 then "summer" else "rav".

(** The end of a timed calendar event: the end of the record, or its start
    when the record has no end (or an empty one). *)
Definition end_or_start (p : Properties) : option string :=
  match end_of p with
  | Some e => if String.eqb e "" then start_of p else Some e
  | None => start_of p
  end.

(** The civil calendar: the days of a month, a date that exists, the day
    after it, and the date as [YYYY-MM-DD]. *)
Definition days_in_month (y m : Z) : Z :=
  match m with
  | 2 => if isLeap y then 29 else 28
  | 4 | 6 | 9 | 11 => 30
  | _ => 31
  end.

Definition valid_date (y m d : Z) : Prop :=
  1 <= m <= 12 /\ 1 <= d <= days_in_month y m.

Definition next_day (y m d : Z) : Z * Z * Z :=
  if d <? days_in_month y m then (y, m, d + 1)
  else if m <? 12 then (y, m + 1, 1)
  else (y + 1, 1, 1).

Definition date_string (y m d : Z) : string :=
  (year_string y ++ "-" ++ pad2 m ++ "-" ++ pad2 d)%string.

(** A list of strings in ascending order, as [Array.prototype.sort] without
    a comparator leaves it. *)
Fixpoint insert_sorted (x : string) (l : list string) : list string :=
  match l with
  | [] => [x]
  | y :: l' => if String.leb x y then x :: l else y :: insert_sorted x l'
  end.

Definition sort (l : list string) : list string := foldr insert_sorted [] l.

End Spec.

(** ** What a pass may change in a record *)

Module Inv.

Import Notion.

(** [p'] is [p] except, at most, for the four properties the nagger
    writes. *)
Definition same_but_nag (p p' : Properties) : Prop :=
  Event_Name p' = Event_Name p /\ Date_Time p' = Date_Time p /\
  Location p' = Location p /\ Description p' = Description p /\
  Status p' = Status p /\ Calendar_ID p' = Calendar_ID p /\
  Notes p' = Notes p /\ Last_edited_time p' = Last_edited_time p.

(** [p'] is [p] except, at most, for the three properties the calendar
    syncs write; the status, when it has changed, is "Scheduled". *)
Definition same_but_sync (p p' : Properties) : Prop :=
  Event_Name p' = Event_Name p /\ Date_Time p' = Date_Time p /\
  Location p' = Location p /\ Description p' = Description p /\
  Nag_Status p' = Nag_Status p /\ Nag_Count p' = Nag_Count p /\
  Last_Nagged p' = Last_Nagged p /\ Asked_Who p' = Asked_Who p /\
  Last_edited_time p' = Last_edited_time p /\
  (Status p' = Status p \/ select_name (Status p') = Some "Scheduled").

(** Both stores hold the same pages, related one by one. *)
Definition pagewise (R : Properties -> Properties -> Prop)
    (s s' : gmap string Properties) : Prop :=
  forall i,
    match s !! i, s' !! i with
    | Some p, Some p' => R p p'
    | None, None => True
    | _, _ => False
    end.

(** The computation [m] leaves every page in the store, and related to
    what it was. *)
Definition keeps {A} (R : Properties -> Properties -> Prop) (m : IO.M A) : Prop :=
  forall st, pagewise R (IO.store st) (IO.store (m st).2).

End Inv.

(** * Properties *)

(** ** Helper lemmas on strings *)

Section Strings.

Local Open Scope string_scope.

Lemma startsWith_app (x b : string) : JS.startsWith x (x ++ b) = true.
Proof. induction x as [|c x IH]; simpl; [done|]. by rewrite Ascii.eqb_refl. Qed.

Lemma includes_app_r (x a b : string) :
  JS.includes x b = true -> JS.includes x (a ++ b) = true.
Proof.
  intros Hb. induction a as [|c a IH]; simpl; [done|].
  rewrite IH. apply orb_true_r.
Qed.

Lemma includes_here (x b : string) : JS.includes x (x ++ b) = true.
Proof.
  destruct x; [by destruct b|].
  simpl. by rewrite Ascii.eqb_refl, startsWith_app.
Qed.

Lemma truthy_true (s : string) : JS.truthy s = true <-> s <> "".
Proof.
  unfold JS.truthy. destruct (String.eqb_spec s ""); simpl; split; congruence.
Qed.

Lemma append_assoc (a b c : string) : (a ++ b) ++ c = a ++ b ++ c.
Proof.
  induction a as [|x a IH]; [done|].
  change (String x ((a ++ b) ++ c) = String x (a ++ b ++ c)). by f_equal.
Qed.

End Strings.

(** ** Helper lemmas on time values and traces *)

Section Basics.

Import ES IO.

Lemma TimeClip_in_range (t : Z) :
  Z.abs t <= 8640000000000000 -> TimeClip t = Some t.
Proof. intros Ht. unfold TimeClip. by rewrite (proj2 (Z.leb_le _ _) Ht). Qed.

Lemma sent_app (st st' : State) (l : list Effect) :
  trace st' = (trace st ++ l)%list -> sent st st' = l.
Proof. intros E. unfold sent. rewrite E. apply drop_app_length. Qed.

End Basics.

(** ** The calendar arithmetic of Date *)

(** Runs the binds of the option monad once their argument is known. *)
Ltac run_option := cbv beta iota delta [mbind option_bind].

Section Calendar.

Import ES.

Lemma isLeap_spec (y : Z) :
  isLeap y = true <-> (y mod 4 = 0 /\ y mod 100 <> 0) \/ y mod 400 = 0.
Proof.
  unfold isLeap.
  rewrite orb_true_iff, andb_true_iff, negb_true_iff, !Z.eqb_eq, Z.eqb_neq. tauto.
Qed.

Lemma DayFromYear_succ (y : Z) : DayFromYear (y + 1) = DayFromYear y + DaysInYear y.
Proof.
  unfold DayFromYear, DaysInYear.
  destruct (isLeap y) eqn:E.
  - apply isLeap_spec in E. Z.div_mod_to_equations. lia.
  - assert (~ ((y mod 4 = 0 /\ y mod 100 <> 0) \/ y mod 400 = 0)) as E'
      by (rewrite <- isLeap_spec; congruence).
    Z.div_mod_to_equations. lia.
Qed.

Lemma DayFromYear_mono (y y' : Z) : y <= y' -> DayFromYear y <= DayFromYear y'.
Proof. intros Hy. unfold DayFromYear. Z.div_mod_to_equations. lia. Qed.

Lemma year_down_spec (fuel : nat) (y d : Z) :
  d < DayFromYear (y + 1) ->
  DayFromYear (y - Z.of_nat fuel) <= d ->
  DayFromYear (year_down fuel y d) <= d < DayFromYear (year_down fuel y d + 1).
Proof.
  revert y. induction fuel as [|f IH]; intros y Hup Hlow; simpl year_down.
  - replace (y - Z.of_nat 0) with y in Hlow by lia. lia.
  - destruct (Z.leb_spec (DayFromYear y) d); [lia|].
    apply IH.
    + by replace (y - 1 + 1) with y by lia.
    + by replace (y - 1 - Z.of_nat f) with (y - Z.of_nat (S f)) by lia.
Qed.

Lemma YearFromDay_spec (d : Z) :
  DayFromYear (YearFromDay d) <= d < DayFromYear (YearFromDay d + 1).
Proof.
  unfold YearFromDay. apply year_down_spec.
  - unfold DayFromYear. Z.div_mod_to_equations. lia.
  - unfold DayFromYear. Z.div_mod_to_equations. lia.
Qed.

Lemma YearFromDay_unique (y d : Z) :
  DayFromYear y <= d < DayFromYear (y + 1) -> YearFromDay d = y.
Proof.
  intros Hy. pose proof (YearFromDay_spec d) as Hs.
  destruct (Z.lt_trichotomy (YearFromDay d) y) as [Hlt | [Heq | Hgt]]; [|done|].
  - pose proof (DayFromYear_mono (YearFromDay d + 1) y ltac:(lia)). lia.
  - pose proof (DayFromYear_mono (y + 1) (YearFromDay d) ltac:(lia)). lia.
Qed.

Lemma Day_of_midnight (d : Z) : Day (d * msPerDay) = d.
Proof. unfold Day, msPerDay. by rewrite Z.div_mul. Qed.

Lemma month_in_range (leap dwy : Z) : 0 <= monthOfDayInYear leap dwy <= 11.
Proof.
  unfold monthOfDayInYear.
  repeat match goal with |- context [?a <? ?b] => destruct (a <? b) end; lia.
Qed.

(** [setDate] moves within the month of the date it starts from. *)
Lemma MakeDay_from_time (t k : Z) :
  MakeDay (YearFromTime t) (MonthFromTime t) (DateFromTime t + k) = Day t + k.
Proof.
  unfold MakeDay, DateFromTime, DayWithinYear.
  pose proof (month_in_range (InLeapYear t) (Day t - DayFromYear (YearFromTime t))) as Hm.
  fold (DayWithinYear t) in Hm. fold (MonthFromTime t) in Hm.
  rewrite Z.div_small, Z.mod_small, Z.add_0_r by lia.
  unfold InLeapYear. lia.
Qed.

Lemma month_cases (m : Z) :
  1 <= m <= 12 ->
  m = 1 \/ m = 2 \/ m = 3 \/ m = 4 \/ m = 5 \/ m = 6 \/
  m = 7 \/ m = 8 \/ m = 9 \/ m = 10 \/ m = 11 \/ m = 12.
Proof. lia. Qed.

Ltac each_month H :=
  apply month_cases in H;
  destruct H as [-> | [-> | [-> | [-> | [-> | [-> | [-> | [-> | [-> | [-> | [-> | ->]]]]]]]]]]].

Lemma MakeDay_civil (y m d : Z) :
  1 <= m <= 12 ->
  MakeDay y (m - 1) d = DayFromYear y + monthStart (if isLeap y then 1 else 0) (m - 1) + d - 1.
Proof.
  intros Hm. unfold MakeDay.
  by rewrite Z.div_small, Z.mod_small, Z.add_0_r by lia.
Qed.

(** The day number of a date that exists leads back to that date. *)
Lemma civil_of_MakeDay (y m d : Z) :
  Spec.valid_date y m d ->
  let t := MakeDay y (m - 1) d * msPerDay in
  YearFromTime t = y /\ MonthFromTime t = m - 1 /\ DateFromTime t = d.
Proof.
  intros [Hm Hd] t.
  assert (YearFromTime t = y) as Hy.
  { unfold YearFromTime. subst t. rewrite Day_of_midnight, MakeDay_civil by done.
    apply YearFromDay_unique. rewrite DayFromYear_succ. unfold DaysInYear.
    each_month Hm; unfold Spec.days_in_month in Hd; simpl in *;
      destruct (isLeap y); lia. }
  assert (DayWithinYear t = monthStart (if isLeap y then 1 else 0) (m - 1) + d - 1) as Hw.
  { unfold DayWithinYear. rewrite Hy. subst t.
    rewrite Day_of_midnight, MakeDay_civil by done. lia. }
  assert (InLeapYear t = if isLeap y then 1 else 0) as Hl
    by (unfold InLeapYear; by rewrite Hy).
  assert (MonthFromTime t = m - 1) as Hmo.
  { unfold MonthFromTime. rewrite Hl, Hw. unfold monthOfDayInYear.
    each_month Hm; unfold Spec.days_in_month in Hd; simpl in *;
      destruct (isLeap y);
      repeat match goal with
      | |- context [?a <? ?b] => destruct (Z.ltb_spec a b); try lia
      end. }
  split; [done|]. split; [done|].
  unfold DateFromTime. rewrite Hmo, Hl, Hw. lia.
Qed.

Lemma next_day_valid (y m d : Z) :
  Spec.valid_date y m d ->
  let '(y', m', d') := Spec.next_day y m d in
  Spec.valid_date y' m' d' /\ MakeDay y' (m' - 1) d' = MakeDay y (m - 1) d + 1.
Proof.
  intros [Hm Hd]. unfold Spec.next_day.
  destruct (Z.ltb_spec d (Spec.days_in_month y m)).
  - split; [split; lia|]. rewrite !MakeDay_civil by lia. lia.
  - destruct (Z.ltb_spec m 12).
    + split.
      * split; [lia|]. unfold Spec.days_in_month.
        each_month Hm; simpl; try destruct (isLeap y); lia.
      * rewrite !MakeDay_civil by lia.
        each_month Hm; unfold Spec.days_in_month in *; simpl in *;
          try destruct (isLeap y); lia.
    + assert (m = 12) as -> by lia. split; [split; simpl; lia|].
      rewrite !MakeDay_civil by lia. simpl. rewrite DayFromYear_succ.
      unfold DaysInYear, Spec.days_in_month in *. simpl in *.
      destruct (isLeap y), (isLeap (y + 1)); lia.
Qed.

(** *** Dates as strings *)

Local Open Scope string_scope.

Lemma append_cons (c : ascii) (s r : string) : String c s ++ r = String c (s ++ r).
Proof. reflexivity. Qed.

Lemma append_nil (r : string) : "" ++ r = r.
Proof. reflexivity. Qed.

Lemma digit_cases (n : Z) :
  exists k, 0 <= k <= 9 /\ n mod 10 = k /\ digit n = ascii_of_nat (48 + Z.to_nat k).
Proof.
  exists (n mod 10). pose proof (Z.mod_pos_bound n 10 ltac:(lia)). repeat split; lia.
Qed.

Ltac each_digit n :=
  let k := fresh "k" in
  let Hk := fresh "Hk" in
  let Hmod := fresh "Hmod" in
  let Hdig := fresh "Hdig" in
  destruct (digit_cases n) as (k & Hk & Hmod & Hdig);
  rewrite Hdig;
  assert (k = 0 \/ k = 1 \/ k = 2 \/ k = 3 \/ k = 4 \/ k = 5 \/ k = 6 \/ k = 7 \/ k = 8 \/ k = 9)
    as [-> | [-> | [-> | [-> | [-> | [-> | [-> | [-> | [-> | ->]]]]]]]]] by lia.

Lemma digit_val_digit (n : Z) : digit_val (digit n) = Some (n mod 10).
Proof. each_digit n; rewrite Hmod; reflexivity. Qed.

Lemma digit_not_T (n : Z) : Ascii.eqb "T" (digit n) = false.
Proof. each_digit n; reflexivity. Qed.

Lemma digits2_pad2 (n : Z) (rest : string) :
  0 <= n <= 99 -> digits2 (pad2 n ++ rest) = Some (n, rest).
Proof.
  intros Hn. unfold pad2. rewrite !append_cons, append_nil. unfold digits2.
  rewrite !digit_val_digit. run_option. f_equal. f_equal.
  Z.div_mod_to_equations. lia.
Qed.

Lemma digits4_pad4 (n : Z) (rest : string) :
  0 <= n <= 9999 -> digits4 (pad4 n ++ rest) = Some (n, rest).
Proof.
  intros Hn. unfold pad4, pad3, pad2, digits4, digits2.
  rewrite !append_cons, append_nil.
  repeat (rewrite !digit_val_digit; run_option). f_equal. f_equal.
  replace (n / 1000) with (n / 10 / 10 / 10) by (rewrite !Z.div_div by lia; done).
  replace (n / 100) with (n / 10 / 10) by (rewrite !Z.div_div by lia; done).
  Z.div_mod_to_equations. lia.
Qed.

Lemma year_string_4 (y : Z) : 0 <= y <= 9999 -> year_string y = pad4 y.
Proof.
  intros Hy. unfold year_string.
  by rewrite (proj2 (Z.leb_le 0 y)), (proj2 (Z.leb_le y 9999)) by lia.
Qed.

Lemma parse_date_string (y m d : Z) :
  0 <= y <= 9999 -> 1 <= m <= 12 -> 1 <= d <= 31 ->
  parse_date_part (Spec.date_string y m d) = Some (y, m, d, "").
Proof.
  intros Hy Hm Hd. unfold parse_date_part, Spec.date_string.
  rewrite year_string_4 by done.
  rewrite digits4_pad4 by done. run_option.
  change (expect "-" ("-" ++ pad2 m ++ "-" ++ pad2 d)) with (Some (pad2 m ++ "-" ++ pad2 d)).
  run_option.
  rewrite digits2_pad2 by lia. run_option.
  change (expect "-" ("-" ++ pad2 d)) with (Some (pad2 d)). run_option.
  replace (pad2 d) with (pad2 d ++ "") by (unfold pad2; by rewrite !append_cons, append_nil).
  rewrite digits2_pad2 by lia. run_option.
  by rewrite (proj2 (Z.leb_le 1 m)), (proj2 (Z.leb_le m 12)),
    (proj2 (Z.leb_le 1 d)), (proj2 (Z.leb_le d 31)) by lia.
Qed.

Lemma includes_T_cons (c : ascii) (s : string) :
  JS.includes "T" (String c s) = Ascii.eqb "T" c || JS.includes "T" s.
Proof. simpl. by rewrite andb_true_r. Qed.

Lemma includes_T_app (a b : string) :
  JS.includes "T" (a ++ b) = JS.includes "T" a || JS.includes "T" b.
Proof.
  induction a as [|c a IH]; [by destruct b|].
  rewrite append_cons, !includes_T_cons, IH. apply orb_assoc.
Qed.

Lemma split_head_no_T (s : string) :
  JS.includes "T" s = false -> JS.split_head "T" s = s.
Proof.
  induction s as [|c s IH]; [done|].
  rewrite includes_T_cons, orb_false_iff. intros [Hc Hs]. simpl.
  rewrite Ascii.eqb_sym, Hc. by rewrite IH.
Qed.

Lemma split_head_at_T (a b : string) :
  JS.includes "T" a = false -> JS.split_head "T" (a ++ "T" ++ b) = a.
Proof.
  induction a as [|c a IH]; [done|].
  rewrite includes_T_cons, orb_false_iff. intros [Hc Hs].
  rewrite append_cons. simpl. rewrite Ascii.eqb_sym, Hc. by rewrite IH.
Qed.

Lemma pad2_no_T (n : Z) : JS.includes "T" (pad2 n) = false.
Proof. unfold pad2. by rewrite !includes_T_cons, !digit_not_T. Qed.

Lemma pad4_no_T (n : Z) : JS.includes "T" (pad4 n) = false.
Proof. unfold pad4, pad3, pad2. by rewrite !includes_T_cons, !digit_not_T. Qed.

Lemma year_string_no_T (y : Z) : JS.includes "T" (year_string y) = false.
Proof.
  unfold year_string, pad6. destruct (_ && _); [apply pad4_no_T|].
  rewrite !includes_T_cons, !digit_not_T, pad4_no_T. by destruct (y <? 0)%Z.
Qed.

Lemma date_string_no_T (y m d : Z) : JS.includes "T" (Spec.date_string y m d) = false.
Proof.
  unfold Spec.date_string.
  by rewrite !includes_T_app, year_string_no_T, !pad2_no_T.
Qed.

Lemma iso_date_no_T (t : Z) : JS.includes "T" (iso_date t) = false.
Proof. apply date_string_no_T. Qed.

Lemma date_string_truthy (y m d : Z) : JS.truthy (Spec.date_string y m d) = true.
Proof.
  unfold Spec.date_string, year_string, pad6, pad4.
  destruct (_ && _); reflexivity.
Qed.

(** The day a date string stands for, and the string of a day. *)
Lemma iso_date_civil (y m d : Z) :
  Spec.valid_date y m d ->
  iso_date (MakeDay y (m - 1) d * msPerDay) = Spec.date_string y m d.
Proof.
  intros Hv. destruct (civil_of_MakeDay y m d Hv) as (Hy & Hm & Hd).
  unfold iso_date, Spec.date_string. rewrite Hy, Hm, Hd.
  by replace (m - 1 + 1) with m by lia.
Qed.

Lemma days_in_month_le (y m : Z) : Spec.days_in_month y m <= 31.
Proof.
  unfold Spec.days_in_month.
  repeat match goal with |- context [match ?x with _ => _ end] => destruct x end; lia.
Qed.

Lemma MakeDay_bound (y m d : Z) :
  0 <= y <= 9999 -> 1 <= m <= 12 -> 1 <= d <= 31 ->
  -720000 <= MakeDay y (m - 1) d <= 3000000.
Proof.
  intros Hy Hm Hd. rewrite MakeDay_civil by done.
  assert (0 <= monthStart (if isLeap y then 1 else 0) (m - 1) <= 335)
    by (each_month Hm; simpl; destruct (isLeap y); lia).
  unfold DayFromYear. Z.div_mod_to_equations. lia.
Qed.

Section Parse.
Context `{Host}.

Lemma Date_parse_date_string (y m d : Z) :
  0 <= y <= 9999 -> Spec.valid_date y m d ->
  Date_parse (Spec.date_string y m d) = Some (MakeDay y (m - 1) d * msPerDay).
Proof.
  intros Hy [Hm Hd]. pose proof (days_in_month_le y m) as Hle.
  unfold Date_parse, isoParse. rewrite parse_date_string by lia. run_option.
  unfold MakeDate. rewrite Z.add_0_r, TimeClip_in_range; [done|].
  pose proof (MakeDay_bound y m d Hy Hm ltac:(lia)). unfold msPerDay. lia.
Qed.

(** [d.setDate(d.getDate() + 1)] adds one day to the local time and reads
    the result back with the offset in force there. *)
Lemma setDate_next (t : Z) :
  setDate (Some t) (Z.add 1 <$> getDate (Some t)) =
  TimeClip (LocalTime t + msPerDay - LocalTZA (LocalTime t + msPerDay) false).
Proof.
  unfold setDate, getDate. simpl. f_equal. unfold UTC.
  rewrite (Z.add_comm 1), MakeDay_from_time.
  assert (MakeDate (Day (LocalTime t) + 1) (TimeWithinDay (LocalTime t))
          = LocalTime t + msPerDay) as ->; [|done].
  unfold MakeDate, Day, TimeWithinDay, msPerDay.
  pose proof (Z.div_mod (LocalTime t) 86400000 ltac:(lia)). lia.
Qed.

End Parse.

End Calendar.

(** ** What [toISOString] writes, [Date.parse] reads back *)

Section RoundTrip.

Import ES.
Context `{Host}.
Local Open Scope string_scope.

Lemma DayWithinYear_range (t : Z) :
  (0 <= DayWithinYear t < 365 + InLeapYear t)%Z.
Proof.
  unfold DayWithinYear, InLeapYear, YearFromTime.
  pose proof (YearFromDay_spec (Day t)) as Hs.
  rewrite DayFromYear_succ in Hs. unfold DaysInYear in Hs.
  destruct (isLeap (YearFromDay (Day t))); lia.
Qed.

Lemma DateFromTime_range (t : Z) : (1 <= DateFromTime t <= 31)%Z.
Proof.
  unfold DateFromTime, MonthFromTime, monthOfDayInYear.
  pose proof (DayWithinYear_range t) as Hw.
  assert (InLeapYear t = 0 \/ InLeapYear t = 1)%Z as Hl
    by (unfold InLeapYear; destruct (isLeap _); lia).
  revert Hw. generalize (DayWithinYear t). intros dwy Hw.
  destruct Hl as [Hl | Hl]; rewrite Hl in *;
    repeat match goal with
    | |- context [(?a <? ?b)%Z] => destruct (Z.ltb_spec a b); try (simpl; lia)
    end.
Qed.

Lemma YearFromTime_range (t : Z) :
  (0 <= t < 253402300800000)%Z -> (1970 <= YearFromTime t <= 9999)%Z.
Proof.
  intros Ht. unfold YearFromTime.
  pose proof (YearFromDay_spec (Day t)) as Hs.
  assert (0 <= Day t < 2932897)%Z as Hd
    by (unfold Day, msPerDay; Z.div_mod_to_equations; lia).
  split.
  - destruct (Z.le_gt_cases 1970 (YearFromDay (Day t))) as [|Hlt]; [done|].
    pose proof (DayFromYear_mono (YearFromDay (Day t) + 1) 1970 ltac:(lia)) as Hm.
    change (DayFromYear 1970) with 0%Z in Hm. lia.
  - destruct (Z.le_gt_cases (YearFromDay (Day t)) 9999) as [|Hgt]; [done|].
    pose proof (DayFromYear_mono 10000 (YearFromDay (Day t)) ltac:(lia)) as Hm.
    change (DayFromYear 10000) with 2932897%Z in Hm. lia.
Qed.

Lemma digits3_pad3 (n : Z) (rest : string) :
  (0 <= n <= 999)%Z -> digits3 (pad3 n ++ rest) = Some (n, rest).
Proof.
  intros Hn. unfold pad3, pad2, digits3, digits2.
  rewrite !append_cons, append_nil.
  repeat (rewrite !digit_val_digit; run_option). f_equal. f_equal.
  replace (n / 100)%Z with (n / 10 / 10)%Z by (rewrite !Z.div_div by lia; done).
  Z.div_mod_to_equations. lia.
Qed.

Lemma parse_date_part_rest (y m d : Z) (rest : string) :
  (0 <= y <= 9999)%Z -> (1 <= m <= 12)%Z -> (1 <= d <= 31)%Z ->
  parse_date_part (Spec.date_string y m d ++ rest) = Some (y, m, d, rest).
Proof.
  intros Hy Hm Hd. unfold parse_date_part, Spec.date_string.
  rewrite year_string_4 by done. rewrite !append_assoc.
  rewrite digits4_pad4 by done. run_option.
  change (expect "-" ("-" ++ pad2 m ++ "-" ++ pad2 d ++ rest))
    with (Some (pad2 m ++ "-" ++ pad2 d ++ rest)).
  run_option.
  rewrite digits2_pad2 by lia. run_option.
  change (expect "-" ("-" ++ pad2 d ++ rest)) with (Some (pad2 d ++ rest)). run_option.
  rewrite digits2_pad2 by lia. run_option.
  by rewrite (proj2 (Z.leb_le 1 m)), (proj2 (Z.leb_le m 12)),
    (proj2 (Z.leb_le 1 d)), (proj2 (Z.leb_le d 31)) by lia.
Qed.

Lemma time_fields (t : Z) :
  (0 <= HourFromTime t <= 23 /\ 0 <= MinFromTime t <= 59 /\
   0 <= SecFromTime t <= 59 /\ 0 <= msFromTime t <= 999)%Z /\
  MakeTime (HourFromTime t) (MinFromTime t) (SecFromTime t) (msFromTime t)
    = TimeWithinDay t.
Proof.
  unfold HourFromTime, MinFromTime, SecFromTime, msFromTime, MakeTime, TimeWithinDay,
    msPerHour, msPerMinute, msPerSecond, msPerDay.
  replace (t / 3600000)%Z with (t / 1000 / 60 / 60)%Z by (rewrite !Z.div_div by lia; done).
  replace (t / 60000)%Z with (t / 1000 / 60)%Z by (rewrite !Z.div_div by lia; done).
  assert (t mod 86400000 = t - 86400000 * (t / 1000 / 60 / 60 / 24))%Z as ->.
  { replace (t / 1000 / 60 / 60 / 24)%Z with (t / 86400000)%Z
      by (rewrite !Z.div_div by lia; done).
    pose proof (Z.div_mod t 86400000 ltac:(lia)). lia. }
  Z.div_mod_to_equations. lia.
Qed.

Lemma parse_iso_time (t : Z) :
  parse_time_part (iso_time t) = Some (TimeWithinDay t, "Z").
Proof.
  destruct (time_fields t) as ((Hh & Hm & Hs & Hms) & Htime).
  unfold parse_time_part, iso_time.
  rewrite digits2_pad2 by lia. run_option.
  set (rest1 := pad2 (MinFromTime t) ++ ":" ++ pad2 (SecFromTime t) ++ "." ++
                pad3 (msFromTime t) ++ "Z").
  change (expect ":" (":" ++ rest1)) with (Some rest1). run_option. subst rest1.
  rewrite digits2_pad2 by lia. run_option.
  rewrite (proj2 (Z.leb_le _ 23)), (proj2 (Z.leb_le _ 59)) by lia.
  cbv beta iota delta [andb].
  set (rest2 := pad2 (SecFromTime t) ++ "." ++ pad3 (msFromTime t) ++ "Z").
  change (expect ":" (":" ++ rest2)) with (Some rest2). cbv beta iota. subst rest2.
  rewrite digits2_pad2 by lia. run_option.
  rewrite (proj2 (Z.leb_le _ 59)) by lia.
  set (rest3 := pad3 (msFromTime t) ++ "Z").
  change (expect "." ("." ++ rest3)) with (Some rest3). cbv beta iota. subst rest3.
  rewrite digits3_pad3 by lia. run_option.
  by rewrite Htime.
Qed.

(** The stamp that the scripts write with [new Date().toISOString()] is
    read back by [new Date(stamp)] as the same time. *)
Theorem Date_parse_iso (t : Z) :
  (0 <= t < 253402300800000)%Z -> Date_parse (iso t) = Some t.
Proof.
  intros Ht.
  pose proof (YearFromTime_range t Ht) as Hy.
  pose proof (DateFromTime_range t) as Hd.
  pose proof (month_in_range (InLeapYear t) (DayWithinYear t)) as Hm.
  fold (MonthFromTime t) in Hm.
  unfold Date_parse, isoParse, iso.
  change (iso_date t) with
    (Spec.date_string (YearFromTime t) (MonthFromTime t + 1) (DateFromTime t)).
  rewrite parse_date_part_rest by lia. run_option.
  change ("T" ++ iso_time t) with (String "T" (iso_time t)).
  cbv beta iota. rewrite Ascii.eqb_refl.
  rewrite parse_iso_time. run_option.
  change (parse_zone "Z") with (Some (Some 0%Z)). run_option.
  replace (MonthFromTime t + 1 - 1)%Z with (MonthFromTime t) by lia.
  replace (DateFromTime t) with (DateFromTime t + 0)%Z by lia.
  rewrite MakeDay_from_time.
  assert (MakeDate (Day t + 0) (TimeWithinDay t) - 0 = t)%Z as ->.
  { unfold MakeDate, Day, TimeWithinDay, msPerDay.
    pose proof (Z.div_mod t 86400000 ltac:(lia)). lia. }
  rewrite TimeClip_in_range by lia. done.
Qed.

End RoundTrip.

(** ** The rotation *)

Section Rotation.

Import Nag.

Lemma getNextPerson_cases (n : Z) :
  0 <= n ->
  getNextPerson n =
    Some (if n mod 3 =? 0 then "winter" else if n mod 3 =? 1 then "summer" else "rav").
Proof.
  intros Hn. unfold getNextPerson, JS.remainder, JS.index.
  rewrite Z.rem_mod_nonneg by lia.
  pose proof (Z.mod_pos_bound n 3 ltac:(lia)) as Hb.
  assert (n mod 3 = 0 \/ n mod 3 = 1 \/ n mod 3 = 2) as [-> | [-> | ->]] by lia;
    reflexivity.
Qed.

(** C8. For every nag count [n >= 0] the recipient is the entry of the list
    [winter, summer, rav] at index [n mod 3]; the choice depends on [n mod 3]
    only, so [n] and [n + 3] get the same recipient. *)
Theorem getNextPerson_rotation (n : Z) :
  0 <= n ->
  rotation = ["winter"; "summer"; "rav"] /\
  getNextPerson n = nth_error rotation (Z.to_nat (n mod 3)) /\
  (exists p, getNextPerson n = Some p /\ In p rotation) /\
  (forall m, 0 <= m -> m mod 3 = n mod 3 -> getNextPerson m = getNextPerson n) /\
  getNextPerson (n + 3) = getNextPerson n.
Proof.
  intros Hn.
  assert (forall m, 0 <= m -> m mod 3 = n mod 3 -> getNextPerson m = getNextPerson n) as Hdep.
  { intros m Hm Heq. rewrite !getNextPerson_cases by lia. by rewrite Heq. }
  split; [reflexivity|].
  pose proof (Z.mod_pos_bound n 3 ltac:(lia)) as Hb.
  repeat split.
  - rewrite getNextPerson_cases by lia.
    assert (n mod 3 = 0 \/ n mod 3 = 1 \/ n mod 3 = 2) as [-> | [-> | ->]] by lia;
      reflexivity.
  - rewrite getNextPerson_cases by lia.
    assert (n mod 3 = 0 \/ n mod 3 = 1 \/ n mod 3 = 2) as [-> | [-> | ->]] by lia;
      simpl; eauto 10.
  - exact Hdep.
  - apply Hdep; [lia|].
    replace (n + 3) with (n + 1 * 3) by lia. apply Z_mod_plus_full.
Qed.

Lemma getNextPerson_rotation_witness :
  Nag.getNextPerson 4 = Some "summer" /\ Nag.getNextPerson (4 + 3) = Nag.getNextPerson 4.
Proof.
  destruct (getNextPerson_rotation 4 ltac:(lia)) as (_ & _ & _ & _ & Hper).
  split; [reflexivity | exact Hper].
Defined.

End Rotation.

(** ** The completeness checker *)

Section Completeness.

Import Notion Nag.
Local Open Scope string_scope.

Lemma includes_T_contains (s : string) :
  JS.includes "T" s = true <-> Spec.contains_T s.
Proof.
  split.
  - induction s as [|c s IH]; [done|].
    rewrite includes_T_cons, orb_true_iff. intros [Hc | Hs].
    + apply Ascii.eqb_eq in Hc as <-. by exists "", s.
    + destruct (IH Hs) as (a & b & ->). by exists (String c a), b.
  - intros (a & b & ->).
    rewrite includes_T_app, append_cons, append_nil, includes_T_cons, Ascii.eqb_refl.
    apply orb_true_r.
Qed.

Lemma date_start_of (p : Properties) : date_start (Date_Time p) = Spec.start_of p.
Proof. unfold date_start, Spec.start_of. by destruct (Date_Time p) as [[[[]|]]|]. Qed.

Lemma date_end_of (p : Properties) : date_end (Date_Time p) = Spec.end_of p.
Proof. unfold date_end, Spec.end_of. by destruct (Date_Time p) as [[[[]|]]|]. Qed.

Lemma last_nagged_of_start (p : Properties) :
  date_start (Last_Nagged p) = Spec.last_nagged_of p.
Proof. unfold date_start, Spec.last_nagged_of. by destruct (Last_Nagged p) as [[[[]|]]|]. Qed.

Lemma nagCountOf_count_of (p : Properties) : nagCountOf p = Spec.count_of p.
Proof. unfold nagCountOf, number_of, Spec.count_of. by destruct (Nag_Count p) as [[[]]|]. Qed.

Lemma first_run_of (o : option RichTextProp) :
  o ≫= (fun p => first_plain_text (rich_text p)) = head (Spec.runs_of o).
Proof. by destruct o as [[[|[] ?]]|]. Qed.

Lemma hasTime_present (p : Properties) :
  not_bool (hasTime p) = false <-> Spec.time_present p.
Proof.
  unfold not_bool, hasTime, Spec.time_present. rewrite date_start_of.
  destruct (Spec.start_of p) as [s|]; simpl.
  - rewrite negb_false_iff, includes_T_contains. split; [eauto|].
    by intros (s' & [= <-] & Hs).
  - split; [done|]. by intros (s' & [=] & _).
Qed.

Lemma hasText_first_run (o : option RichTextProp) :
  not_str (o ≫= (fun p => first_plain_text (rich_text p))) = false <->
  Spec.first_run_present o.
Proof.
  rewrite first_run_of. unfold not_str, Spec.first_run_present.
  destruct (Spec.runs_of o) as [|s rest]; simpl.
  - split; [done|]. by intros (s' & rest' & [=] & _).
  - rewrite negb_false_iff, truthy_true. split; [eauto|].
    by intros (s' & rest' & [= <- <-] & Hs).
Qed.

(** On a rich text without empty runs, a first run that is not empty and a
    text value that is not empty are the same thing. *)
Lemma first_run_text (o : option RichTextProp) :
  Spec.no_empty_run o -> (Spec.text_present o <-> Spec.first_run_present o).
Proof.
  unfold Spec.no_empty_run, Spec.text_present, Spec.text_value, Spec.first_run_present.
  destruct (Spec.runs_of o) as [|s rest]; simpl.
  - intros _. split; [done|]. by intros (s' & rest' & [=] & _).
  - intros HF. apply Forall_cons in HF as [Hs _]. split; [eauto|]. intros _.
    destruct s as [|c s]; [done|]. destruct rest; [done|].
    by rewrite append_cons.
Qed.

Lemma absent_iff (b : bool) (P : Prop) : (b = false <-> P) -> (b = true <-> ~ P).
Proof. destruct b; intuition congruence. Qed.

Lemma In_getMissingFields (event : Page) (field : string) :
  In field (getMissingFields event) <->
    (field = "time" /\ not_bool (hasTime (properties event)) = true) \/
    (field = "location" /\ not_str (hasLocation (properties event)) = true) \/
    (field = "description" /\ not_str (hasDescription (properties event)) = true).
Proof.
  unfold getMissingFields.
  destruct (not_bool _), (not_str (hasLocation _)), (not_str (hasDescription _));
    simpl; intuition congruence.
Qed.

Lemma NoDup_getMissingFields (event : Page) : NoDup (getMissingFields event).
Proof.
  unfold getMissingFields.
  destruct (not_bool _), (not_str (hasLocation _)), (not_str (hasDescription _));
    simpl; apply (bool_decide_unpack _); reflexivity.
Qed.

Lemma getMissingFields_by_first_run (event : Page) (field : string) :
  In field (getMissingFields event) <-> Spec.missing_by_first_run (properties event) field.
Proof.
  rewrite In_getMissingFields. unfold Spec.missing_by_first_run.
  rewrite (absent_iff _ _ (hasTime_present (properties event))).
  rewrite (absent_iff _ _ (hasText_first_run (Location (properties event)))).
  rewrite (absent_iff _ _ (hasText_first_run (Description (properties event)))).
  reflexivity.
Qed.

Lemma getMissingFields_in_order (event : Page) :
  sublist (getMissingFields event) ["time"; "location"; "description"].
Proof.
  unfold getMissingFields.
  destruct (not_bool _), (not_str (hasLocation _)), (not_str (hasDescription _));
    simpl; repeat first [apply sublist_nil | apply sublist_skip | apply sublist_cons].
Qed.

(** C7, amended. [getMissingFields] returns exactly those of time, location
    and description that the record lacks, each at most once, where time is
    there when the start value contains ['T'] and a location or description
    is there when the first run of its rich text is not empty; and
    [isMissingInfo] holds exactly when the list is not empty.  For a record
    whose location and description have no empty run this is the text value
    being absent or empty. *)
Theorem getMissingFields_exact (event : Page) :
  (forall field, In field (getMissingFields event) <->
                 Spec.missing_by_first_run (properties event) field) /\
  NoDup (getMissingFields event) /\
  (isMissingInfo event = true <-> getMissingFields event <> []) /\
  (Spec.no_empty_run (Location (properties event)) ->
   Spec.no_empty_run (Description (properties event)) ->
   forall field, In field (getMissingFields event) <-> Spec.missing (properties event) field).
Proof.
  split; [|split; [|split]].
  - apply getMissingFields_by_first_run.
  - apply NoDup_getMissingFields.
  - unfold isMissingInfo, getMissingFields.
    destruct (not_bool _), (not_str (hasLocation _)), (not_str (hasDescription _));
      simpl; split; congruence.
  - intros Hl Hd field. rewrite getMissingFields_by_first_run.
    unfold Spec.missing_by_first_run, Spec.missing.
    by rewrite (first_run_text _ Hl), (first_run_text _ Hd).
Qed.

End Completeness.

(** What the claim C7 says of a text: present when a non-empty text value
    exists.  A location whose rich text has an empty first run and then the
    run "Park" has the text value "Park", and is listed as missing. *)
Lemma missing_with_text_after_empty_run :
  let event := Examples.page "p1"
                 (Examples.event_with ["Picnic"] (Examples.runs [""; "Park"])) in
  Spec.text_value (Notion.Location (Notion.properties event)) = "Park" /\
  Nag.getMissingFields event = ["location"] /\
  ~ Spec.missing (Notion.properties event) "location".
Proof.
  intros event. split; [reflexivity|]. split; [reflexivity|].
  intros [[[=] _] | [[_ Hl] | [[=] _]]]. apply Hl. vm_compute. discriminate.
Qed.

Lemma getMissingFields_exact_witness :
  let event := Examples.page "p1"
                 (Examples.event_with ["Picnic"] (Examples.runs ["Park"])) in
  Spec.no_empty_run (Notion.Location (Notion.properties event)) /\
  Spec.no_empty_run (Notion.Description (Notion.properties event)) /\
  (In "location" (Nag.getMissingFields event) <->
   Spec.missing (Notion.properties event) "location").
Proof.
  intros event.
  assert (Spec.no_empty_run (Notion.Location (Notion.properties event))) as Hl
    by (repeat constructor; discriminate).
  assert (Spec.no_empty_run (Notion.Description (Notion.properties event))) as Hd
    by (repeat constructor; discriminate).
  split; [exact Hl|]. split; [exact Hd|].
  exact (proj2 (proj2 (proj2 (getMissingFields_exact event))) Hl Hd "location").
Defined.

(** ** The nag scheduler *)

Section Scheduler.

Import ES Notion IO Nag.
Context `{Host}.

Lemma shouldNagNow_max (now : Z) (event : Page) :
  5 <= nagCountOf (properties event) ->
  shouldNagNow now event = {| should := false; reason := "max_attempts" |}.
Proof.
  intros Hn. unfold shouldNagNow. by rewrite (proj2 (Z.leb_le _ _) Hn).
Qed.

Lemma shouldNagNow_first (now : Z) (event : Page) :
  nagCountOf (properties event) = 0 ->
  shouldNagNow now event =
    if date_lt (new_Date (Last_edited_time (properties event))) (TimeClip (now - 60 * 60 * 1000))
    then {| should := true; reason := "first_nag" |}
    else {| should := false; reason := "too_soon" |}.
Proof. intros Hn. unfold shouldNagNow. by rewrite Hn. Qed.

Lemma shouldNagNow_later (now : Z) (event : Page) :
  1 <= nagCountOf (properties event) <= 4 ->
  shouldNagNow now event =
    match date_start (Last_Nagged (properties event)) with
    | Some s =>
        if JS.truthy s then
          if date_lt (Date_parse s) (TimeClip (now - 2 * 60 * 60 * 1000))
          then {| should := true; reason := "follow_up" |}
          else {| should := false; reason := "too_soon" |}
        else {| should := true; reason := "unknown_state" |}
    | None => {| should := true; reason := "unknown_state" |}
    end.
Proof.
  intros Hn. unfold shouldNagNow.
  rewrite (proj2 (Z.leb_gt _ _)) by lia.
  by rewrite (proj2 (Z.eqb_neq _ _)) by lia.
Qed.

(** The call reads the clock at most once, takes its verdict from that
    reading, and leaves the store and the trace alone. *)
Lemma callShouldNagNow_run (w : World) (event : Page) (st : State) :
  exists st1,
    callShouldNagNow w event st
      = (Normal (shouldNagNow (Date_now w (ticks st)) event), st1) /\
    store st1 = store st /\ trace st1 = trace st /\
    ticks st1 =
      if 5 <=? Spec.count_of (properties event) then ticks st
      else if Spec.compares_time (properties event) then S (ticks st)
      else ticks st.
Proof.
  unfold callShouldNagNow, shouldNagNow, Spec.compares_time.
  rewrite last_nagged_of_start, nagCountOf_count_of.
  destruct (5 <=? Spec.count_of (properties event)); [by exists st|].
  destruct (Spec.count_of (properties event) =? 0); simpl.
  { unfold bind, now, ret. simpl.
    destruct (date_lt _ _); by eexists. }
  destruct (Spec.last_nagged_of (properties event)) as [s|]; [|by exists st].
  unfold JS.truthy. destruct (String.eqb s ""); simpl; [by exists st|].
  unfold bind, now, ret. simpl.
  destruct (date_lt _ _); by eexists.
Qed.

Lemma gaveUpPatch_apply (p : Properties) :
  apply_patch gaveUpPatch p =
  with_Nag_Status (Some {| select := Some {| name := "Gave Up" |} |}) p.
Proof. reflexivity. Qed.

Lemma gave_up_not_candidate (p : Properties) :
  nag_filter (apply_patch gaveUpPatch p) = false.
Proof. rewrite gaveUpPatch_apply. unfold nag_filter. simpl. apply andb_false_r. Qed.

(** C1. With a nag count of 5 or more the decision is to give up, whatever
    the time stamps and the clock; the loop body then sends one update that
    sets Nag Status to "Gave Up" and no Slack message, and once the store has
    taken the update the record is no longer a candidate. *)
Theorem give_up_at_five (cfg : Config) (w : World) (event : Page) (st : State) :
  5 <= nagCountOf (properties event) ->
  (forall now, decision now event = GiveUp) /\
  let r := nagEvent cfg w event st in
  sent st r.2 = [NotionPagesUpdate (id event) gaveUpPatch] /\
  List.filter is_slack (sent st r.2) = [] /\
  (notion_pages_update w (id event) gaveUpPatch = Normal tt ->
   r.1 = Normal tt /\
   forall p, store st !! id event = Some p ->
     store r.2 !! id event =
       Some (with_Nag_Status (Some {| select := Some {| name := "Gave Up" |} |}) p) /\
     nag_filter (with_Nag_Status (Some {| select := Some {| name := "Gave Up" |} |}) p) = false).
Proof.
  intros Hn.
  split.
  { intros t. unfold decision. by rewrite shouldNagNow_max. }
  unfold nagEvent, bind.
  destruct (callShouldNagNow_run w event st) as (st1 & Hcall & Hs & Ht & _).
  rewrite Hcall, shouldNagNow_max by done. simpl.
  unfold pages_update, bind, emit. simpl. rewrite Ht.
  assert (forall s k, sent st {| store := s;
              trace := (trace st ++ [NotionPagesUpdate (id event) gaveUpPatch])%list;
              ticks := k |}
          = [NotionPagesUpdate (id event) gaveUpPatch]) as Hsent
    by (intros s k; by apply sent_app).
  destruct (notion_pages_update w (id event) gaveUpPatch) as [[]|msg] eqn:E; simpl;
    rewrite Hsent; (split; [done|split; [done|]]).
  - intros _. split; [done|]. intros p Hp. simpl. split.
    + by rewrite Hs, lookup_alter_eq, Hp.
    + apply (gave_up_not_candidate p).
  - discriminate.
Qed.

(** With a nag count of 0 and a last-edited value that [new Date] turns
    into the time [t], the decision is Due (for winter, the first of the
    rotation) exactly when strictly more than one hour has passed since [t],
    and NotDue with reason too_soon otherwise. *)
Lemma first_nag_after_one_hour (now : Z) (event : Page) (t : Z) :
  nagCountOf (properties event) = 0 ->
  new_Date (Last_edited_time (properties event)) = Some t ->
  Z.abs (now - 60 * 60 * 1000) <= 8640000000000000 ->
  (decision now event = Due (Some "winter") <-> now - t > 60 * 60 * 1000) /\
  (decision now event = NotDue "too_soon" <-> now - t <= 60 * 60 * 1000).
Proof.
  intros Hn Ht Hnow. unfold decision.
  rewrite shouldNagNow_first, Ht, TimeClip_in_range, Hn by done.
  simpl date_lt.
  destruct (Z.ltb_spec t (now - 60 * 60 * 1000)); simpl;
    (split; split; intros; try discriminate; try done; lia).
Qed.

(** X18. With the property value object of the Notion API under
    ['Last edited time'], or with nothing there, the first nag never
    becomes due. *)
Lemma first_nag_never_on_property_object (now : Z) (event : Page) :
  legacyParse "[object Object]" = None ->
  nagCountOf (properties event) = 0 ->
(exists s, Last_edited_time (properties event) = VObject s) \/
  Last_edited_time (properties event) = VUndefined ->
  decision now event = NotDue "too_soon".
Proof.
  intros Hl Hn Hv. unfold decision. rewrite shouldNagNow_first by done.
  destruct Hv as [[s ->] | ->]; simpl; [|done].
  unfold Date_parse. simpl. by rewrite Hl.
Qed.

(** C3, amended. With a nag count from 1 to 4: when Last Nagged holds a
    non-empty string that parses to the time [t], the decision is Due exactly
    when strictly more than two hours have passed since [t], and NotDue with
    reason too_soon otherwise; when Last Nagged is unset or empty, the
    decision is Due.  The recipient is the one the rotation gives for the nag
    count. *)
Theorem follow_up_after_two_hours (now : Z) (event : Page) :
  1 <= nagCountOf (properties event) <= 4 ->
  Z.abs (now - 2 * 60 * 60 * 1000) <= 8640000000000000 ->
  let person := getNextPerson (nagCountOf (properties event)) in
  (forall s t,
     date_start (Last_Nagged (properties event)) = Some s -> s <> "" ->
     Date_parse s = Some t ->
     (decision now event = Due person <-> now - t > 2 * 60 * 60 * 1000) /\
     (decision now event = NotDue "too_soon" <-> now - t <= 2 * 60 * 60 * 1000)) /\
  (date_start (Last_Nagged (properties event)) = None \/
   date_start (Last_Nagged (properties event)) = Some "" ->
   decision now event = Due person /\
   reason (shouldNagNow now event) = "unknown_state").
Proof.
  intros Hn Hnow person. split.
  - intros s t Hs Hne Ht. unfold decision.
    rewrite shouldNagNow_later, Hs by done.
    rewrite (proj2 (truthy_true s) Hne), Ht, TimeClip_in_range by done.
    simpl date_lt.
    destruct (Z.ltb_spec t (now - 2 * 60 * 60 * 1000)); simpl;
      (split; split; intros; try discriminate; try done; lia).
  - intros Hs. unfold decision. rewrite shouldNagNow_later by done.
    by destruct Hs as [-> | ->].
Qed.

End Scheduler.

(** C2. A record as the Notion API gives it, with a nag count of 0 and the
    time of its last edit, 2024-06-01T00:00:00.000Z, inside the property
    value object under ['Last edited time'].  Two hours after that edit the
    decision is NotDue with reason too_soon, and so it is at every other
    reading of the clock: [new Date] is handed the object, not the string in
    it, and gives an invalid Date, which is before no time.  Handed the
    string, the same scheduler answers Due for winter. *)
Theorem first_nag_skips_property_object :
  let stamp := "2024-06-01T00:00:00.000Z" in
  let event := Examples.page "p1" (Examples.picnic (Some "2024-06-01") 0 None
                                     (Notion.VObject stamp)) in
  let read := Examples.page "p1" (Examples.picnic (Some "2024-06-01") 0 None
                                    (Notion.VString stamp)) in
  let now := Examples.june1 + 2 * 60 * 60 * 1000 in
  Spec.count_of (Notion.properties event) = 0 /\
  ES.Date_parse (H := Examples.utc) stamp = Some Examples.june1 /\
  now - Examples.june1 >= 60 * 60 * 1000 /\
  Nag.new_Date (H := Examples.utc) (Notion.Last_edited_time (Notion.properties event)) = None /\
  Nag.decision (H := Examples.utc) now event = Nag.NotDue "too_soon" /\
  (forall later, Nag.decision (H := Examples.utc) later event = Nag.NotDue "too_soon") /\
  Nag.decision (H := Examples.utc) now read = Nag.Due (Some "winter").
Proof.
  intros stamp event read now.
  split; [reflexivity|]. split; [by vm_compute|]. split; [by vm_compute|].
  assert (Nag.new_Date (H := Examples.utc) (Notion.Last_edited_time (Notion.properties event))
          = None) as Hd by (by vm_compute).
  split; [exact Hd|].
  assert (forall t, Nag.decision (H := Examples.utc) t event = Nag.NotDue "too_soon") as Hnever.
  { intros t. unfold Nag.decision.
    rewrite (shouldNagNow_first (H := Examples.utc) t event) by reflexivity.
    by rewrite Hd. }
  split; [apply Hnever|]. split; [exact Hnever|]. by vm_compute.
Qed.

(** The thresholds are strict.  A record whose last edit, handed over as a
    string, is exactly one hour old is not yet due. *)
Lemma first_nag_at_one_hour_sharp :
  let event := Examples.page "p1" (Examples.picnic (Some "2024-06-01") 0 None
                                     (Notion.VString "2024-06-01T00:00:00.000Z")) in
  let now := Examples.june1 + 60 * 60 * 1000 in
  Nag.nagCountOf (Notion.properties event) = 0 /\
  Nag.new_Date (H := Examples.utc) (Notion.Last_edited_time (Notion.properties event)) = Some Examples.june1 /\
  now - Examples.june1 >= 60 * 60 * 1000 /\
  Nag.decision (H := Examples.utc) now event = Nag.NotDue "too_soon".
Proof. vm_compute. repeat split; discriminate. Qed.


Lemma give_up_at_five_witness :
  let event := Examples.page "p1" (Examples.picnic (Some "2024-06-01") 5 None Notion.VUndefined) in
  5 <= Nag.nagCountOf (Notion.properties event) /\
  forall now, Nag.decision (H := Examples.utc) now event = Nag.GiveUp.
Proof.
  intros event.
  assert (5 <= Nag.nagCountOf (Notion.properties event)) as Hn by (vm_compute; discriminate).
  split; [exact Hn|].
  exact (proj1 (give_up_at_five (H := Examples.utc) Examples.cfg
                  (Examples.calm Examples.june1) event (IO.initial ∅) Hn)).
Defined.

Lemma first_nag_after_one_hour_witness :
  let event := Examples.page "p1" (Examples.picnic (Some "2024-06-01") 0 None
                                     (Notion.VString "2024-06-01T00:00:00.000Z")) in
  let now := Examples.june1 + 60 * 60 * 1000 + 1 in
  Nag.decision (H := Examples.utc) now event = Nag.Due (Some "winter").
Proof.
  intros event now.
  apply (first_nag_after_one_hour (H := Examples.utc) now event Examples.june1);
    vm_compute; (reflexivity || discriminate).
Defined.

Lemma follow_up_after_two_hours_witness :
  let event := Examples.page "p1"
                 (Examples.picnic (Some "2024-06-01") 4
                    (Examples.dated (Some "2024-06-01T00:00:00.000Z") None) Notion.VUndefined) in
  let now := Examples.june1 + 3 * 60 * 60 * 1000 in
  Nag.decision (H := Examples.utc) now event = Nag.Due (Some "summer").
Proof.
  intros event now.
  apply (proj1 (follow_up_after_two_hours (H := Examples.utc) now event
                  ltac:(vm_compute; split; discriminate) ltac:(vm_compute; discriminate))
               "2024-06-01T00:00:00.000Z" Examples.june1);
    vm_compute; (reflexivity || discriminate).
Defined.

(** The same boundary for a follow-up nag. *)
Lemma follow_up_at_two_hours_sharp :
  let event := Examples.page "p1"
                 (Examples.picnic (Some "2024-06-01") 1
                    (Examples.dated (Some "2024-06-01T00:00:00.000Z") None) Notion.VUndefined) in
  let now := Examples.june1 + 2 * 60 * 60 * 1000 in
  Nag.nagCountOf (Notion.properties event) = 1 /\
  Notion.date_start (Notion.Last_Nagged (Notion.properties event))
    = Some "2024-06-01T00:00:00.000Z" /\
  ES.Date_parse (H := Examples.utc) "2024-06-01T00:00:00.000Z" = Some Examples.june1 /\
  now - Examples.june1 >= 2 * 60 * 60 * 1000 /\
  Nag.decision (H := Examples.utc) now event = Nag.NotDue "too_soon".
Proof. vm_compute. repeat split; discriminate. Qed.

(** ** The nag orchestrator *)

Section Orchestrator.

Import ES Notion IO Nag.
Context `{Host}.

Lemma decision_due (now : Z) (event : Page) (person : option string) :
  decision now event = Due person -> should (shouldNagNow now event) = true.
Proof.
  unfold decision. destruct (should _); [done|].
  by destruct (String.eqb _ _).
Qed.

Lemma nagPatch_apply (person : option string) (n : Z) (stamp : string) (p : Properties) :
  apply_patch (nagPatch person n stamp) p =
  with_Asked_Who (set_text person)
    (with_Nag_Status (Some {| select := Some {| name := "Pending" |} |})
       (with_Nag_Count (Some {| number := Some n |}) p)).
Proof. reflexivity. Qed.

Lemma should_below_five (now : Z) (event : Page) :
  should (shouldNagNow now event) = true -> nagCountOf (properties event) < 5.
Proof.
  unfold shouldNagNow.
  destruct (Z.leb_spec 5 (nagCountOf (properties event))); [done|lia].
Qed.

(** X22. For a record with a nag count [n >= 0] that is due for a nag: when
    Slack accepts the message, the loop body sends, after the message, one
    update of that record whose entries are the nag count [n + 1], the ISO
    string of the time at which the update is made under the key
    ['date:Last Nagged:start'] (a string that parses back to that time), 1
    under ['date:Last Nagged:is_datetime'], the nag status "Pending" and the
    recipient under ['Asked Who'], and nothing else; when Slack rejects the
    message, no update is sent and the store is as before.  In both cases
    the loop goes on.  The recipient is the one of the rotation for [n]. *)
Theorem nag_update_after_send (cfg : Config) (w : World) (event : Page) (st : State) :
  let props := properties event in
  let n := Spec.count_of props in
  let person := Some (Spec.person_for n) in
  let message := buildNagMessage event person in
  let post := SlackPostMessage (USERS cfg person) message in
  let k := if Spec.compares_time props then S (ticks st) else ticks st in
  let update :=
    [ ("Nag Count", PNumber (n + 1));
      ("date:Last Nagged:start", PRawString (iso (Date_now w k)));
      ("date:Last Nagged:is_datetime", PRawNumber 1);
      ("Nag Status", PSelect "Pending");
      ("Asked Who", PRichText person) ] in
  let r := nagEvent cfg w event st in
  0 <= n ->
  should (shouldNagNow (Date_now w (ticks st)) event) = true ->
  (slack_postMessage w (USERS cfg person) message = Normal tt ->
     sent st r.2 = [post; NotionPagesUpdate (id event) update] /\
     (0 <= Date_now w k < 253402300800000 ->
        Date_parse (iso (Date_now w k)) = Some (Date_now w k))) /\
  (forall msg, slack_postMessage w (USERS cfg person) message = Throw msg ->
     sent st r.2 = [post] /\ store r.2 = store st) /\
  r.1 = Normal tt.
Proof.
  intros props n person message post k update r Hn Hdue.
  assert (n < 5) as Hlt.
  { subst n props. rewrite <- nagCountOf_count_of. by apply (should_below_five _ _ Hdue). }
  assert (getNextPerson (nagCountOf props) = person) as Hp.
  { subst props person. rewrite nagCountOf_count_of. by apply getNextPerson_cases. }
  clearbody person.
  subst r. unfold nagEvent, bind.
  destruct (callShouldNagNow_run w event st) as (st1 & Hcall & Hs & Ht & Hk).
  fold props in Hk. fold n in Hk.
  rewrite (proj2 (Z.leb_gt 5 n)) in Hk by lia. fold k in Hk. clearbody k.
  rewrite Hcall, Hdue. simpl. fold props. rewrite Hp, nagCountOf_count_of. fold n.
  unfold try_catch, sendSlackDM, updateNagStatus, bind, emit, lift, now. simpl.
  fold message. rewrite Hs, Ht, Hk.
  destruct (slack_postMessage w (USERS cfg person) message) as [[]|msg] eqn:Es; simpl.
  - unfold pages_update, bind, emit, nagPatch. simpl. fold update.
    destruct (notion_pages_update w (id event) update) as [[]|msg] eqn:Eu; simpl;
      (split; [intros _|split; [discriminate|done]]);
      (split; [apply sent_app; simpl; by rewrite <- app_assoc|apply Date_parse_iso]).
  - split; [discriminate|]. split; [|done].
    intros msg' _. split; [by apply sent_app|done].
Qed.

End Orchestrator.

(** C5. A record with one nag behind it, whose last nag dates from
    2024-06-01T00:00:00.000Z, three hours later: the decision is Due for
    summer, Slack accepts the message and the store accepts the update.  The
    update carries the count 2, the status "Pending", the recipient, and the
    time of the update under the key ['date:Last Nagged:start']; it has no
    entry under ['Last Nagged'], the name under which [shouldNagNow] reads
    the time of the last nag.  In the store the count is 2 and the time of
    the last nag is the old one, not the time of the update, and a moment
    later the record is due again. *)
Theorem nag_update_misses_last_nagged :
  let old := "2024-06-01T00:00:00.000Z" in
  let props := Examples.picnic (Some "2024-06-01") 1 (Examples.dated (Some old) None)
                 (Notion.VObject "2024-05-31T00:00:00.000Z") in
  let event := Examples.page "p1" props in
  let t := Examples.june1 + 3 * 60 * 60 * 1000 in
  let w := Examples.calm t in
  let st := IO.initial (<["p1" := props]> ∅) in
  let r := Nag.nagEvent (H := Examples.utc) Examples.cfg w event st in
  let update :=
    [ ("Nag Count", Notion.PNumber 2);
      ("date:Last Nagged:start", Notion.PRawString "2024-06-01T03:00:00.001Z");
      ("date:Last Nagged:is_datetime", Notion.PRawNumber 1);
      ("Nag Status", Notion.PSelect "Pending");
      ("Asked Who", Notion.PRichText (Some "summer")) ] in
  let stored :=
    Notion.with_Asked_Who (Examples.text "summer")
      (Notion.with_Nag_Status (Examples.selected "Pending")
         (Notion.with_Nag_Count (Some {| Notion.number := Some 2 |}) props)) in
  Nag.decision (H := Examples.utc) t event = Nag.Due (Some "summer") /\
  r.1 = ES.Normal tt /\
  IO.sent st r.2
    = [ IO.SlackPostMessage (Some "U02") (Nag.buildNagMessage event (Some "summer"));
        IO.NotionPagesUpdate "p1" update ] /\
  existsb (fun kv => String.eqb kv.1 "Last Nagged") update = false /\
  IO.store r.2 !! "p1" = Some stored /\
  Spec.count_of stored = 2 /\
  Spec.last_nagged_of stored = Some old /\
  Nag.decision (H := Examples.utc) (t + 2) (Examples.page "p1" stored) = Nag.Due (Some "rav").
Proof. vm_compute. repeat split. Qed.

(** A pass over one due record while Slack rejects every message: the
    message is tried, nothing is written, and the run ends normally. *)
Lemma nag_not_recorded_when_slack_rejects :
  let props := Examples.picnic (Some "2024-06-01") 0 None
                 (Notion.VString "2024-06-01T00:00:00.000Z") in
  let w := Examples.slack_down (Examples.june1 + 2 * 60 * 60 * 1000) in
  let st := IO.initial (<["p1" := props]> ∅) in
  let r := Nag.main (H := Examples.utc) Examples.cfg w st in
  r.1 = 0 /\
  IO.trace r.2
    = [IO.SlackPostMessage (Some "U01")
         (Nag.buildNagMessage (Examples.page "p1" props) (Some "winter"))] /\
  IO.store r.2 = IO.store st.
Proof. vm_compute. repeat split. Qed.

Lemma nag_update_after_send_witness :
  let event := Examples.page "p1"
                 (Examples.picnic (Some "2024-06-01") 1 None
                    (Notion.VObject "2024-06-01T00:00:00.000Z")) in
  let w := Examples.calm (Examples.june1 + 2 * 60 * 60 * 1000) in
  let st := IO.initial (<["p1" := Notion.properties event]> ∅) in
  0 <= Spec.count_of (Notion.properties event) /\
  Nag.should (Nag.shouldNagNow (H := Examples.utc) (IO.Date_now w (IO.ticks st)) event) = true /\
  (Nag.nagEvent (H := Examples.utc) Examples.cfg w event st).1 = ES.Normal tt.
Proof.
  intros event w st.
  assert (0 <= Spec.count_of (Notion.properties event)) as Hn by (vm_compute; discriminate).
  assert (Nag.should (Nag.shouldNagNow (H := Examples.utc) (IO.Date_now w (IO.ticks st)) event)
          = true) as Hdue by (vm_compute; reflexivity).
  split; [exact Hn|]. split; [exact Hdue|].
  apply (nag_update_after_send (H := Examples.utc) Examples.cfg w event st Hn Hdue).
Defined.

(** ** The nag loop as a whole *)

Section NagLoop.

Import ES Notion IO Nag.
Context `{Host}.

(** What one turn of the loop adds to the trace: every Slack message in it
    is the nag for the event of that turn, whose count is below 5. *)
Lemma nagEvent_trace (cfg : Config) (w : World) (event : Page) (st : State) :
  exists l,
    trace (nagEvent cfg w event st).2 = (trace st ++ l)%list /\
    forall c m, In (SlackPostMessage c m) l ->
      nagCountOf (properties event) < 5 /\
      m = buildNagMessage event (getNextPerson (nagCountOf (properties event))).
Proof.
  unfold nagEvent, bind.
  destruct (callShouldNagNow_run w event st) as (st1 & Hcall & _ & Ht & _).
  rewrite Hcall, <- Ht. clear Hcall Ht.
  destruct (should (shouldNagNow (Date_now w (ticks st)) event)) eqn:Es; simpl.
  - apply should_below_five in Es.
    unfold try_catch, sendSlackDM, updateNagStatus, pages_update, bind, emit, lift, now. simpl.
    destruct (slack_postMessage _ _ _) as [[]|msg]; simpl.
    + destruct (notion_pages_update _ _ _) as [[]|msg]; simpl;
        (eexists; split; [by rewrite <- app_assoc|]);
        intros c m [[= <- <-] | [[=] | []]]; done.
    + eexists; split; [done|]. intros c m [[= <- <-] | []]; done.
  - destruct (String.eqb _ _); simpl.
    + unfold pages_update, bind, emit. simpl.
      destruct (notion_pages_update _ _ _) as [[]|msg]; simpl;
        (eexists; split; [done|]); intros c m [[=] | []].
    + exists []. split; [by rewrite app_nil_r|]. intros c m [].
Qed.

(** Over a whole pass, no Slack message is sent for a record whose nag count
    has reached 5. *)
Theorem nag_loop_messages (cfg : Config) (w : World) (events : list Page) (st : State) :
  forall c m, In (SlackPostMessage c m) (sent st (for_of events (nagEvent cfg w) st).2) ->
  exists event, In event events /\ nagCountOf (properties event) < 5 /\
                m = buildNagMessage event (getNextPerson (nagCountOf (properties event))).
Proof.
  assert (forall evs s, exists l,
            trace (for_of evs (nagEvent cfg w) s).2 = (trace s ++ l)%list /\
            forall c m, In (SlackPostMessage c m) l ->
              exists event, In event evs /\ nagCountOf (properties event) < 5 /\
                m = buildNagMessage event (getNextPerson (nagCountOf (properties event))))
    as Hloop.
  { induction evs as [|e evs IH]; intros s.
    - exists []. split; [by rewrite app_nil_r|]. intros c m [].
    - simpl. unfold bind.
      destruct (nagEvent_trace cfg w e s) as (l1 & Ht1 & Hl1).
      destruct (nagEvent cfg w e s) as [[[]|msg] s1]; simpl in *.
      + destruct (IH s1) as (l2 & Ht2 & Hl2).
        exists (l1 ++ l2)%list. split; [by rewrite Ht2, Ht1, app_assoc|].
        intros c m Hin. apply in_app_or in Hin as [Hin | Hin].
        * exists e. split; [by left|]. by apply (Hl1 c m).
        * destruct (Hl2 c m Hin) as (e' & He' & Hrest). exists e'. split; [by right|done].
      + exists l1. split; [done|]. intros c m Hin.
        exists e. split; [by left|]. by apply (Hl1 c m). }
  destruct (Hloop events st) as (l & Ht & Hl).
  by rewrite (sent_app _ _ _ Ht).
Qed.

End NagLoop.

(** ** The nag message *)

Section Message.

Import ES Notion IO Nag.
Local Open Scope string_scope.

Lemma includes_here3 (a b c rest : string) :
  JS.includes (a ++ b ++ c) (a ++ b ++ c ++ rest) = true.
Proof.
  replace (a ++ b ++ c ++ rest) with ((a ++ b ++ c) ++ rest)
    by (by rewrite !append_assoc).
  apply includes_here.
Qed.

Lemma includes_here5 (a b c d e rest : string) :
  JS.includes (a ++ b ++ c ++ d ++ e) (a ++ b ++ c ++ d ++ e ++ rest) = true.
Proof.
  replace (a ++ b ++ c ++ d ++ e ++ rest) with ((a ++ b ++ c ++ d ++ e) ++ rest)
    by (by rewrite !append_assoc).
  apply includes_here.
Qed.

Lemma includes_refl (x : string) : JS.includes x x = true.
Proof.
  destruct x as [|c x]; [done|]. simpl.
  rewrite Ascii.eqb_refl. replace x with (x ++ "") at 2; [by rewrite startsWith_app|].
  clear c. induction x as [|c x IH]; [done|].
  change (String c (x ++ "") = String c x). by f_equal.
Qed.

(** Walks along the pieces of the message until the part looked for starts. *)
Ltac find_part :=
  unfold buildNagMessage;
  repeat first [ apply includes_refl | apply includes_here3 | apply includes_here
               | apply includes_app_r ].

Lemma eventNameOf_shown (p : Properties) : eventNameOf p = Spec.title_shown p.
Proof.
  unfold eventNameOf, Spec.title_shown, Spec.title_runs, JS.or_else, JS.truthy.
  destruct (Event_Name p) as [[[|[s] l]]|]; simpl; [done| |done].
  by destruct (String.eqb s "").
Qed.

Lemma dateStrOf_shown (p : Properties) : dateStrOf p = Spec.start_shown p.
Proof.
  unfold dateStrOf, Spec.start_shown, JS.or_else, JS.truthy. rewrite date_start_of.
  destruct (Spec.start_of p) as [s|]; [|done]. by destruct (String.eqb s "").
Qed.

(** C9, amended. For a record whose nag count is below 2^53 in magnitude,
    the nag message opens with the greeting of its recipient and contains
    the line with the first run of the title (or "Untitled Event" when the
    title has no run or an empty first run) and the start value (or "Unknown
    date" when there is none or it is empty), the missing fields joined by
    ", " in the order time, location, description, and the attempt number,
    nag count plus one, out of 5. *)
Theorem buildNagMessage_contents (event : Page) (person : option string) :
  let props := properties event in
  let message := buildNagMessage event person in
  Z.abs (Spec.count_of props) < 2 ^ 53 ->
  (person = Some "winter" -> JS.startsWith "🌿 Hey Winter!" message = true) /\
  (person = Some "summer" -> JS.startsWith "🌸 Hey Summer!" message = true) /\
  (person = Some "rav" -> JS.startsWith "🍀 Hey Rav!" message = true) /\
  JS.includes (Spec.title_shown props) message = true /\
  JS.includes (Spec.start_shown props) message = true /\
  JS.includes ("📅 **" ++ Spec.title_shown props ++ "** (" ++ Spec.start_shown props ++ ")")
    message = true /\
  (exists fields,
     sublist fields ["time"; "location"; "description"] /\
     (forall field, In field fields <-> Spec.missing_by_first_run props field) /\
     JS.includes ("Missing: " ++ String.concat ", " fields ++ String "010" "") message
       = true) /\
  JS.includes ("(Attempt " ++ pretty (Spec.count_of props + 1) ++ "/5)") message = true.
Proof.
  intros props message _. subst message props.
  split; [intros ->; apply startsWith_app|].
  split; [intros ->; apply startsWith_app|].
  split; [intros ->; apply startsWith_app|].
  unfold buildNagMessage. rewrite eventNameOf_shown, dateStrOf_shown, nagCountOf_count_of.
  unfold JS.number_to_string, JS.join.
  split; [find_part|].
  split; [find_part|].
  split.
  { do 5 apply includes_app_r. apply includes_here5. }
  split; [|find_part].
  exists (getMissingFields event).
  split; [apply getMissingFields_in_order|].
  split; [apply getMissingFields_by_first_run|find_part].
Qed.

End Message.

(** What the claim C9 says of the missing fields and of the title: that the
    message contains the fields as a sorted list, and the title.  A record
    without time and without location gets "time, location", which is not
    the ascending order; a record whose title has the runs "Summer " and
    "Picnic" gets a message with "Summer " and without "Summer Picnic". *)
Lemma nag_message_fields_not_sorted :
  let event := Examples.page "p1" (Examples.picnic (Some "2024-06-01") 0 None Notion.VUndefined) in
  let message := Nag.buildNagMessage event (Some "winter") in
  let styled := Examples.page "p2"
                  (Examples.event_with ["Summer "; "Picnic"] (Examples.runs ["Park"])) in
  Nag.getMissingFields event = ["time"; "location"] /\
  Spec.sort (Nag.getMissingFields event) = ["location"; "time"] /\
  JS.includes (JS.join ", " (Spec.sort (Nag.getMissingFields event))) message = false /\
  JS.includes (JS.join ", " (Nag.getMissingFields event)) message = true /\
  String.concat "" (Spec.title_runs (Notion.properties styled)) = "Summer Picnic" /\
  JS.includes "Summer Picnic" (Nag.buildNagMessage styled (Some "winter")) = false /\
  JS.includes "**Summer ** (" (Nag.buildNagMessage styled (Some "winter")) = true.
Proof. vm_compute. repeat split. Qed.

Lemma buildNagMessage_contents_witness :
  let event := Examples.page "p1" (Examples.picnic (Some "2024-06-01") 0 None Notion.VUndefined) in
  Z.abs (Spec.count_of (Notion.properties event)) < 2 ^ 53 /\
  JS.includes "(Attempt 1/5)" (Nag.buildNagMessage event (Some "winter")) = true.
Proof.
  intros event.
  assert (Z.abs (Spec.count_of (Notion.properties event)) < 2 ^ 53) as Hn
    by (vm_compute; reflexivity).
  split; [exact Hn|].
  exact (proj2 (proj2 (proj2 (proj2 (proj2 (proj2 (proj2
           (buildNagMessage_contents event (Some "winter") Hn)))))))).
Defined.

(** ** The calendar sync: failures of one record *)

Section SyncFailures.

Import ES Notion IO SyncCalendar.
Context `{Host}.

Lemma errorPatch_apply (message : string) (p : Properties) :
  apply_patch (errorPatch message) p =
  with_Notes (set_text (Some ("Error syncing: " ++ message)%string)) p.
Proof. reflexivity. Qed.

Lemma eventBody_missing_start (event : Page) :
  JS.truthy_opt (date_start (Date_Time (properties event))) = false ->
  eventBody event = Throw "Date & Time is required".
Proof.
  unfold eventBody, date_start.
  destruct (Date_Time (properties event)) as [d|]; simpl; [|done].
  destruct (date d) as [v|]; simpl; [|done].
  destruct (start v) as [s|]; simpl; [|done].
  by intros ->.
Qed.

(** A failed [try] block has changed nothing in the store. *)
Lemma trySync_throw (w : World) (event : Page) (st st1 : State) (msg : string) :
  trySync w event st = (Throw msg, st1) ->
  store st1 = store st /\ exists l, trace st1 = (trace st ++ l)%list.
Proof.
  unfold trySync, createCalendarEvent, events_insert, updateNotionEvent, pages_update,
    bind, lift, emit, now. simpl.
  destruct (eventBody event) as [body|m]; simpl.
  - destruct (calendar_events_insert w CALENDAR_ID body) as [cid|m]; simpl.
    + destruct (notion_pages_update _ _ _) as [[]|m]; simpl; [discriminate|].
      intros [= <- <-]. simpl. split; [done|]. rewrite <- app_assoc. eauto.
    + intros [= <- <-]. simpl. eauto.
  - intros [= <- <-]. split; [done|]. exists []. by rewrite app_nil_r.
Qed.

(** C6, amended. A record without a start value makes [createCalendarEvent]
    throw before it calls the calendar, and the only request for it is the
    update that writes the error note.  When the [try] block of a record
    fails at any point, the Status of the record in the store stays as it
    was, and the update that writes the error note is sent; when the store
    accepts that update, the loop goes on with the next record. *)
Theorem sync_failure_keeps_status (w : World) (event : Page) (st : State) :
  let r := syncEvent w event st in
  (JS.truthy_opt (date_start (Date_Time (properties event))) = false ->
     eventBody event = Throw "Date & Time is required" /\
     sent st r.2 = [NotionPagesUpdate (id event) (errorPatch "Date & Time is required")]) /\
  (forall msg st1, trySync w event st = (Throw msg, st1) ->
     (exists l, sent st r.2 = (l ++ [NotionPagesUpdate (id event) (errorPatch msg)])%list) /\
     (forall p, store st !! id event = Some p ->
        exists p', store r.2 !! id event = Some p' /\ Status p' = Status p) /\
     (notion_pages_update w (id event) (errorPatch msg) = Normal tt ->
        r.1 = Normal tt /\
        forall rest, for_of (event :: rest) (syncEvent w) st = for_of rest (syncEvent w) r.2)).
Proof.
  intros r. split.
  - intros Hs. pose proof (eventBody_missing_start event Hs) as Hb.
    split; [done|].
    subst r. unfold syncEvent, try_catch, trySync, createCalendarEvent, bind, lift.
    rewrite Hb. simpl.
    unfold pages_update, bind, emit. simpl.
    destruct (notion_pages_update _ _ _) as [[]|m]; simpl; by apply sent_app.
  - intros msg st1 Hthrow.
    destruct (trySync_throw _ _ _ _ _ Hthrow) as (Hstore & l & Htrace).
    subst r. unfold syncEvent, try_catch. rewrite Hthrow.
    unfold pages_update, bind, emit. simpl.
    destruct (notion_pages_update w (id event) (errorPatch msg)) as [[]|m] eqn:Eu; simpl.
    + split; [exists l; apply sent_app; simpl; by rewrite Htrace, <- app_assoc|].
      split.
      * intros p Hp. rewrite Hstore, lookup_alter_eq, Hp.
        eexists. split; [done|]. by rewrite errorPatch_apply.
      * intros _. split; [done|]. intros rest. simpl. unfold bind, syncEvent, try_catch.
        rewrite Hthrow. unfold pages_update, bind, emit. simpl. by rewrite Eu.
    + split; [exists l; apply sent_app; simpl; by rewrite Htrace, <- app_assoc|].
      split; [|discriminate].
      intros p Hp. rewrite Hstore, Hp. eauto.
Qed.

End SyncFailures.

Lemma sync_failure_keeps_status_witness :
  let event := Examples.page "a" (Examples.approved None) in
  let w := Examples.calm Examples.june1 in
  let st := IO.initial (<["a" := Notion.properties event]> ∅) in
  let r := SyncCalendar.syncEvent (H := Examples.utc) w event st in
  SyncCalendar.eventBody (H := Examples.utc) event = ES.Throw "Date & Time is required" /\
  IO.sent st r.2
    = [IO.NotionPagesUpdate "a" (SyncCalendar.errorPatch "Date & Time is required")].
Proof.
  intros event w st r.
  apply (proj1 (sync_failure_keeps_status (H := Examples.utc) w event st)).
  reflexivity.
Defined.

(** What the claim C6 says of every failure: the loop goes on.  Here the
    first record has no date, the store rejects the error note, and the run
    ends before the second record is looked at. *)
Lemma sync_failure_can_end_the_run :
  let first := Examples.approved None in
  let second := Examples.approved (Examples.dated (Some "2024-06-01") None) in
  let w := Examples.notion_read_only Examples.june1 in
  let st := IO.initial (<["a" := first]> (<["b" := second]> ∅)) in
  let r := SyncCalendar.main (H := Examples.utc) w st in
  SyncCalendar.eventBody (H := Examples.utc) (Examples.page "a" first)
    = ES.Throw "Date & Time is required" /\
  r.1 = 1 /\
  IO.trace r.2 = [IO.NotionPagesUpdate "a" (SyncCalendar.errorPatch "Date & Time is required")] /\
  List.filter IO.is_insert (IO.trace r.2) = [].
Proof. vm_compute. repeat split. Qed.

(** ** The calendar sync: the event that is derived *)

Section Derivation.

Import ES Notion IO SyncCalendar.
Context `{Host}.

Lemma includes_T_truthy (s : string) : JS.includes "T" s = true -> JS.truthy s = true.
Proof. by destruct s. Qed.

Lemma date_start_inv (o : option DateProp) (s : string) :
  date_start o = Some s ->
  exists dp dv, o = Some dp /\ date dp = Some dv /\ start dv = Some s /\
                date_end o = end_ dv.
Proof.
  unfold date_start, date_end.
  destruct o as [dp|]; simpl; [|done].
  destruct (date dp) as [dv|] eqn:E; simpl; [|done].
  intros Hs. exists dp, dv. by rewrite E.
Qed.

(** X19. A start value with a time gives a timed event: start and end are the
    values of the record as they are, the end is the start when the record
    has no end. *)
Lemma eventBody_timed (page : Page) (s : string) :
  let props := properties page in
  date_start (Date_Time props) = Some s ->
  JS.includes "T" s = true ->
  eventBody page =
    Normal {| GCal.summary := titleOf props; GCal.description := descriptionOf props;
              GCal.location := locationOf props;
              GCal.start := timed (Some s);
              GCal.end_ := timed (if JS.truthy_opt (date_end (Date_Time props))
                                  then date_end (Date_Time props) else Some s) |}.
Proof.
  intros props Hs HT.
  destruct (date_start_inv _ _ Hs) as (dp & dv & Hdp & Hdv & Hstart & Hend).
  rewrite Hend. unfold eventBody. fold props. rewrite Hdp. simpl. rewrite Hdv, Hstart.
  by rewrite (includes_T_truthy s HT), HT.
Qed.

(** X20. A start value without a time and an end value give an all-day
    event from the one date to the other. *)
Lemma eventBody_all_day_until (page : Page) (s e : string) :
  let props := properties page in
  date_start (Date_Time props) = Some s ->
  s <> "" -> JS.includes "T" s = false ->
  date_end (Date_Time props) = Some e ->
  e <> "" ->
  eventBody page =
    Normal {| GCal.summary := titleOf props; GCal.description := descriptionOf props;
              GCal.location := locationOf props;
              GCal.start := allDay s;
              GCal.end_ := allDay (JS.split_head "T" e) |} /\
  (JS.includes "T" e = false -> JS.split_head "T" e = e).
Proof.
  intros props Hs Hne HT He Hne'.
  destruct (date_start_inv _ _ Hs) as (dp & dv & Hdp & Hdv & Hstart & Hend).
  split; [|apply split_head_no_T].
  rewrite Hend in He.
  unfold eventBody. fold props. rewrite Hdp. simpl. rewrite Hdv, Hstart.
  rewrite (proj2 (truthy_true s) Hne), HT. simpl.
  rewrite He, (proj2 (truthy_true e) Hne').
  by rewrite (split_head_no_T s HT).
Qed.

Lemma nextDayOf_date_string (y m d : Z) :
  0 <= y <= 9999 -> Spec.valid_date y m d ->
  let t0 := MakeDay y (m - 1) d * msPerDay in
  LocalTZA (LocalTime t0 + msPerDay) false = LocalTZA t0 true ->
  let '(y', m', d') := Spec.next_day y m d in
  nextDayOf (Spec.date_string y m d) = Normal (Spec.date_string y' m' d').
Proof.
  intros Hy Hv t0 Hoff.
  pose proof (next_day_valid y m d Hv) as Hnext.
  destruct (Spec.next_day y m d) as [[y' m'] d'].
  destruct Hnext as [Hv' Hday].
  unfold nextDayOf. rewrite Date_parse_date_string by done. fold t0.
  rewrite setDate_next, Hoff.
  replace (LocalTime t0 + msPerDay - LocalTZA t0 true)
    with (MakeDay y' (m' - 1) d' * msPerDay)
    by (unfold LocalTime; subst t0; rewrite Hday; unfold msPerDay; lia).
  rewrite TimeClip_in_range.
  - simpl. unfold iso. rewrite split_head_at_T by apply iso_date_no_T.
    by rewrite iso_date_civil.
  - destruct Hv as [Hm Hd]. pose proof (days_in_month_le y m).
    pose proof (MakeDay_bound y m d Hy Hm ltac:(lia)).
    rewrite Hday. unfold msPerDay. lia.
Qed.

(** X21. A start date without a time and no end give an all-day event that
    ends on the next day of the calendar, provided local time has the same
    offset from UTC at the start of the day and one local day later. *)
Theorem eventBody_all_day_next (page : Page) (y m d : Z) :
  let props := properties page in
  let t0 := MakeDay y (m - 1) d * msPerDay in
  0 <= y <= 9999 -> Spec.valid_date y m d ->
  date_start (Date_Time props) = Some (Spec.date_string y m d) ->
  JS.truthy_opt (date_end (Date_Time props)) = false ->
  LocalTZA (LocalTime t0 + msPerDay) false = LocalTZA t0 true ->
  let '(y', m', d') := Spec.next_day y m d in
  eventBody page =
    Normal {| GCal.summary := titleOf props; GCal.description := descriptionOf props;
              GCal.location := locationOf props;
              GCal.start := allDay (Spec.date_string y m d);
              GCal.end_ := allDay (Spec.date_string y' m' d') |}.
Proof.
  intros props t0 Hy Hv Hs He Hoff.
  pose proof (nextDayOf_date_string y m d Hy Hv Hoff) as Hnext.
  destruct (Spec.next_day y m d) as [[y' m'] d'].
  destruct (date_start_inv _ _ Hs) as (dp & dv & Hdp & Hdv & Hstart & Hend).
  rewrite Hend in He.
  unfold eventBody. fold props. rewrite Hdp. simpl. rewrite Hdv, Hstart.
  rewrite date_string_truthy, date_string_no_T. simpl.
  rewrite (split_head_no_T _ (date_string_no_T y m d)).
  destruct (end_ dv) as [e|]; simpl in He.
  - rewrite He. by rewrite Hnext.
  - by rewrite Hnext.
Qed.

End Derivation.

Lemma eventBody_all_day_next_witness :
  SyncCalendar.eventBody (H := Examples.utc)
    (Examples.page "p" (Examples.approved (Examples.dated (Some "2024-02-28") None)))
  = ES.Normal {| GCal.summary := "Picnic"; GCal.description := "Bring snacks";
                 GCal.location := "Park";
                 GCal.start := SyncCalendar.allDay "2024-02-28";
                 GCal.end_ := SyncCalendar.allDay "2024-02-29" |}.
Proof.
  apply (eventBody_all_day_next (H := Examples.utc)
           (Examples.page "p" (Examples.approved (Examples.dated (Some "2024-02-28") None)))
           2024 2 28);
    vm_compute; (reflexivity || (repeat split; discriminate)).
Defined.

(** C4, at the day on which daylight time starts.  In a process whose local
    time is that of America/Los_Angeles, the all-day event derived from the
    start date 2024-03-10 without an end date ends on 2024-03-10, not on the
    next day: 24 local hours after the start of the day is 23:00 UTC of the
    same day. *)
Theorem all_day_end_on_dst_change :
  let page := Examples.page "p" (Examples.approved (Examples.dated (Some "2024-03-10") None)) in
  SyncCalendar.eventBody (H := Examples.LosAngeles2024) page
  = ES.Normal {| GCal.summary := "Picnic"; GCal.description := "Bring snacks";
                 GCal.location := "Park";
                 GCal.start := SyncCalendar.allDay "2024-03-10";
                 GCal.end_ := SyncCalendar.allDay "2024-03-10" |} /\
  Spec.next_day 2024 3 10 = (2024, 3, 11) /\
  ES.setDate (H := Examples.LosAngeles2024) (Some 1710028800000)
    (Z.add 1 <$> ES.getDate (H := Examples.LosAngeles2024) (Some 1710028800000))
  = Some (1710028800000 + 23 * ES.msPerHour).
Proof. vm_compute. repeat split. Qed.

(** ** The calendar syncs without the all-day branch *)

Section TimedSync.

Import ES Notion IO SyncTimed.

Lemma end_or_start_of (p : Properties) :
  JS.or_opt (date_end (Date_Time p)) (date_start (Date_Time p)) = Spec.end_or_start p.
Proof.
  rewrite date_end_of, date_start_of.
  unfold JS.or_opt, JS.truthy_opt, JS.truthy, Spec.end_or_start.
  destruct (Spec.end_of p) as [e|]; [|done]. by destruct (String.eqb e "").
Qed.

(** C10. In both older syncs [createCalendarEvent] sends, for every record,
    one insert whose start and end are [dateTime] values in the time zone
    America/Los_Angeles: the start is the start value of the record as it
    is, also when it is a date only or absent, and the end is the end value
    of the record, or its start value when it has no end.  No record is
    written as an all-day event and none is dropped before the insert: the
    insert is the first request of the loop body for every record. *)
Theorem timed_sync_always_inserts (v : Variant) (w : World) (page : Page) (st : State) :
  let props := properties page in
  let body := eventBody page in
  let r := createCalendarEvent v w page st in
  sent st r.2 = [CalendarEventsInsert (calendarId v) body] /\
  r.1 = calendar_events_insert w (calendarId v) body /\
  store r.2 = store st /\
  GCal.start body =
    {| GCal.dateTime := Spec.start_of props; GCal.date := None;
       GCal.timeZone := Some "America/Los_Angeles" |} /\
  GCal.end_ body =
    {| GCal.dateTime := Spec.end_or_start props; GCal.date := None;
       GCal.timeZone := Some "America/Los_Angeles" |} /\
  (exists l, sent st (syncEvent v w page st).2
             = CalendarEventsInsert (calendarId v) body :: l) /\
  calendarId delegated
    = "c_9db0968d06112a987a320dea71da8f2182441f43fc605b714974eb47f6591cbf@group.calendar.google.com" /\
  calendarId primary = "primary".
Proof.
  intros props body r. subst r.
  assert (GCal.start body =
            {| GCal.dateTime := Spec.start_of props; GCal.date := None;
               GCal.timeZone := Some "America/Los_Angeles" |}) as Hstart
    by (subst body props; unfold eventBody; simpl; by rewrite date_start_of).
  assert (GCal.end_ body =
            {| GCal.dateTime := Spec.end_or_start props; GCal.date := None;
               GCal.timeZone := Some "America/Los_Angeles" |}) as Hend
    by (subst body props; unfold eventBody; simpl; by rewrite end_or_start_of).
  unfold syncEvent, try_catch, updateNotionEvent, createCalendarEvent,
    SyncCalendar.events_insert, pages_update, bind, emit, lift, now. simpl.
  fold body.
  split; [by apply sent_app|]. do 2 (split; [done|]).
  split; [exact Hstart|]. split; [exact Hend|]. split; [|done].
  destruct (calendar_events_insert w (calendarId v) body) as [cid|msg]; simpl.
  - destruct (notion_pages_update w (id page) _) as [[]|msg]; simpl.
    + eexists. apply sent_app. simpl. by rewrite <- app_assoc.
    + destruct (notion_pages_update w (id page) _) as [[]|msg']; simpl;
        eexists; apply sent_app; simpl; by rewrite <- !app_assoc.
  - destruct (notion_pages_update w (id page) _) as [[]|msg']; simpl;
      eexists; apply sent_app; simpl; by rewrite <- !app_assoc.
Qed.

End TimedSync.

(** * Further properties of the scripts *)

(** ** The nagger: which records a pass looks at *)

Section NagQuery.

Import ES Notion IO Nag.

Lemma select_equals_name (o : option SelectProp) (v : string) :
  select_equals o v = true <-> select_name o = Some v.
Proof.
  unfold select_equals. destruct (select_name o) as [n|]; [|done].
  destruct (String.eqb_spec n v); split; congruence.
Qed.

Lemma select_is_empty_name (o : option SelectProp) :
  select_is_empty o = true <-> select_name o = None.
Proof. unfold select_is_empty. by destruct (select_name o). Qed.

Lemma nag_filter_spec (p : Properties) :
  nag_filter p = true <->
  select_name (Status p) = Some "Scheduled" /\
  (select_name (Nag_Status p) = None \/ select_name (Nag_Status p) = Some "Pending").
Proof.
  unfold nag_filter.
  by rewrite andb_true_iff, orb_true_iff, !select_equals_name, select_is_empty_name.
Qed.

(** The pages a query returns: stored pages that pass the filter, each
    once, no more than a page of results holds; all of them when they fit
    in a page. *)
Lemma databases_query_results (w : World) (filter : Properties -> bool) (st : State)
    (k : nat) :
  notion_databases_query w = Normal k ->
  exists results,
    databases_query w filter st = (Normal results, st) /\
    NoDup (id <$> results) /\
    (length results <= k)%nat /\
    (length results
       <= length (List.filter (fun kv => filter kv.2) (map_to_list (store st))))%nat /\
    (forall e, In e results ->
       store st !! id e = Some (properties e) /\ filter (properties e) = true) /\
    ((length (List.filter (fun kv => filter kv.2) (map_to_list (store st))) <= k)%nat ->
     forall e, store st !! id e = Some (properties e) -> filter (properties e) = true ->
       In e results).
Proof.
  intros Hq. unfold databases_query. rewrite Hq.
  set (mk := fun kv : string * Properties => {| id := kv.1; properties := kv.2 |}).
  set (kept := List.filter (fun kv : string * Properties => filter kv.2)
                 (map_to_list (store st))).
  assert (forall kv, In kv kept <-> store st !! kv.1 = Some kv.2 /\ filter kv.2 = true)
    as Hkept.
  { intros [i p]. subst kept. rewrite filter_In, <- list_elem_of_In, elem_of_map_to_list.
    done. }
  exists (mk <$> take k kept). split; [done|]. split; [|split; [|split; [|split]]].
  - rewrite <- list_fmap_compose.
    assert (forall l : list (string * Properties), (id ∘ mk) <$> l = l.*1) as ->
      by (intros l; induction l as [|[] l IH]; [done|]; simpl; by f_equal).
    rewrite fmap_take. apply (sublist_NoDup _ (kept.*1)); [|apply sublist_take].
    clear Hkept. subst kept. pose proof (NoDup_fst_map_to_list (store st)) as Hnd.
    induction (map_to_list (store st)) as [|kv l IH]; simpl; [constructor|].
    apply NoDup_cons in Hnd as [Hkv Hnd].
    destruct (filter kv.2); simpl; [|by apply IH].
    apply NoDup_cons. split; [|by apply IH].
    intros Hin. apply Hkv.
    apply list_elem_of_fmap in Hin as (kv' & -> & Hin).
    apply list_elem_of_fmap. exists kv'. split; [done|].
    apply list_elem_of_In in Hin. apply filter_In in Hin as [Hin _].
    by apply list_elem_of_In.
  - rewrite length_fmap, length_take. lia.
  - rewrite length_fmap, length_take. lia.
  - intros e. rewrite <- list_elem_of_In, list_elem_of_fmap.
    intros ([i p] & -> & Hin). apply subseteq_take, list_elem_of_In in Hin.
    by apply (Hkept (i, p)).
  - intros Hfit e Hl Hf. rewrite take_ge by done.
    apply list_elem_of_In, list_elem_of_fmap.
    exists (id e, properties e). split; [by destruct e|].
    apply list_elem_of_In. by apply (Hkept (id e, properties e)).
Qed.

Lemma isMissingInfo_lists (e : Page) :
  isMissingInfo e = true <-> getMissingFields e <> [].
Proof.
  unfold isMissingInfo, getMissingFields.
  destruct (not_bool _), (not_str (hasLocation _)), (not_str (hasDescription _));
    simpl; split; congruence.
Qed.

Lemma NoDup_ids_filter (f : Page -> bool) (l : list Page) :
  NoDup (id <$> l) -> NoDup (id <$> List.filter f l).
Proof.
  intros Hnd. induction l as [|e l IH]; simpl; [constructor|].
  simpl in Hnd. apply NoDup_cons in Hnd as [He Hnd].
  destruct (f e); simpl; [|by apply IH].
  apply NoDup_cons. split; [|by apply IH].
  intros Hin. apply He.
  apply list_elem_of_fmap in Hin as (e' & -> & Hin).
  apply list_elem_of_fmap. exists e'. split; [done|].
  apply list_elem_of_In in Hin. apply filter_In in Hin as [Hin _].
  by apply list_elem_of_In.
Qed.

(** X1. When the query succeeds, [queryEventsNeedingNag] returns stored
    pages only, each at most once and no more than the page of results
    holds; each has the Status "Scheduled", a Nag Status that is empty or
    "Pending", and lacks at least one of time, location and description.
    When the stored pages with that Status and Nag Status fit in the page of
    results, every such page that lacks a field is returned.  The store is
    not touched. *)
Theorem queryEventsNeedingNag_exact (w : World) (st : State) (k : nat) :
  notion_databases_query w = Normal k ->
  let candidate (e : Page) :=
    store st !! id e = Some (properties e) /\
    select_name (Status (properties e)) = Some "Scheduled" /\
    (select_name (Nag_Status (properties e)) = None \/
     select_name (Nag_Status (properties e)) = Some "Pending") /\
    getMissingFields e <> [] in
  exists events,
    queryEventsNeedingNag w st = (Normal events, st) /\
    NoDup (id <$> events) /\
    (length events <= k)%nat /\
    (forall e, In e events -> candidate e) /\
    ((length (List.filter (fun kv => nag_filter kv.2) (map_to_list (store st))) <= k)%nat ->
     forall e, candidate e -> In e events).
Proof.
  intros Hq candidate.
  destruct (databases_query_results w nag_filter st k Hq)
    as (results & Hr & Hnd & Hk & _ & Hin & Hall).
  exists (List.filter isMissingInfo results).
  unfold queryEventsNeedingNag, bind, ret. rewrite Hr.
  split; [done|]. split; [by apply NoDup_ids_filter|]. split; [|split].
  - pose proof (filter_length_le isMissingInfo results). lia.
  - intros e. rewrite filter_In. intros [He Hm]. destruct (Hin e He) as [Hl Hf].
    apply nag_filter_spec in Hf. apply isMissingInfo_lists in Hm.
    subst candidate. simpl. tauto.
  - intros Hfit e (Hl & Hs & Hn & Hm). apply filter_In. split.
    + apply (Hall Hfit e Hl). by apply nag_filter_spec.
    + by apply isMissingInfo_lists.
Qed.

End NagQuery.

Lemma queryEventsNeedingNag_exact_witness :
  let props := Examples.picnic (Some "2024-06-01") 0 None Notion.VUndefined in
  let st := IO.initial (<["p1" := props]> ∅) in
  exists events,
    Nag.queryEventsNeedingNag (Examples.calm Examples.june1) st = (ES.Normal events, st) /\
    In (Examples.page "p1" props) events.
Proof.
  intros props st.
  destruct (queryEventsNeedingNag_exact (Examples.calm Examples.june1) st 100 eq_refl)
    as (events & Hq & _ & _ & _ & Hin).
  exists events. split; [exact Hq|].
  apply Hin; [vm_compute; lia|].
  vm_compute. repeat split; (reflexivity || (left; reflexivity) || discriminate).
Defined.

(** ** The nagger: edge cases of the schedule *)

Section NagEdges.

Import ES Notion IO Nag.
Context `{Host}.

(** X2. With a nag count from 1 to 4 and a Last Nagged string that
    [new Date] cannot read, the record is never due, whatever the clock. *)
Theorem follow_up_never_due_on_unreadable_stamp (now : Z) (event : Page) (s : string) :
  1 <= nagCountOf (properties event) <= 4 ->
  date_start (Last_Nagged (properties event)) = Some s ->
  s <> "" ->
  Date_parse s = None ->
  decision now event = NotDue "too_soon".
Proof.
  intros Hn Hs Hne Hp. unfold decision.
  rewrite shouldNagNow_later, Hs, (proj2 (truthy_true s) Hne), Hp by done.
  reflexivity.
Qed.

(** X3. For a negative nag count the rotation has no entry unless the
    count is a multiple of 3: the recipient is [undefined], no Slack user id
    is found for it, and the message opens with the greeting for Rav. *)
Theorem getNextPerson_negative (cfg : Config) (n : Z) :
  n < 0 ->
  getNextPerson n = (if n mod 3 =? 0 then Some "winter" else None) /\
  (n mod 3 <> 0 ->
   USERS cfg (getNextPerson n) = None /\
   greeting (getNextPerson n) = "🍀 Hey Rav!").
Proof.
  intros Hn.
  assert (getNextPerson n = if n mod 3 =? 0 then Some "winter" else None) as Hg.
  { unfold getNextPerson, JS.remainder, JS.index.
    pose proof (Z.rem_nonpos n 3 ltac:(lia) ltac:(lia)) as Hr.
    pose proof (Z.rem_mod_eq_0 n 3 ltac:(lia)) as Hz.
    destruct (Z.eqb_spec (n mod 3) 0) as [E|E].
    - rewrite (proj2 Hz E). reflexivity.
    - assert (Z.rem n 3 < 0) as Hlt by (destruct (Z.eq_dec (Z.rem n 3) 0); [tauto|lia]).
      by rewrite (proj2 (Z.ltb_lt _ _) Hlt). }
  split; [done|]. intros Hne. rewrite Hg.
  by rewrite (proj2 (Z.eqb_neq _ _) Hne).
Qed.

(** X4. The time of a nag, written the way [updateNagStatus] writes it,
    is read back by [shouldNagNow] as the same time: a record with a count
    from 1 to 4 that holds the string [new Date(t).toISOString()] as the
    time of its last nag is due again exactly when strictly more than two
    hours have passed since [t], and then for the person of the rotation. *)
Theorem recorded_nag_backs_off (event : Page) (t now : Z) :
  let n := Spec.count_of (properties event) in
  1 <= n <= 4 ->
  Spec.last_nagged_of (properties event) = Some (iso t) ->
  0 <= t < 253402300800000 ->
  Z.abs (now - 2 * 60 * 60 * 1000) <= 8640000000000000 ->
  toISOString (Some t) = Normal (iso t) /\
  (decision now event = NotDue "too_soon" <-> now - t <= 2 * 60 * 60 * 1000) /\
  (decision now event = Due (Some (Spec.person_for n)) <-> now - t > 2 * 60 * 60 * 1000).
Proof.
  intros n Hn Hs Ht Hnow.
  split; [reflexivity|].
  assert (JS.truthy (iso t) = true) as Htruthy
    by (unfold iso, iso_date, year_string, pad6, pad4; by destruct (_ && _)).
  unfold decision. rewrite nagCountOf_count_of. fold n.
  rewrite getNextPerson_cases by lia. fold (Spec.person_for n).
  rewrite shouldNagNow_later by (rewrite nagCountOf_count_of; done).
  rewrite last_nagged_of_start, Hs.
  rewrite Htruthy, Date_parse_iso, TimeClip_in_range by done.
  simpl date_lt.
  destruct (Z.ltb_spec t (now - 2 * 60 * 60 * 1000)); simpl;
    (split; split; intros; try discriminate; try done; lia).
Qed.

(** X5. The loop body of the nagger lets an exception out in one case
    only: the count has reached 5 and the store rejects the update that sets
    "Gave Up".  A Slack failure and a rejected nag update stay inside. *)
Theorem nagEvent_throws_only_on_give_up (cfg : Config) (w : World) (event : Page)
    (st : State) (msg : string) :
  (nagEvent cfg w event st).1 = Throw msg <->
  5 <= nagCountOf (properties event) /\
  notion_pages_update w (id event) gaveUpPatch = Throw msg.
Proof.
  unfold nagEvent, bind.
  destruct (callShouldNagNow_run w event st) as (st1 & Hcall & _ & _ & _).
  rewrite Hcall. clear Hcall.
  destruct (Z.le_gt_cases 5 (nagCountOf (properties event))) as [Hn|Hn].
  - rewrite shouldNagNow_max by done. simpl.
    unfold pages_update, bind, emit. simpl.
    destruct (notion_pages_update w (id event) gaveUpPatch) as [[]|m]; simpl.
    + split; [discriminate|]. by intros [_ ?].
    + split; [by intros [= ->]|]. by intros [_ [= ->]].
  - split; [|lia]. intros Hthrow. exfalso. revert Hthrow.
    destruct (should (shouldNagNow (Date_now w (ticks st)) event)) eqn:Es; simpl.
    + unfold try_catch, sendSlackDM, updateNagStatus, pages_update, bind, emit, lift, now.
      simpl.
      destruct (slack_postMessage _ _ _) as [[]|m]; simpl; [|discriminate].
      destruct (notion_pages_update _ _ _) as [[]|m]; simpl; discriminate.
    + destruct (String.eqb _ _) eqn:Er; simpl; [|discriminate].
      exfalso. revert Es Er. unfold shouldNagNow.
      rewrite (proj2 (Z.leb_gt _ _)) by lia.
      destruct (_ =? 0).
      * destruct (date_lt _ _); simpl; discriminate.
      * destruct (date_start _) as [s|]; [|discriminate].
        destruct (JS.truthy s); [|discriminate].
        destruct (date_lt _ _); simpl; discriminate.
Qed.

End NagEdges.

Lemma follow_up_never_due_on_unreadable_stamp_witness :
  let event := Examples.page "p1"
                 (Examples.picnic (Some "2024-06-01") 2
                    (Examples.dated (Some "last Tuesday") None) Notion.VUndefined) in
  Nag.decision (H := Examples.utc) (Examples.june1 + 100 * ES.msPerDay) event
  = Nag.NotDue "too_soon".
Proof.
  intros event.
  apply (follow_up_never_due_on_unreadable_stamp (H := Examples.utc) _ event "last Tuesday");
    vm_compute; (reflexivity || discriminate || (split; discriminate)).
Defined.

Lemma getNextPerson_negative_witness :
  Nag.getNextPerson (-1) = None /\ Nag.getNextPerson (-3) = Some "winter".
Proof.
  split.
  - exact (proj1 (getNextPerson_negative Examples.cfg (-1) ltac:(lia))).
  - exact (proj1 (getNextPerson_negative Examples.cfg (-3) ltac:(lia))).
Defined.

Lemma recorded_nag_backs_off_witness :
  let event := Examples.page "p1"
                 (Examples.picnic (Some "2024-06-01") 1
                    (Examples.dated (Some (ES.iso Examples.june1)) None)
                    Notion.VUndefined) in
  Nag.decision (H := Examples.utc) (Examples.june1 + 60 * 60 * 1000) event
  = Nag.NotDue "too_soon".
Proof.
  intros event.
  apply (proj1 (proj2 (recorded_nag_backs_off (H := Examples.utc) event
                  Examples.june1 (Examples.june1 + 60 * 60 * 1000)
                  ltac:(vm_compute; split; discriminate)
                  ltac:(reflexivity)
                  ltac:(vm_compute; split; [discriminate|reflexivity])
                  ltac:(vm_compute; discriminate))));
    vm_compute; discriminate.
Defined.

Lemma first_nag_never_on_property_object_witness :
  let event := Examples.page "p1"
                 (Examples.picnic (Some "2024-06-01") 0 None
                    (Notion.VObject "2024-06-01T00:00:00.000Z")) in
  Nag.decision (H := Examples.utc) (Examples.june1 + 100 * ES.msPerDay) event
  = Nag.NotDue "too_soon".
Proof.
  intros event.
  apply (first_nag_never_on_property_object (H := Examples.utc)); [reflexivity|reflexivity|].
  left. by eexists.
Defined.

(** ** What a pass leaves alone *)

Section Kept.

Import ES Notion IO Inv.

Variable R : Properties -> Properties -> Prop.
Hypothesis R_refl : forall p, R p p.
Hypothesis R_trans : forall p q r, R p q -> R q r -> R p r.

Lemma pagewise_refl (s : gmap string Properties) : pagewise R s s.
Proof using R_refl. intros i. by destruct (s !! i). Qed.

Lemma pagewise_trans (s1 s2 s3 : gmap string Properties) :
  pagewise R s1 s2 -> pagewise R s2 s3 -> pagewise R s1 s3.
Proof using R_trans.
  intros H12 H23 i. specialize (H12 i). specialize (H23 i).
  destruct (s1 !! i), (s2 !! i), (s3 !! i); try done. by eapply R_trans.
Qed.

Lemma keeps_ret {A} (a : A) : keeps R (ret a).
Proof using R_refl. intros st. apply pagewise_refl. Qed.

Lemma keeps_throw {A} (msg : string) : keeps R (throw (A := A) msg).
Proof using R_refl. intros st. apply pagewise_refl. Qed.

Lemma keeps_lift {A} (c : Completion A) : keeps R (lift c).
Proof using R_refl. intros st. apply pagewise_refl. Qed.

Lemma keeps_emit (e : Effect) : keeps R (emit e).
Proof using R_refl. intros st. apply pagewise_refl. Qed.

Lemma keeps_now (w : World) : keeps R (now w).
Proof using R_refl. intros st. apply pagewise_refl. Qed.

Lemma keeps_bind {A B} (m : M A) (k : A -> M B) :
  keeps R m -> (forall a, keeps R (k a)) -> keeps R (bind m k).
Proof using R_refl R_trans.
  intros Hm Hk st. unfold bind. specialize (Hm st).
  destruct (m st) as [[a|msg] st1]; simpl in *; [|done].
  eapply pagewise_trans; [done|]. apply Hk.
Qed.

Lemma keeps_try_catch {A} (m : M A) (handler : string -> M A) :
  keeps R m -> (forall msg, keeps R (handler msg)) -> keeps R (try_catch m handler).
Proof using R_refl R_trans.
  intros Hm Hh st. unfold try_catch. specialize (Hm st).
  destruct (m st) as [[a|msg] st1]; simpl in *; [done|].
  eapply pagewise_trans; [done|]. apply Hh.
Qed.

Lemma keeps_for_of {A} (l : list A) (body : A -> M unit) :
  (forall x, keeps R (body x)) -> keeps R (for_of l body).
Proof using R_refl R_trans.
  intros Hb. induction l as [|x l IH]; simpl; [apply keeps_ret|].
  apply keeps_bind; [apply Hb|done].
Qed.

Lemma keeps_databases_query (w : World) (filter : Properties -> bool) :
  keeps R (databases_query w filter).
Proof using R_refl.
  intros st. unfold databases_query.
  destruct (notion_databases_query w); simpl; apply pagewise_refl.
Qed.

Lemma keeps_pages_update (w : World) (page_id : string) (patch : Patch) :
  (forall p, R p (apply_patch patch p)) -> keeps R (pages_update w page_id patch).
Proof using R_refl.
  intros Hp st. unfold pages_update, bind, emit. simpl.
  destruct (notion_pages_update w page_id patch); simpl; [|apply pagewise_refl].
  intros i. destruct (decide (page_id = i)) as [->|Hne].
  - rewrite lookup_alter_eq. destruct (store st !! i); simpl; [apply Hp|done].
  - rewrite lookup_alter_ne by done. by destruct (store st !! i).
Qed.

Lemma keeps_run_main (body : M unit) :
  keeps R body -> forall st, pagewise R (store st) (store (run_main body st).2).
Proof.
  intros Hb st. unfold run_main. specialize (Hb st).
  by destruct (body st) as [[[]|msg] st1].
Qed.

End Kept.

Section KeptByScripts.

Import ES Notion IO Inv.
Context `{Host}.

Lemma same_but_nag_refl (p : Properties) : same_but_nag p p.
Proof. by repeat split. Qed.

Lemma same_but_nag_trans (p q r : Properties) :
  same_but_nag p q -> same_but_nag q r -> same_but_nag p r.
Proof. unfold same_but_nag. intuition congruence. Qed.

Lemma same_but_sync_refl (p : Properties) : same_but_sync p p.
Proof. unfold same_but_sync. repeat split. by left. Qed.

Lemma same_but_sync_trans (p q r : Properties) :
  same_but_sync p q -> same_but_sync q r -> same_but_sync p r.
Proof.
  unfold same_but_sync.
  intros (?&?&?&?&?&?&?&?&?&Hs1) (?&?&?&?&?&?&?&?&?&Hs2).
  repeat split; try congruence.
  destruct Hs2 as [Hs2|Hs2]; [|by right].
  destruct Hs1 as [Hs1|Hs1]; [left; congruence|right; by rewrite Hs2].
Qed.

Lemma keeps_callShouldNagNow (w : World) (event : Page) :
  keeps same_but_nag (Nag.callShouldNagNow w event).
Proof.
  intros st. destruct (callShouldNagNow_run w event st) as (st1 & Hc & Hs & _).
  rewrite Hc. simpl. rewrite Hs. apply pagewise_refl, same_but_nag_refl.
Qed.

Lemma keeps_nagEvent (cfg : Nag.Config) (w : World) (event : Page) :
  keeps same_but_nag (Nag.nagEvent cfg w event).
Proof.
  pose proof same_but_nag_refl as Hr. pose proof same_but_nag_trans as Ht.
  unfold Nag.nagEvent.
  apply keeps_bind; [done|done|apply keeps_callShouldNagNow|]. intros t.
  destruct (negb _).
  - destruct (String.eqb _ _); [|by apply keeps_ret].
    apply keeps_pages_update; [done|]. intros p. by repeat split.
  - apply keeps_try_catch; [done|done| |intros; by apply keeps_ret].
    apply keeps_bind; [done|done| |intros _].
    + unfold Nag.sendSlackDM.
      apply keeps_bind; [done|done|by apply keeps_emit|intros _; by apply keeps_lift].
    + unfold Nag.updateNagStatus.
      apply keeps_bind; [done|done|by apply keeps_now|]. intros t'.
      apply keeps_bind; [done|done|by apply keeps_lift|]. intros stamp.
      apply keeps_pages_update; [done|]. intros p. by repeat split.
Qed.

Lemma pagewise_dom (R : Properties -> Properties -> Prop) (s s' : gmap string Properties) :
  pagewise R s s' -> dom s' = dom s.
Proof.
  intros Hp. apply set_eq. intros i. rewrite !elem_of_dom. specialize (Hp i).
  destruct (s !! i), (s' !! i); try done; split; intros [? [=]].
Qed.

(** X6. A pass of the nagger neither adds nor removes a page, and in every
    page it leaves the title, the date, the location, the description, the
    status, the calendar id, the notes and the last-edited value as they
    were: only the four nag properties can differ afterwards. *)
Theorem nag_pass_keeps_records (cfg : Nag.Config) (w : World) (st : State) :
  let st' := (Nag.main cfg w st).2 in
  pagewise same_but_nag (store st) (store st') /\
  dom (store st') = dom (store st).
Proof.
  intros st'.
  assert (pagewise same_but_nag (store st) (store st')) as Hp.
  { subst st'. unfold Nag.main.
    apply (keeps_run_main same_but_nag).
    pose proof same_but_nag_refl as Hr. pose proof same_but_nag_trans as Ht.
    unfold Nag.main_body, Nag.queryEventsNeedingNag.
    apply keeps_bind; [done|done| |intros events].
    - apply keeps_bind; [done|done|by apply keeps_databases_query|].
      intros results. by apply keeps_ret.
    - apply keeps_for_of; [done|done|]. intros x. apply keeps_nagEvent. }
  split; [done|]. by eapply pagewise_dom.
Qed.

Lemma keeps_syncedPatch (w : World) (i note cid stamp : string) :
  keeps same_but_sync (pages_update w i (SyncCalendar.syncedPatch note cid stamp)).
Proof.
  apply keeps_pages_update; [apply same_but_sync_refl|].
  intros p. unfold same_but_sync. repeat split. by right.
Qed.

Lemma keeps_errorPatch (w : World) (i msg : string) :
  keeps same_but_sync (pages_update w i (SyncCalendar.errorPatch msg)).
Proof.
  apply keeps_pages_update; [apply same_but_sync_refl|].
  intros p. unfold same_but_sync. repeat split. by left.
Qed.

Lemma keeps_events_insert (w : World) (c : string) (body : GCal.Event) :
  keeps same_but_sync (SyncCalendar.events_insert w c body).
Proof.
  pose proof same_but_sync_refl as Hr. pose proof same_but_sync_trans as Ht.
  unfold SyncCalendar.events_insert.
  apply keeps_bind; [done|done|by apply keeps_emit|intros _; by apply keeps_lift].
Qed.

Lemma keeps_write_back (w : World) (i note cid : string) :
  keeps same_but_sync
    (IO.bind (now w) (fun t =>
     IO.bind (lift (toISOString (Some t))) (fun stamp =>
     pages_update w i (SyncCalendar.syncedPatch note cid stamp)))).
Proof.
  pose proof same_but_sync_refl as Hr. pose proof same_but_sync_trans as Ht.
  apply keeps_bind; [done|done|by apply keeps_now|]. intros t.
  apply keeps_bind; [done|done|by apply keeps_lift|]. intros stamp.
  apply keeps_syncedPatch.
Qed.

Lemma keeps_syncEvent (w : World) (event : Page) :
  keeps same_but_sync (SyncCalendar.syncEvent w event).
Proof.
  pose proof same_but_sync_refl as Hr. pose proof same_but_sync_trans as Ht.
  unfold SyncCalendar.syncEvent, SyncCalendar.trySync.
  apply keeps_try_catch; [done|done| |intros msg; apply keeps_errorPatch].
  apply keeps_bind; [done|done| |intros cid; apply keeps_write_back].
  unfold SyncCalendar.createCalendarEvent.
  apply keeps_bind; [done|done|by apply keeps_lift|].
  intros body. apply keeps_events_insert.
Qed.

Lemma keeps_syncEvent_timed (v : SyncTimed.Variant) (w : World) (event : Page) :
  keeps same_but_sync (SyncTimed.syncEvent v w event).
Proof.
  pose proof same_but_sync_refl as Hr. pose proof same_but_sync_trans as Ht.
  unfold SyncTimed.syncEvent.
  apply keeps_try_catch; [done|done| |intros msg; apply keeps_errorPatch].
  apply keeps_bind; [done|done| |intros cid; apply keeps_write_back].
  apply keeps_events_insert.
Qed.

Lemma keeps_shareCalendar (w : World) : keeps same_but_sync (SyncTimed.shareCalendar w).
Proof.
  pose proof same_but_sync_refl as Hr. pose proof same_but_sync_trans as Ht.
  unfold SyncTimed.shareCalendar.
  apply keeps_try_catch; [done|done| |intros; by apply keeps_ret].
  apply keeps_bind; [done|done|by apply keeps_emit|intros _; by apply keeps_lift].
Qed.

(** X7. A pass of any of the three calendar syncs neither adds nor removes
    a page, and in every page it leaves everything but the calendar id, the
    status and the notes as it was; a status that has changed is
    "Scheduled". *)
Theorem sync_pass_keeps_records (v : SyncTimed.Variant) (w : World) (st : State) :
  pagewise same_but_sync (store st) (store (SyncCalendar.main w st).2) /\
  pagewise same_but_sync (store st) (store (SyncTimed.main v w st).2) /\
  dom (store (SyncCalendar.main w st).2) = dom (store st) /\
  dom (store (SyncTimed.main v w st).2) = dom (store st).
Proof.
  pose proof same_but_sync_refl as Hr. pose proof same_but_sync_trans as Ht.
  assert (pagewise same_but_sync (store st) (store (SyncCalendar.main w st).2)) as H1.
  { unfold SyncCalendar.main. apply (keeps_run_main same_but_sync).
    unfold SyncCalendar.main_body, SyncCalendar.queryApprovedEvents.
    apply keeps_bind; [done|done|by apply keeps_databases_query|].
    intros [|e l]; [by apply keeps_ret|].
    apply keeps_for_of; [done|done|]. intros x. apply keeps_syncEvent. }
  assert (pagewise same_but_sync (store st) (store (SyncTimed.main v w st).2)) as H2.
  { unfold SyncTimed.main. apply (keeps_run_main same_but_sync).
    unfold SyncTimed.main_body, SyncCalendar.queryApprovedEvents.
    apply keeps_bind; [done|done| |intros _].
    { destruct (SyncTimed.sharesCalendar v); [apply keeps_shareCalendar|by apply keeps_ret]. }
    apply keeps_bind; [done|done|by apply keeps_databases_query|].
    intros [|e l]; [by apply keeps_ret|].
    apply keeps_for_of; [done|done|]. intros x. apply keeps_syncEvent_timed. }
  repeat split; try done; by eapply pagewise_dom.
Qed.

End KeptByScripts.

(** ** The calendar sync: one record from insert to write-back *)

Section SyncOneRecord.

Import ES Notion IO SyncCalendar.
Context `{Host}.

(** X8. When the event can be derived, the calendar accepts the insert and
    the store accepts the write-back, the loop body sends exactly these two
    requests; the stored page then holds the calendar id, the status
    "Scheduled" and the note, everything else as before, and it is no longer
    returned by the query for approved events. *)
Theorem sync_success_schedules (w : World) (event : Page) (st : State)
    (body : GCal.Event) (cid : string) (p : Properties) :
  let stamp := iso (Date_now w (ticks st)) in
  let update := syncedPatch "Synced to calendar on " cid stamp in
  let r := syncEvent w event st in
  let p' := with_Notes (set_text (Some ("Synced to calendar on " ++ stamp)%string))
              (with_Status (Some {| select := Some {| name := "Scheduled" |} |})
                 (with_Calendar_ID (set_text (Some cid)) p)) in
  eventBody event = Normal body ->
  calendar_events_insert w CALENDAR_ID body = Normal cid ->
  notion_pages_update w (id event) update = Normal tt ->
  store st !! id event = Some p ->
  r.1 = Normal tt /\
  sent st r.2 = [CalendarEventsInsert CALENDAR_ID body; NotionPagesUpdate (id event) update] /\
  store r.2 !! id event = Some p' /\
  approved_filter p' = false.
Proof.
  intros stamp update r p' Hb Hi Hu Hp. subst r.
  unfold syncEvent, try_catch, trySync, createCalendarEvent, events_insert,
    updateNotionEvent, pages_update, bind, emit, lift, now.
  rewrite Hb. simpl. rewrite Hi. simpl. fold stamp. fold update. rewrite Hu. simpl.
  split; [done|]. split; [apply sent_app; simpl; by rewrite <- app_assoc|].
  split; [|done].
  by rewrite lookup_alter_eq, Hp.
Qed.

(** X9. When the calendar accepts the insert but the store rejects the
    write-back, the calendar entry exists, the error note is tried, and the
    stored page keeps its status: a page that was approved is still returned
    by the next query for approved events. *)
Theorem sync_write_back_rejected (w : World) (event : Page) (st : State)
    (body : GCal.Event) (cid msg : string) (p : Properties) :
  let stamp := iso (Date_now w (ticks st)) in
  let update := syncedPatch "Synced to calendar on " cid stamp in
  let r := syncEvent w event st in
  eventBody event = Normal body ->
  calendar_events_insert w CALENDAR_ID body = Normal cid ->
  notion_pages_update w (id event) update = Throw msg ->
  store st !! id event = Some p ->
  approved_filter p = true ->
  sent st r.2 = [CalendarEventsInsert CALENDAR_ID body;
                 NotionPagesUpdate (id event) update;
                 NotionPagesUpdate (id event) (errorPatch msg)] /\
  exists p', store r.2 !! id event = Some p' /\ approved_filter p' = true.
Proof.
  intros stamp update r Hb Hi Hu Hp Ha. subst r.
  unfold syncEvent, try_catch, trySync, createCalendarEvent, events_insert,
    updateNotionEvent, pages_update, bind, emit, lift, now.
  rewrite Hb. simpl. rewrite Hi. simpl. fold stamp. fold update. rewrite Hu. simpl.
  destruct (notion_pages_update w (id event) (errorPatch msg)) as [[]|m]; simpl.
  - split; [apply sent_app; simpl; by rewrite <- !app_assoc|].
    rewrite lookup_alter_eq, Hp. simpl. eexists. split; [done|]. exact Ha.
  - split; [apply sent_app; simpl; by rewrite <- !app_assoc|]. eauto.
Qed.

(** X10. A start value without a time that [new Date] cannot read, on a
    record without an end, makes [createCalendarEvent] throw "Invalid time
    value" before it calls the calendar; the loop body then sends the error
    note and nothing else. *)
Theorem sync_unreadable_start (w : World) (event : Page) (st : State) (s : string) :
  date_start (Date_Time (properties event)) = Some s ->
  s <> "" ->
  JS.includes "T" s = false ->
  JS.truthy_opt (date_end (Date_Time (properties event))) = false ->
  Date_parse s = None ->
  eventBody event = Throw "Invalid time value" /\
  sent st (syncEvent w event st).2
    = [NotionPagesUpdate (id event) (errorPatch "Invalid time value")].
Proof.
  intros Hs Hne HT He Hp.
  assert (eventBody event = Throw "Invalid time value") as Hb.
  { destruct (date_start_inv _ _ Hs) as (dp & dv & Hdp & Hdv & Hstart & Hend).
    rewrite Hend in He.
    unfold eventBody. rewrite Hdp. simpl. rewrite Hdv, Hstart.
    rewrite (proj2 (truthy_true s) Hne), HT. simpl.
    assert (nextDayOf s = Throw "Invalid time value") as Hn
      by (unfold nextDayOf; by rewrite Hp).
    destruct (end_ dv) as [e|]; simpl in He; [rewrite He|]; by rewrite Hn. }
  split; [done|].
  unfold syncEvent, try_catch, trySync, createCalendarEvent, bind, lift.
  rewrite Hb. simpl. unfold pages_update, bind, emit. simpl.
  destruct (notion_pages_update _ _ _) as [[]|m]; simpl; by apply sent_app.
Qed.

End SyncOneRecord.

Lemma sync_success_schedules_witness :
  let props := Examples.approved (Examples.dated (Some "2024-06-01T10:00:00.000-07:00") None) in
  let event := Examples.page "a" props in
  let st := IO.initial (<["a" := props]> ∅) in
  let r := SyncCalendar.syncEvent (H := Examples.utc) (Examples.calm Examples.june1) event st in
  r.1 = ES.Normal tt /\
  exists p', IO.store r.2 !! "a" = Some p' /\
             Notion.select_name (Notion.Status p') = Some "Scheduled".
Proof.
  intros props event st r.
  destruct (sync_success_schedules (H := Examples.utc) (Examples.calm Examples.june1) event st
              _ "evt1" props eq_refl eq_refl eq_refl eq_refl) as (Hr & _ & Hs & _).
  split; [exact Hr|]. eexists. split; [exact Hs|reflexivity].
Defined.

Lemma sync_write_back_rejected_witness :
  let props := Examples.approved (Examples.dated (Some "2024-06-01T10:00:00.000-07:00") None) in
  let event := Examples.page "a" props in
  let st := IO.initial (<["a" := props]> ∅) in
  let r := SyncCalendar.syncEvent (H := Examples.utc)
             (Examples.notion_read_only Examples.june1) event st in
  exists p', IO.store r.2 !! "a" = Some p' /\ SyncCalendar.approved_filter p' = true.
Proof.
  intros props event st r.
  exact (proj2 (sync_write_back_rejected (H := Examples.utc)
                  (Examples.notion_read_only Examples.june1) event st
                  _ "evt1" "rate_limited" props eq_refl eq_refl eq_refl eq_refl eq_refl)).
Defined.

Lemma sync_unreadable_start_witness :
  let event := Examples.page "a" (Examples.approved (Examples.dated (Some "next week") None)) in
  SyncCalendar.eventBody (H := Examples.utc) event = ES.Throw "Invalid time value".
Proof.
  intros event.
  apply (proj1 (sync_unreadable_start (H := Examples.utc) (Examples.calm Examples.june1)
                  event (IO.initial ∅) "next week"
                  eq_refl ltac:(discriminate) eq_refl eq_refl eq_refl)).
Defined.

Lemma eventBody_timed_witness :
  let props := Examples.approved (Examples.dated (Some "2024-06-01T10:00:00.000-07:00") None) in
  SyncCalendar.eventBody (H := Examples.utc) (Examples.page "a" props)
  = ES.Normal {| GCal.summary := "Picnic"; GCal.description := "Bring snacks";
                 GCal.location := "Park";
                 GCal.start := SyncCalendar.timed (Some "2024-06-01T10:00:00.000-07:00");
                 GCal.end_ := SyncCalendar.timed (Some "2024-06-01T10:00:00.000-07:00") |}.
Proof.
  intros props.
  apply (eventBody_timed (H := Examples.utc) (Examples.page "a" props)
           "2024-06-01T10:00:00.000-07:00" eq_refl eq_refl).
Defined.

Lemma eventBody_all_day_until_witness :
  let props := Examples.approved (Examples.dated (Some "2024-06-01") (Some "2024-06-03")) in
  SyncCalendar.eventBody (H := Examples.utc) (Examples.page "a" props)
  = ES.Normal {| GCal.summary := "Picnic"; GCal.description := "Bring snacks";
                 GCal.location := "Park";
                 GCal.start := SyncCalendar.allDay "2024-06-01";
                 GCal.end_ := SyncCalendar.allDay "2024-06-03" |}.
Proof.
  intros props.
  apply (proj1 (eventBody_all_day_until (H := Examples.utc) (Examples.page "a" props)
                  "2024-06-01" "2024-06-03"
                  eq_refl ltac:(discriminate) eq_refl eq_refl ltac:(discriminate))).
Defined.

(** ** What a whole pass sends *)

Section PassTraces.

Import ES Notion IO.

(** A loop whose every turn adds to the trace at most one request of a
    kind adds at most one per element, each from the turn of some element. *)
Lemma for_of_sent {A} (body : A -> M unit) (f : Effect -> bool)
    (good : A -> Effect -> Prop) :
  (forall x st, exists l,
      trace (body x st).2 = (trace st ++ l)%list /\
      (forall e, In e l -> f e = true -> good x e) /\
      (length (List.filter f l) <= 1)%nat) ->
  forall xs st, exists l,
      trace (for_of xs body st).2 = (trace st ++ l)%list /\
      (forall e, In e l -> f e = true -> exists x, In x xs /\ good x e) /\
      (length (List.filter f l) <= length xs)%nat.
Proof.
  intros Hbody xs. induction xs as [|x xs IH]; intros st.
  - exists []. simpl. rewrite app_nil_r. split; [done|]. split; [intros e []|lia].
  - simpl. unfold bind.
    destruct (Hbody x st) as (l1 & Ht1 & Hg1 & Hc1).
    destruct (body x st) as [[[]|msg] st1]; simpl in *.
    + destruct (IH st1) as (l2 & Ht2 & Hg2 & Hc2).
      exists (l1 ++ l2)%list. split; [by rewrite Ht2, Ht1, app_assoc|]. split.
      * intros e Hin Hf. apply in_app_or in Hin as [Hin|Hin].
        -- exists x. split; [by left|by apply Hg1].
        -- destruct (Hg2 e Hin Hf) as (x' & Hx' & Hgood). exists x'. split; [by right|done].
      * rewrite List.filter_app, length_app. lia.
    + exists l1. split; [done|]. split; [|lia].
      intros e Hin Hf. exists x. split; [by left|by apply Hg1].
Qed.

Context `{Host}.

Lemma nagEvent_sent (cfg : Nag.Config) (w : World) (event : Page) (st : State) :
  exists l,
    trace (Nag.nagEvent cfg w event st).2 = (trace st ++ l)%list /\
    (forall e, In e l -> is_slack e = true ->
       Nag.nagCountOf (properties event) < 5 /\
       e = SlackPostMessage
             (Nag.USERS cfg (Nag.getNextPerson (Nag.nagCountOf (properties event))))
             (Nag.buildNagMessage event
                (Nag.getNextPerson (Nag.nagCountOf (properties event))))) /\
    (length (List.filter is_slack l) <= 1)%nat.
Proof.
  unfold Nag.nagEvent, bind.
  destruct (callShouldNagNow_run w event st) as (st1 & Hcall & _ & Ht & _).
  rewrite Hcall, <- Ht. clear Hcall Ht.
  destruct (Nag.should (Nag.shouldNagNow (Date_now w (ticks st)) event)) eqn:Es; simpl.
  - apply should_below_five in Es.
    unfold try_catch, Nag.sendSlackDM, Nag.updateNagStatus, pages_update, bind, emit,
      lift, now. simpl.
    destruct (slack_postMessage _ _ _) as [[]|msg]; simpl.
    + destruct (notion_pages_update _ _ _) as [[]|msg]; simpl;
        (eexists; split; [by rewrite <- app_assoc|]); (split; [|simpl; lia]);
        intros e [<- | [<- | []]]; done.
    + eexists; split; [done|]. split; [|simpl; lia]. intros e [<- | []]; done.
  - destruct (String.eqb _ _); simpl.
    + unfold pages_update, bind, emit. simpl.
      destruct (notion_pages_update _ _ _) as [[]|msg]; simpl;
        (eexists; split; [done|]); (split; [|simpl; lia]); intros e [<- | []]; done.
    + exists []. rewrite app_nil_r. split; [done|]. split; [intros e []|simpl; lia].
Qed.

(** X11. In a pass of the nagger, every Slack message is the nag for a
    stored page whose Status is "Scheduled", whose Nag Status is empty or
    "Pending", that lacks a field and whose nag count is below 5; it goes to
    the person the rotation gives for that count, and there are no more
    messages than such pages. *)
Theorem nag_pass_messages (cfg : Nag.Config) (w : World) (st : State) :
  let r := Nag.main cfg w st in
  (forall c m, In (SlackPostMessage c m) (sent st r.2) ->
     exists i p,
       let person := Nag.getNextPerson (Nag.nagCountOf p) in
       store st !! i = Some p /\
       Nag.nag_filter p = true /\
       Nag.getMissingFields {| id := i; properties := p |} <> [] /\
       Nag.nagCountOf p < 5 /\
       c = Nag.USERS cfg person /\
       m = Nag.buildNagMessage {| id := i; properties := p |} person) /\
  (length (List.filter is_slack (sent st r.2))
   <= length (List.filter (fun kv => Nag.nag_filter kv.2) (map_to_list (store st))))%nat.
Proof.
  intros r. subst r.
  unfold Nag.main, run_main, Nag.main_body, Nag.queryEventsNeedingNag, bind, ret,
    databases_query.
  destruct (notion_databases_query w) as [k|msg] eqn:Eq; simpl.
  2:{ rewrite (sent_app st st [] ltac:(by rewrite app_nil_r)).
      split; [intros c m []|simpl; lia]. }
  set (stored := List.filter (fun kv : string * Properties => Nag.nag_filter kv.2)
                   (map_to_list (store st))).
  set (kept := take k stored).
  set (events := List.filter Nag.isMissingInfo
                   ((fun kv : string * Properties =>
                       {| id := kv.1; properties := kv.2 |}) <$> kept)).
  destruct (for_of_sent (Nag.nagEvent cfg w) is_slack
              (fun event e =>
                 Nag.nagCountOf (properties event) < 5 /\
                 e = SlackPostMessage
                       (Nag.USERS cfg (Nag.getNextPerson (Nag.nagCountOf (properties event))))
                       (Nag.buildNagMessage event
                          (Nag.getNextPerson (Nag.nagCountOf (properties event)))))
              (nagEvent_sent cfg w) events st) as (l & Ht & Hg & Hc).
  assert (sent st (for_of events (Nag.nagEvent cfg w) st).2 = l) as Hsent
    by by apply sent_app.
  assert (forall st' : State, trace st' = trace (for_of events (Nag.nagEvent cfg w) st).2 ->
            sent st st' = l) as Hsent'
    by (intros st' E; apply sent_app; by rewrite E).
  assert (length events <= length stored)%nat as Hlen.
  { subst events kept. etransitivity; [apply List.filter_length_le|].
    rewrite length_fmap, length_take. lia. }
  destruct (for_of events (Nag.nagEvent cfg w) st) as [[[]|msg] st1] eqn:Ef; simpl in *;
    rewrite Hsent; (split; [|lia]);
    intros c m Hin;
    destruct (Hg _ Hin eq_refl) as (e & He & Hn & Heq);
    injection Heq as -> ->;
    subst events; apply filter_In in He as [He Hmiss];
    apply list_elem_of_In, list_elem_of_fmap in He as ([i p] & -> & Hkv);
    subst kept; apply subseteq_take in Hkv;
    subst stored; apply list_elem_of_In, filter_In in Hkv as [Hkv Hf];
    apply list_elem_of_In, elem_of_map_to_list in Hkv;
    exists i, p; simpl in *;
    (repeat split; try done); by apply isMissingInfo_lists.
Qed.

Lemma syncEvent_sent (w : World) (event : Page) (st : State) :
  exists l,
    trace (SyncCalendar.syncEvent w event st).2 = (trace st ++ l)%list /\
    (forall e, In e l -> is_insert e = true ->
       exists body, SyncCalendar.eventBody event = Normal body /\
                    e = CalendarEventsInsert SyncCalendar.CALENDAR_ID body) /\
    (length (List.filter is_insert l) <= 1)%nat.
Proof.
  unfold SyncCalendar.syncEvent, try_catch, SyncCalendar.trySync,
    SyncCalendar.createCalendarEvent, SyncCalendar.events_insert,
    SyncCalendar.updateNotionEvent, pages_update, bind, emit, lift, now.
  destruct (SyncCalendar.eventBody event) as [body|m]; simpl.
  - destruct (calendar_events_insert _ _ _) as [cid|m]; simpl.
    + destruct (notion_pages_update _ _ (SyncCalendar.syncedPatch _ _ _)) as [[]|m]; simpl.
      * eexists. split; [by rewrite <- app_assoc|]. split; [|simpl; lia].
        intros e [<- | [<- | []]]; [eauto|done].
      * destruct (notion_pages_update _ _ _) as [[]|m']; simpl;
          (eexists; split; [by rewrite <- !app_assoc|]); (split; [|simpl; lia]);
          intros e [<- | [<- | [<- | []]]]; eauto; done.
    + destruct (notion_pages_update _ _ _) as [[]|m']; simpl;
        (eexists; split; [by rewrite <- !app_assoc|]); (split; [|simpl; lia]);
        intros e [<- | [<- | []]]; eauto; done.
  - destruct (notion_pages_update _ _ _) as [[]|m']; simpl;
      (eexists; split; [done|]); (split; [|simpl; lia]); intros e [<- | []]; done.
Qed.

(** X12. In a pass of the calendar sync, every insert goes to the
    configured calendar and carries the event derived from a stored page
    whose Status is "Approved"; there are no more inserts than approved
    pages.  Pages with another status get no calendar entry. *)
Theorem sync_pass_inserts (w : World) (st : State) :
  let r := SyncCalendar.main w st in
  (forall c body, In (CalendarEventsInsert c body) (sent st r.2) ->
     c = SyncCalendar.CALENDAR_ID /\
     exists i p,
       store st !! i = Some p /\
       select_name (Status p) = Some "Approved" /\
       SyncCalendar.eventBody {| id := i; properties := p |} = Normal body) /\
  (length (List.filter is_insert (sent st r.2))
   <= length (List.filter (fun kv => SyncCalendar.approved_filter kv.2)
                (map_to_list (store st))))%nat.
Proof.
  intros r. subst r.
  unfold SyncCalendar.main, run_main, SyncCalendar.main_body,
    SyncCalendar.queryApprovedEvents, bind, databases_query.
  destruct (notion_databases_query w) as [k|msg] eqn:Eq; simpl.
  2:{ rewrite (sent_app st st [] ltac:(by rewrite app_nil_r)).
      split; [intros c b []|simpl; lia]. }
  set (stored := List.filter
                   (fun kv : string * Properties => SyncCalendar.approved_filter kv.2)
                   (map_to_list (store st))).
  set (kept := take k stored).
  set (events := (fun kv : string * Properties =>
                    {| id := kv.1; properties := kv.2 |}) <$> kept).
  assert ((match events with
           | [] => ret ()
           | _ :: _ => for_of events (SyncCalendar.syncEvent w)
           end) st = for_of events (SyncCalendar.syncEvent w) st) as ->
    by by destruct events.
  destruct (for_of_sent (SyncCalendar.syncEvent w) is_insert
              (fun event e =>
                 exists body, SyncCalendar.eventBody event = Normal body /\
                              e = CalendarEventsInsert SyncCalendar.CALENDAR_ID body)
              (syncEvent_sent w) events st) as (l & Ht & Hg & Hc).
  assert (sent st (for_of events (SyncCalendar.syncEvent w) st).2 = l) as Hsent
    by by apply sent_app.
  assert (length events <= length stored)%nat as Hlen
    by (subst events kept; rewrite length_fmap, length_take; lia).
  destruct (for_of events (SyncCalendar.syncEvent w) st) as [[[]|msg] st1] eqn:Ef;
    simpl in *; rewrite Hsent; (split; [|lia]);
    intros c b Hin;
    destruct (Hg _ Hin eq_refl) as (e & He & body & Hb & Heq);
    injection Heq as -> ->; (split; [done|]);
    subst events;
    apply list_elem_of_In, list_elem_of_fmap in He as ([i p] & -> & Hkv);
    subst kept; apply subseteq_take in Hkv;
    subst stored; apply list_elem_of_In, filter_In in Hkv as [Hkv Hf];
    apply list_elem_of_In, elem_of_map_to_list in Hkv;
    exists i, p; simpl in *;
    (repeat split; try done); by apply select_equals_name.
Qed.

End PassTraces.

(** ** Passes that end early *)

Section EarlyEnds.

Import ES Notion IO.
Context `{Host}.

(** X13. When the query is rejected, every script ends with exit code 1
    and has changed nothing: the nagger and the two syncs that do not share
    the calendar have sent no request at all, the one that shares it has
    sent that one request only. *)
Theorem query_failure_is_fatal (cfg : Nag.Config) (v : SyncTimed.Variant) (w : World)
    (st : State) (msg : string) :
  notion_databases_query w = Throw msg ->
  Nag.main cfg w st = (1, st) /\
  SyncCalendar.main w st = (1, st) /\
  (SyncTimed.main v w st).1 = 1 /\
  store (SyncTimed.main v w st).2 = store st /\
  sent st (SyncTimed.main v w st).2
    = (if SyncTimed.sharesCalendar v then [CalendarAclInsert "primary"] else []).
Proof.
  intros Hq.
  split; [|split].
  - unfold Nag.main, run_main, Nag.main_body, Nag.queryEventsNeedingNag, bind,
      databases_query. by rewrite Hq.
  - unfold SyncCalendar.main, run_main, SyncCalendar.main_body,
      SyncCalendar.queryApprovedEvents, bind, databases_query. by rewrite Hq.
  - unfold SyncTimed.main, run_main, SyncTimed.main_body,
      SyncCalendar.queryApprovedEvents, SyncTimed.shareCalendar, try_catch, bind,
      databases_query, emit, lift, ret.
    rewrite Hq.
    destruct (SyncTimed.sharesCalendar v); simpl.
    + destruct (calendar_acl_insert w "primary") as [[]|m]; simpl;
        (split; [done|]); (split; [done|]); by apply sent_app.
    + split; [done|]. split; [done|]. apply sent_app. by rewrite app_nil_r.
Qed.

Lemma no_results (w : World) (filter : Properties -> bool) (st : State) (k : nat) :
  notion_databases_query w = Normal k ->
  (forall i p, store st !! i = Some p -> filter p = false) ->
  databases_query w filter st = (Normal [], st).
Proof.
  intros Hq Hnone. unfold databases_query. rewrite Hq.
  assert (List.filter (fun kv : string * Properties => filter kv.2)
            (map_to_list (store st)) = []) as ->; [|by rewrite take_nil].
  assert (forall kv, kv ∈ map_to_list (store st) -> filter kv.2 = false) as Hall.
  { intros [i p] Hin. apply elem_of_map_to_list in Hin. by apply (Hnone i p). }
  induction (map_to_list (store st)) as [|kv l IH]; [done|]. simpl.
  rewrite (Hall kv) by by left.
  apply IH. intros kv' Hin. apply Hall. by right.
Qed.

(** X14. A pass of the calendar sync over a store without approved pages
    sends no request and ends with exit code 0; so does a pass of the nagger
    over a store in which every scheduled page with an empty or pending nag
    status has its time, location and description. *)
Theorem nothing_to_do (cfg : Nag.Config) (w : World) (st : State) (k : nat) :
  notion_databases_query w = Normal k ->
  ((forall i p, store st !! i = Some p -> select_name (Status p) <> Some "Approved") ->
   SyncCalendar.main w st = (0, st)) /\
  ((forall i p, store st !! i = Some p -> Nag.nag_filter p = true ->
                Nag.getMissingFields {| id := i; properties := p |} = []) ->
   Nag.main cfg w st = (0, st)).
Proof.
  intros Hq. split.
  - intros Hnone.
    unfold SyncCalendar.main, run_main, SyncCalendar.main_body,
      SyncCalendar.queryApprovedEvents, bind.
    rewrite (no_results _ _ _ k); [done|done|].
    intros i p Hp. specialize (Hnone i p Hp).
    destruct (SyncCalendar.approved_filter p) eqn:E; [|done].
    by apply select_equals_name in E.
  - intros Hcomplete.
    destruct (databases_query_results w Nag.nag_filter st k Hq)
      as (results & Hr & _ & _ & _ & Hin & _).
    unfold Nag.main, run_main, Nag.main_body, Nag.queryEventsNeedingNag, bind, ret.
    rewrite Hr.
    assert (List.filter Nag.isMissingInfo results = []) as ->; [|done].
    assert (forall e, In e results -> Nag.isMissingInfo e = false) as Hall.
    { intros e He. apply Hin in He as [Hl Hf].
      specialize (Hcomplete (id e) (properties e) Hl Hf).
      destruct (Nag.isMissingInfo e) eqn:E; [|done].
      apply isMissingInfo_lists in E. destruct e. done. }
    clear Hin Hr. induction results as [|e l IH]; [done|]. simpl.
    rewrite (Hall e) by by left.
    apply IH. intros e' He'. apply Hall. by right.
Qed.

(** X15. The sync of [part_001] first asks to share the calendar and goes
    on whatever the answer: the exit code, the store and the requests of the
    pass are the same when that request is rejected as when it is
    accepted. *)
Theorem share_failure_is_ignored (w : World) (st : State) (answer : Completion unit) :
  let w' := {| Date_now := Date_now w;
               slack_postMessage := slack_postMessage w;
               notion_databases_query := notion_databases_query w;
               notion_pages_update := notion_pages_update w;
               calendar_events_insert := calendar_events_insert w;
               calendar_acl_insert := fun _ => answer |} in
  SyncTimed.main SyncTimed.primary w' st = SyncTimed.main SyncTimed.primary w st /\
  exists l, sent st (SyncTimed.main SyncTimed.primary w st).2
            = CalendarAclInsert "primary" :: l.
Proof.
  intros w'.
  assert (forall u : World, SyncTimed.shareCalendar u st
            = (Normal tt, {| store := store st;
                             trace := (trace st ++ [CalendarAclInsert "primary"])%list;
                             ticks := ticks st |})) as Hshare.
  { intros u. unfold SyncTimed.shareCalendar, try_catch, bind, emit, lift, ret. simpl.
    by destruct (calendar_acl_insert u "primary") as [[]|m]. }
  split.
  - unfold SyncTimed.main, run_main, SyncTimed.main_body, bind.
    change (SyncTimed.sharesCalendar SyncTimed.primary) with true. cbv beta iota.
    by rewrite !Hshare.
  - set (st1 := {| store := store st;
                   trace := (trace st ++ [CalendarAclInsert "primary"])%list;
                   ticks := ticks st |}).
    set (rest := (IO.bind (SyncCalendar.queryApprovedEvents w) (fun approvedEvents =>
                   match approvedEvents with
                   | [] => ret ()
                   | _ :: _ => for_of approvedEvents (SyncTimed.syncEvent SyncTimed.primary w)
                   end))).
    assert ((SyncTimed.main SyncTimed.primary w st).2 = (rest st1).2) as ->.
    { unfold SyncTimed.main, run_main, SyncTimed.main_body.
      change (SyncTimed.sharesCalendar SyncTimed.primary) with true. cbv beta iota.
      fold rest. unfold bind at 1. rewrite Hshare. fold st1.
      by destruct (rest st1) as [[[]|m] s3]. }
    assert (forall s, exists l, trace (rest s).2 = (trace s ++ l)%list) as Hrest.
    { intros s. subst rest. unfold bind, SyncCalendar.queryApprovedEvents, databases_query.
      destruct (notion_databases_query w) as [k|m]; simpl;
        [|exists []; by rewrite app_nil_r].
      match goal with |- context [match ?evs with [] => _ | _ :: _ => _ end] =>
        generalize evs end.
      intros evs.
      assert ((match evs with
               | [] => ret ()
               | _ :: _ => for_of evs (SyncTimed.syncEvent SyncTimed.primary w)
               end) s = for_of evs (SyncTimed.syncEvent SyncTimed.primary w) s) as ->
        by by destruct evs.
      revert s. induction evs as [|e evs IH]; intros s; simpl.
      - exists []. by rewrite app_nil_r.
      - unfold bind.
        assert (exists l1, trace (SyncTimed.syncEvent SyncTimed.primary w e s).2
                           = (trace s ++ l1)%list) as (l1 & Hl1).
        { unfold SyncTimed.syncEvent, try_catch, SyncTimed.createCalendarEvent,
            SyncCalendar.events_insert, SyncTimed.updateNotionEvent, pages_update,
            bind, emit, lift, now. simpl.
          destruct (calendar_events_insert _ _ _) as [cid|m]; simpl.
          - destruct (notion_pages_update _ _ (SyncCalendar.syncedPatch _ _ _)) as [[]|m];
              simpl; [eexists; by rewrite <- app_assoc|].
            destruct (notion_pages_update _ _ _) as [[]|m']; simpl;
              eexists; by rewrite <- !app_assoc.
          - destruct (notion_pages_update _ _ _) as [[]|m']; simpl;
              eexists; by rewrite <- !app_assoc. }
        destruct (SyncTimed.syncEvent SyncTimed.primary w e s) as [[[]|m] s1]; simpl in *.
        + destruct (IH s1) as (l2 & Hl2). exists (l1 ++ l2)%list.
          by rewrite Hl2, Hl1, app_assoc.
        + by exists l1. }
    destruct (Hrest st1) as (l & Hl). exists l. apply sent_app.
    rewrite Hl. simpl. by rewrite <- app_assoc.
Qed.

End EarlyEnds.

Lemma query_failure_is_fatal_witness :
  let w := {| IO.Date_now := fun _ => Examples.june1;
              IO.slack_postMessage := fun _ _ => ES.Normal tt;
              IO.notion_databases_query := ES.Throw "unauthorized";
              IO.notion_pages_update := fun _ _ => ES.Normal tt;
              IO.calendar_events_insert := fun _ _ => ES.Normal "evt1";
              IO.calendar_acl_insert := fun _ => ES.Normal tt |} in
  let st := IO.initial (<["a" := Examples.approved None]> ∅) in
  SyncCalendar.main (H := Examples.utc) w st = (1, st).
Proof.
  intros w st.
  exact (proj1 (proj2 (query_failure_is_fatal (H := Examples.utc) Examples.cfg
                         SyncTimed.primary w st "unauthorized" eq_refl))).
Defined.

Lemma nothing_to_do_witness :
  let st := IO.initial (<["p1" := Examples.picnic (Some "2024-06-01") 0 None
                                    Notion.VUndefined]> ∅) in
  SyncCalendar.main (H := Examples.utc) (Examples.calm Examples.june1) st = (0, st).
Proof.
  intros st.
  apply (proj1 (nothing_to_do (H := Examples.utc) Examples.cfg
                  (Examples.calm Examples.june1) st 100 eq_refl)).
  intros i p Hp. unfold st, IO.initial in Hp. cbn [IO.store] in Hp.
  destruct (decide (i = "p1")) as [-> | Hne].
  - rewrite lookup_insert_eq in Hp. injection Hp as <-. discriminate.
  - rewrite lookup_insert_ne in Hp by done. rewrite lookup_empty in Hp. discriminate.
Defined.

(** ** Which pages a pass can change *)

Section Touched.

Import ES Notion IO.

(** A loop whose every turn writes to the page of its element only leaves
    the pages of no element alone. *)
Lemma for_of_untouched (body : Page -> M unit) :
  (forall x st i, i <> id x -> store (body x st).2 !! i = store st !! i) ->
  forall xs st i, i ∉ id <$> xs -> store (for_of xs body st).2 !! i = store st !! i.
Proof.
  intros Hbody xs. induction xs as [|x xs IH]; intros st i Hi; [done|].
  simpl. unfold bind. rewrite fmap_cons, not_elem_of_cons in Hi.
  destruct Hi as [Hx Hxs]. specialize (Hbody x st i Hx).
  destruct (body x st) as [[[]|msg] st1]; simpl in *; [|done].
  by rewrite IH.
Qed.

Lemma pages_update_other (w : World) (j : string) (patch : Patch) (st : State) (i : string) :
  i <> j -> store (pages_update w j patch st).2 !! i = store st !! i.
Proof.
  intros Hne. unfold pages_update, bind, emit. simpl.
  destruct (notion_pages_update w j patch); simpl; [|done].
  by rewrite lookup_alter_ne.
Qed.

Context `{Host}.

(** What one turn of the nagger does to the store. *)
Lemma nagEvent_store (cfg : Nag.Config) (w : World) (event : Page) (st : State) :
  let n := Nag.nagCountOf (properties event) in
  store (Nag.nagEvent cfg w event st).2 = store st \/
  store (Nag.nagEvent cfg w event st).2
    = alter (apply_patch Nag.gaveUpPatch) (id event) (store st) \/
  exists person stamp,
    store (Nag.nagEvent cfg w event st).2
      = alter (apply_patch (Nag.nagPatch person (n + 1) stamp)) (id event) (store st).
Proof.
  intros n. unfold Nag.nagEvent, bind.
  destruct (callShouldNagNow_run w event st) as (st1 & Hcall & Hs & _).
  rewrite Hcall, <- Hs. clear Hcall Hs.
  destruct (Nag.should _); simpl.
  - unfold try_catch, Nag.sendSlackDM, Nag.updateNagStatus, pages_update, bind, emit,
      lift, now. simpl.
    destruct (slack_postMessage _ _ _) as [[]|msg]; simpl; [|by left].
    destruct (notion_pages_update _ _ _) as [[]|msg]; simpl; [|by left].
    right. right. eauto.
  - destruct (String.eqb _ _); simpl; [|by left].
    unfold pages_update, bind, emit. simpl.
    destruct (notion_pages_update _ _ _) as [[]|msg]; simpl; [|by left].
    right. by left.
Qed.

Lemma nagEvent_other (cfg : Nag.Config) (w : World) (event : Page) (st : State) (i : string) :
  i <> id event -> store (Nag.nagEvent cfg w event st).2 !! i = store st !! i.
Proof.
  intros Hne.
  destruct (nagEvent_store cfg w event st) as [-> | [-> | (person & stamp & ->)]];
    [done| |]; by rewrite lookup_alter_ne.
Qed.

Lemma syncEvent_other (w : World) (event : Page) (st : State) (i : string) :
  i <> id event -> store (SyncCalendar.syncEvent w event st).2 !! i = store st !! i.
Proof.
  intros Hne.
  unfold SyncCalendar.syncEvent, try_catch, SyncCalendar.trySync,
    SyncCalendar.createCalendarEvent, SyncCalendar.events_insert,
    SyncCalendar.updateNotionEvent, pages_update, bind, emit, lift, now.
  destruct (SyncCalendar.eventBody event) as [body|m]; simpl.
  - destruct (calendar_events_insert _ _ _) as [cid|m]; simpl.
    + destruct (notion_pages_update _ _ (SyncCalendar.syncedPatch _ _ _)) as [[]|m]; simpl.
      * by rewrite lookup_alter_ne.
      * destruct (notion_pages_update _ _ _) as [[]|m']; simpl; [|done].
        by rewrite lookup_alter_ne.
    + destruct (notion_pages_update _ _ _) as [[]|m']; simpl; [|done].
      by rewrite lookup_alter_ne.
  - destruct (notion_pages_update _ _ _) as [[]|m']; simpl; [|done].
    by rewrite lookup_alter_ne.
Qed.

(** X16. A pass of the nagger leaves a stored page exactly as it was
    unless its Status is "Scheduled", its Nag Status is empty or "Pending"
    and it lacks a field; a pass of the calendar sync leaves a stored page
    exactly as it was unless its Status is "Approved". *)
Theorem other_pages_untouched (cfg : Nag.Config) (w : World) (st : State)
    (i : string) (p : Properties) :
  store st !! i = Some p ->
  (Nag.nag_filter p = false \/ Nag.getMissingFields {| id := i; properties := p |} = [] ->
   store (Nag.main cfg w st).2 !! i = Some p) /\
  (SyncCalendar.approved_filter p = false ->
   store (SyncCalendar.main w st).2 !! i = Some p).
Proof.
  intros Hp. split.
  - intros Hout.
    unfold Nag.main, run_main, Nag.main_body, Nag.queryEventsNeedingNag, bind, ret.
    destruct (notion_databases_query w) as [k|msg] eqn:Eq.
    2:{ unfold databases_query. by rewrite Eq. }
    destruct (databases_query_results w Nag.nag_filter st k Eq)
      as (results & Hr & _ & _ & _ & Hin & _).
    rewrite Hr.
    assert (i ∉ id <$> List.filter Nag.isMissingInfo results) as Hi.
    { intros Hi. apply list_elem_of_fmap in Hi as (e & -> & He).
      apply list_elem_of_In, filter_In in He as [He Hmiss].
      apply Hin in He as [Hl Hf]. rewrite Hp in Hl. injection Hl as ->.
      destruct Hout as [Hout|Hout]; [congruence|].
      apply isMissingInfo_lists in Hmiss. by destruct e. }
    pose proof (for_of_untouched (Nag.nagEvent cfg w) (nagEvent_other cfg w)
                  _ st i Hi) as Hsame.
    destruct (for_of _ _ st) as [[[]|msg] st1]; simpl in *; by rewrite Hsame.
  - intros Hout.
    unfold SyncCalendar.main, run_main, SyncCalendar.main_body,
      SyncCalendar.queryApprovedEvents, bind.
    destruct (notion_databases_query w) as [k|msg] eqn:Eq.
    2:{ unfold databases_query. by rewrite Eq. }
    destruct (databases_query_results w SyncCalendar.approved_filter st k Eq)
      as (results & Hr & _ & _ & _ & Hin & _).
    rewrite Hr.
    assert (i ∉ id <$> results) as Hi.
    { intros Hi. apply list_elem_of_fmap in Hi as (e & -> & He).
      apply list_elem_of_In, Hin in He as [Hl Hf].
      rewrite Hp in Hl. injection Hl as ->. congruence. }
    pose proof (for_of_untouched (SyncCalendar.syncEvent w) (syncEvent_other w)
                  results st i Hi) as Hsame.
    assert ((match results with
             | [] => ret ()
             | _ :: _ => for_of results (SyncCalendar.syncEvent w)
             end) st = for_of results (SyncCalendar.syncEvent w) st) as ->
      by by destruct results.
    destruct (for_of _ _ st) as [[[]|msg] st1]; simpl in *; by rewrite Hsame.
Qed.

Lemma nag_loop_counts (cfg : Nag.Config) (w : World) (events : list Page) :
  forall st,
    NoDup (id <$> events) ->
    (forall e, In e events -> store st !! id e = Some (properties e)) ->
    forall i p, store st !! i = Some p ->
      exists p', store (for_of events (Nag.nagEvent cfg w) st).2 !! i = Some p' /\
                 (Nag.nagCountOf p' = Nag.nagCountOf p \/
                  Nag.nagCountOf p' = Nag.nagCountOf p + 1).
Proof.
  induction events as [|e events IH]; intros st Hnd Hsnap i p Hp.
  - exists p. split; [done|by left].
  - simpl. unfold bind. rewrite fmap_cons in Hnd. apply NoDup_cons in Hnd as [He Hnd].
    assert (forall e', In e' events ->
              store (Nag.nagEvent cfg w e st).2 !! id e' = Some (properties e')) as Hsnap1.
    { intros e' He'. rewrite nagEvent_other; [apply Hsnap; by right|].
      intros Heq. apply He. rewrite <- Heq. apply list_elem_of_fmap.
      exists e'. split; [done|]. by apply list_elem_of_In. }
    assert (exists p1, store (Nag.nagEvent cfg w e st).2 !! i = Some p1 /\
                       (Nag.nagCountOf p1 = Nag.nagCountOf p \/
                        Nag.nagCountOf p1 = Nag.nagCountOf p + 1)) as (p1 & Hp1 & Hc1).
    { destruct (decide (i = id e)) as [->|Hne].
      - pose proof (Hsnap e ltac:(by left)) as Hsn. rewrite Hp in Hsn. injection Hsn as ->.
        destruct (nagEvent_store cfg w e st) as [-> | [-> | (person & stamp & ->)]].
        + exists (properties e). split; [done|by left].
        + rewrite lookup_alter_eq, Hp. simpl. eexists. split; [done|]. by left.
        + rewrite lookup_alter_eq, Hp. simpl. eexists. split; [done|]. by right.
      - rewrite nagEvent_other by done. exists p. split; [done|by left]. }
    destruct (Nag.nagEvent cfg w e st) as [[[]|msg] st1] eqn:Ee; simpl in *; [|eauto].
    destruct (decide (i = id e)) as [->|Hne].
    + exists p1. split; [|done]. rewrite <- Hp1.
      apply (for_of_untouched (Nag.nagEvent cfg w) (nagEvent_other cfg w)). done.
    + destruct (IH st1 Hnd Hsnap1 i p1 Hp1) as (p' & Hp' & Hc').
      exists p'. split; [done|].
      assert (p1 = p) as ->; [|done].
      pose proof (nagEvent_other cfg w e st i Hne) as Hsame.
      rewrite Ee in Hsame. simpl in Hsame. congruence.
Qed.

(** X17. In a pass of the nagger the nag count of a stored page never
    falls and rises by at most one. *)
Theorem nag_pass_counts (cfg : Nag.Config) (w : World) (st : State)
    (i : string) (p : Properties) :
  store st !! i = Some p ->
  exists p', store (Nag.main cfg w st).2 !! i = Some p' /\
             (Nag.nagCountOf p' = Nag.nagCountOf p \/
              Nag.nagCountOf p' = Nag.nagCountOf p + 1).
Proof.
  intros Hp.
  unfold Nag.main, run_main, Nag.main_body, bind.
  destruct (notion_databases_query w) as [k|msg] eqn:Eq.
  2:{ unfold Nag.queryEventsNeedingNag, bind, databases_query. rewrite Eq. simpl.
      exists p. split; [done|by left]. }
  destruct (databases_query_results w Nag.nag_filter st k Eq)
    as (results & Hr & Hnd & _ & _ & Hin & _).
  unfold Nag.queryEventsNeedingNag, bind, ret. rewrite Hr.
  set (events := List.filter Nag.isMissingInfo results).
  assert (forall e, In e events -> store st !! id e = Some (properties e)) as Hsnap.
  { intros e He. apply filter_In in He as [He _]. by apply Hin in He as [Hl _]. }
  destruct (nag_loop_counts cfg w events st (NoDup_ids_filter _ _ Hnd) Hsnap i p Hp)
    as (p' & Hp' & Hc).
  exists p'. split; [|done].
  by destruct (for_of events (Nag.nagEvent cfg w) st) as [[[]|msg] st1].
Qed.

End Touched.

Lemma other_pages_untouched_witness :
  let props := Examples.approved (Examples.dated (Some "2024-06-01") None) in
  let st := IO.initial (<["a" := props]> ∅) in
  IO.store (Nag.main (H := Examples.utc) Examples.cfg (Examples.calm Examples.june1) st).2 !! "a"
  = Some props.
Proof.
  intros props st.
  apply (proj1 (other_pages_untouched (H := Examples.utc) Examples.cfg
                  (Examples.calm Examples.june1) st "a" props eq_refl)).
  left. reflexivity.
Defined.

Lemma nag_pass_counts_witness :
  let props := Examples.picnic (Some "2024-06-01") 0 None
                 (Notion.VString "2024-06-01T00:00:00.000Z") in
  let st := IO.initial (<["p1" := props]> ∅) in
  exists p',
    IO.store (Nag.main (H := Examples.utc) Examples.cfg
                (Examples.calm (Examples.june1 + 2 * 60 * 60 * 1000)) st).2 !! "p1" = Some p' /\
    (Nag.nagCountOf p' = Nag.nagCountOf props \/
     Nag.nagCountOf p' = Nag.nagCountOf props + 1).
Proof.
  intros props st.
  exact (nag_pass_counts (H := Examples.utc) Examples.cfg
           (Examples.calm (Examples.june1 + 2 * 60 * 60 * 1000)) st "p1" props eq_refl).
Defined.
